(** * Volume-clock bucketing (VPIN) and the per-trade fee estimator

    A shallow embedding of [calculate_vpin] ([vpin_calculator.py]), of the
    fee simulator ([backtesting/scripts/fee_calculation_sim.py]: the price
    analysis, the position parameters and their checks,
    [calculate_token_amounts_at_price],
    [calculate_fees_with_vpin_full_timeseries] and the frames of the
    combined output) and of the impact columns of the table both read
    ([backtesting/scripts/combine_minute_csvs.py]), with the properties of
    the bucketing, of the rolling toxicity windows, of the position and of
    the fee estimator.

    Numbers.  The Python code computes with binary64 values.  Two models
    of them are used.  [Vpin64] has the volume bookkeeping of
    [calculate_vpin] on the kernel's binary64 numbers, with the IEEE 754
    operations: what a bucket holds when it closes and how often the loop
    runs depend on the rounding of every step, and are settled there.
    Elsewhere the values are modelled by [pyfloat]: an exact rational,
    plus or minus infinity, or NaN.  Arithmetic on finite values is then
    exact: rounding and overflow are not modelled, and there is no signed
    zero, so that what is proved on [pyfloat] is the structure of the
    computations (which value is used where, in which order, under which
    test) and the identities between their results before rounding.  The
    special values follow IEEE 754, as NumPy scalars do (a division by
    zero gives an infinity or NaN); where the operands are Python floats
    a division by zero raises ([FeeSim.pydiv]).  A Python [None] is an
    [option].

    Loops.  The [while] loop of [calculate_vpin] takes a number of
    iterations ([fuel]) and gives [None] when they do not suffice; the
    other loops are structural.

    Layout: the extended rationals, the programs ([Vpin], [Vpin64],
    [FeeSim], [FeeSetup], [MinuteData]), the predicates used in the
    statements, then the proofs ([VpinProofs], [Vpin64Proofs],
    [FeeProofs], [VpinExtra], [FeeExtra], [SetupProofs],
    [MinuteProofs]). *)

From Stdlib Require Import String ZArith QArith Qabs Qround List Bool Lia Lqa Sorted.
From Stdlib Require Floats.
Import ListNotations.

Open Scope Q_scope.

(** ** Extended rationals standing for binary64 values *)

Inductive pyfloat : Type :=
| Fin (q : Q)
| PInf
| NInf
| NaN.

(** The operations on them: exact on finite values (no rounding, no
    overflow, a single zero), IEEE 754 on the special values. *)
Module Float.

Definition inf_of (c : comparison) : pyfloat :=
  match c with Gt => PInf | Lt => NInf | Eq => NaN end.

(** Sign of a value that is not NaN. *)
Definition sign (x : pyfloat) : comparison :=
  match x with
  | Fin q => q ?= 0
  | PInf => Gt
  | NInf => Lt
  | NaN => Eq
  end.

Definition sign_mul (a b : comparison) : comparison :=
  match a, b with
  | Eq, _ | _, Eq => Eq
  | Gt, c => c
  | Lt, c => CompOpp c
  end.

Definition neg (x : pyfloat) : pyfloat :=
  match x with
  | Fin q => Fin (- q)
  | PInf => NInf
  | NInf => PInf
  | NaN => NaN
  end.

Definition abs (x : pyfloat) : pyfloat :=
  match x with
  | Fin q => Fin (Qabs q)
  | PInf | NInf => PInf
  | NaN => NaN
  end.

Definition add (x y : pyfloat) : pyfloat :=
  match x, y with
  | NaN, _ | _, NaN => NaN
  | Fin a, Fin b => Fin (a + b)
  | PInf, NInf | NInf, PInf => NaN
  | PInf, _ | _, PInf => PInf
  | NInf, _ | _, NInf => NInf
  end.

Definition sub (x y : pyfloat) : pyfloat := add x (neg y).

Definition mul (x y : pyfloat) : pyfloat :=
  match x, y with
  | NaN, _ | _, NaN => NaN
  | Fin a, Fin b => Fin (a * b)
  | _, _ => inf_of (sign_mul (sign x) (sign y))
  end.

(** Division as NumPy scalars do it: a finite value over zero is an
    infinity of its sign, zero over zero is NaN. *)
Definition div (x y : pyfloat) : pyfloat :=
  match x, y with
  | NaN, _ | _, NaN => NaN
  | Fin a, Fin b => if Qeq_bool b 0 then inf_of (a ?= 0) else Fin (a / b)
  | Fin _, _ => Fin 0
  | _, Fin b => if Qle_bool 0 b then x else neg x
  | _, _ => NaN
  end.

(** Ordering; [None] when an operand is NaN, so that every comparison
    with NaN is false. *)
Definition cmp (x y : pyfloat) : option comparison :=
  match x, y with
  | NaN, _ | _, NaN => None
  | Fin a, Fin b => Some (a ?= b)
  | PInf, PInf | NInf, NInf => Some Eq
  | PInf, _ | _, NInf => Some Gt
  | NInf, _ | _, PInf => Some Lt
  end.

Definition ltb (x y : pyfloat) : bool :=
  match cmp x y with Some Lt => true | _ => false end.
Definition leb (x y : pyfloat) : bool :=
  match cmp x y with Some Lt | Some Eq => true | _ => false end.
Definition eqb (x y : pyfloat) : bool :=
  match cmp x y with Some Eq => true | _ => false end.
Definition gtb (x y : pyfloat) : bool := ltb y x.
Definition geb (x y : pyfloat) : bool := leb y x.
(** Python's [x != y]: true as soon as an operand is NaN. *)
Definition neb (x y : pyfloat) : bool := negb (eqb x y).

(** Python's builtin [min(a, b)]: [b] if [b < a], else [a]. *)
Definition min (a b : pyfloat) : pyfloat := if ltb b a then b else a.

(** [pd.notna]. *)
Definition notna (x : pyfloat) : bool :=
  match x with NaN => false | _ => true end.

Definition is_finite (x : pyfloat) : bool :=
  match x with Fin _ => true | _ => false end.

(** Same value, up to the representation of the rational. *)
Definition eq (x y : pyfloat) : Prop :=
  match x, y with
  | Fin a, Fin b => a == b
  | PInf, PInf | NInf, NInf | NaN, NaN => True
  | _, _ => False
  end.

Definition of_nat (n : nat) : pyfloat := Fin (inject_Z (Z.of_nat n)).

Definition sum (l : list pyfloat) : pyfloat := fold_left add l (Fin 0).

End Float.

Declare Scope pyfloat_scope.
Delimit Scope pyfloat_scope with fl.
Infix "+" := Float.add : pyfloat_scope.
Infix "-" := Float.sub : pyfloat_scope.
Infix "*" := Float.mul : pyfloat_scope.
Infix "/" := Float.div : pyfloat_scope.
Infix "<?" := Float.ltb (at level 70) : pyfloat_scope.
Infix "<=?" := Float.leb (at level 70) : pyfloat_scope.
Infix ">?" := Float.gtb (at level 70) : pyfloat_scope.
Infix ">=?" := Float.geb (at level 70) : pyfloat_scope.
Infix "=~" := Float.eq (at level 70) : pyfloat_scope.

(** The last [n] elements of a list. *)
Definition lastn {A} (n : nat) (l : list A) : list A := skipn (length l - n) l.

(** ** [vpin_calculator.py] *)

Module Vpin.

(** A row of the input table: the columns [calculate_vpin] reads. *)
Record row := {
  timestamp : Z;                (* seconds; [date] is the day it falls in *)
  tradevolume : pyfloat;
  abs_tradevolume : pyfloat }.

(** An entry of [bucket_details]. *)
Record details := {
  trade_index : Z;
  closing_timestamp : Z;        (* key 'timestamp' *)
  bucket_start_trade : Z;
  bucket_abs_volume : pyfloat;
  bucket_net_volume : pyfloat;
  order_imbalance : pyfloat;
  bucket_number : nat;
  vpin_daily : pyfloat;
  vpin_5day : pyfloat;
  vpin_7day : pyfloat }.

(** The variables the streaming pass updates. *)
Record state := {
  current_bucket_abs_volume : pyfloat;
  current_bucket_net_volume : pyfloat;
  imbalances_daily : list pyfloat;    (* bucket_imbalances_map['vpin_daily'] *)
  imbalances_5day : list pyfloat;
  imbalances_7day : list pyfloat;
  bucket_details : list details }.

(** [sample_lengths]. *)
Definition sample_length_daily : nat := 50.
Definition sample_length_5day : nat := 250.
Definition sample_length_7day : nat := 350.

Definition init : state :=
  {| current_bucket_abs_volume := Fin 0;
     current_bucket_net_volume := Fin 0;
     imbalances_daily := [];
     imbalances_5day := [];
     imbalances_7day := [];
     bucket_details := [] |}.

(** [imbalances.append(order_imbalance)], then [imbalances.pop(0)] when
    the list is longer than [sample_length]. *)
Definition push_window (sample_length : nat) (imbalances : list pyfloat)
           (x : pyfloat) : list pyfloat :=
  let l := imbalances ++ [x] in
  if (sample_length <? length l)%nat then tl l else l.

Definition np_mean (l : list pyfloat) : pyfloat :=
  (Float.sum l / Float.of_nat (length l))%fl.

(** [np.mean(imbalances) if len(imbalances) > 0 else np.nan]. *)
Definition window_value (imbalances : list pyfloat) : pyfloat :=
  if (0 <? length imbalances)%nat then np_mean imbalances else NaN.

(** Lines 79-101 and 109-130: compute the imbalance of the current
    bucket, update the three windows and append the bucket's details. *)
Definition record_bucket (bucket_size : pyfloat) (idx ts start : Z)
           (st : state) : state :=
  let oi := (Float.abs (current_bucket_net_volume st) / bucket_size)%fl in
  let wd := push_window sample_length_daily (imbalances_daily st) oi in
  let w5 := push_window sample_length_5day (imbalances_5day st) oi in
  let w7 := push_window sample_length_7day (imbalances_7day st) oi in
  let d := {| trade_index := idx;
              closing_timestamp := ts;
              bucket_start_trade := start;
              bucket_abs_volume := current_bucket_abs_volume st;
              bucket_net_volume := current_bucket_net_volume st;
              order_imbalance := oi;
              bucket_number := length (bucket_details st);
              vpin_daily := window_value wd;
              vpin_5day := window_value w5;
              vpin_7day := window_value w7 |} in
  {| current_bucket_abs_volume := current_bucket_abs_volume st;
     current_bucket_net_volume := current_bucket_net_volume st;
     imbalances_daily := wd;
     imbalances_5day := w5;
     imbalances_7day := w7;
     bucket_details := bucket_details st ++ [d] |}.

Definition set_current (a n : pyfloat) (st : state) : state :=
  {| current_bucket_abs_volume := a;
     current_bucket_net_volume := n;
     imbalances_daily := imbalances_daily st;
     imbalances_5day := imbalances_5day st;
     imbalances_7day := imbalances_7day st;
     bucket_details := bucket_details st |}.

(** One iteration of the body of [while remaining_volume > 0]
    (lines 60-105).  Returns the new remaining volumes and the state. *)
Definition fill_step (bucket_size : pyfloat) (idx ts : Z)
           (abs_trade_volume remaining_volume remaining_net_volume : pyfloat)
           (st : state) : pyfloat * pyfloat * state :=
  let volume_needed_for_bucket :=
    (bucket_size - current_bucket_abs_volume st)%fl in
  let volume_to_add := Float.min remaining_volume volume_needed_for_bucket in
  let proportion := (volume_to_add / abs_trade_volume)%fl in
  let net_volume_to_add := (remaining_net_volume * proportion)%fl in
  let st1 :=
    set_current (current_bucket_abs_volume st + volume_to_add)%fl
                (current_bucket_net_volume st + net_volume_to_add)%fl st in
  let remaining_volume' := (remaining_volume - volume_to_add)%fl in
  let remaining_net_volume' :=
    (remaining_net_volume - net_volume_to_add)%fl in
  let st2 :=
    if (current_bucket_abs_volume st1 >=? bucket_size)%fl then
      set_current (Fin 0) (Fin 0)
        (record_bucket bucket_size idx ts
           (idx - Z.of_nat (length (bucket_details st1)))%Z st1)
    else st1 in
  (remaining_volume', remaining_net_volume', st2).

(** The [while] loop of one trade; [None] when [fuel] iterations did not
    bring [remaining_volume] down to zero. *)
Fixpoint fill (fuel : nat) (bucket_size : pyfloat) (idx ts : Z)
         (abs_trade_volume remaining_volume remaining_net_volume : pyfloat)
         (st : state) {struct fuel} : option state :=
  if (remaining_volume >? Fin 0)%fl then
    match fuel with
    | O => None
    | S fuel' =>
        let '(rv, rn, st') :=
          fill_step bucket_size idx ts abs_trade_volume
                    remaining_volume remaining_net_volume st in
        fill fuel' bucket_size idx ts abs_trade_volume rv rn st'
    end
  else Some st.

(** [for idx, row in df.iterrows()] (lines 51-105); every trade gets
    [fuel] iterations of its [while] loop. *)
Fixpoint stream (fuel : nat) (bucket_size : pyfloat) (idx : Z)
         (df : list row) (st : state) : option state :=
  match df with
  | [] => Some st
  | r :: rest =>
      let trade_volume := tradevolume r in
      let abs_trade_volume := Float.abs trade_volume in
      match fill fuel bucket_size idx (timestamp r) abs_trade_volume
                 abs_trade_volume trade_volume st with
      | None => None
      | Some st' => stream fuel bucket_size (idx + 1) rest st'
      end
  end.

(** Lines 107-130: the bucket left open after the last trade.  The
    timestamp is that of the last row, [df.iloc[-1]]; a run that leaves
    volume in the bucket has one (the [0] is never used). *)
Definition flush (bucket_size : pyfloat) (df : list row) (st : state)
  : state :=
  if (current_bucket_abs_volume st >? Fin 0)%fl then
    let last_idx := (Z.of_nat (length df) - 1)%Z in
    let last_ts :=
      match rev df with r :: _ => timestamp r | [] => 0%Z end in
    record_bucket bucket_size last_idx last_ts last_idx st
  else st.

(** Lines 40-130 for a given [bucket_size]. *)
Definition run (fuel : nat) (bucket_size : pyfloat) (df : list row)
  : option state :=
  match stream fuel bucket_size 0 df init with
  | None => None
  | Some st => Some (flush bucket_size df st)
  end.

Definition buckets (fuel : nat) (bucket_size : pyfloat) (df : list row)
  : option (list details) :=
  option_map bucket_details (run fuel bucket_size df).

(** [df = df[df['tradevolume'] != 0]] (line 24). *)
Definition nonzero_rows (rows : list row) : list row :=
  filter (fun r => Float.neb (tradevolume r) (Fin 0)) rows.

(** [pd.to_datetime(df['timestamp']).dt.date] (line 30). *)
Definition date (r : row) : Z := (timestamp r / 86400)%Z.

(** [df.groupby('date')['abs_tradevolume'].sum()] (line 31): one sum per
    date; pandas leaves NaN entries out of a sum. *)
Definition nan_to_zero (x : pyfloat) : pyfloat :=
  match x with NaN => Fin 0 | _ => x end.

Fixpoint group_add (d : Z) (v : pyfloat) (groups : list (Z * pyfloat))
  : list (Z * pyfloat) :=
  match groups with
  | [] => [(d, v)]
  | (d', s) :: rest =>
      if (d =? d')%Z then (d', (s + v)%fl) :: rest
      else (d', s) :: group_add d v rest
  end.

Definition daily_volume (df : list row) : list (Z * pyfloat) :=
  fold_left
    (fun groups r =>
       group_add (date r) (nan_to_zero (abs_tradevolume r)) groups)
    df [(* no date yet *)].

(** [Series.mean()]: NaN entries are left out, and the mean of nothing is
    NaN. *)
Definition series_mean (l : list pyfloat) : pyfloat :=
  let l' := filter Float.notna l in
  if (0 <? length l')%nat
  then (Float.sum l' / Float.of_nat (length l'))%fl
  else NaN.

(** Lines 32-37. *)
Definition bucket_size (df : list row) : pyfloat :=
  (series_mean (map snd (daily_volume df)) / Fin 50)%fl.

Inductive exn := KeyError.

Inductive outcome :=
| Returned (vpin_df : list details)
| Raised (e : exn).

(** [calculate_vpin], up to the summary (line 138), where the column
    ['order_imbalance'] of [vpin_df] is read: a frame built from an empty
    [bucket_details] has no column, and the lookup raises.  [None] when a
    [while] loop did not end within [fuel] iterations. *)
Definition calculate_vpin (fuel : nat) (rows : list row) : option outcome :=
  let df := nonzero_rows rows in
  match buckets fuel (bucket_size df) df with
  | None => None
  | Some [] => Some (Raised KeyError)
  | Some vpin_df => Some (Returned vpin_df)
  end.

End Vpin.


(** ** [vpin_calculator.py], lines 40-130, on binary64 values

    The volume bookkeeping of the streaming pass once more, this time on
    the numbers the interpreter computes with: [float] is the kernel's
    binary64 type, and [+], [-], [*], [/], [abs] and the comparisons are
    the IEEE 754 operations (round to nearest, ties to even), which is what
    the operators of the code are on NumPy scalars.  Whether a bucket
    closes, what it holds when it closes and how many iterations a trade
    takes are decided by these roundings, so what is said about them is
    said on this module.

    The three toxicity windows (lines 81-88 and 111-118) only read
    [order_imbalance]; nothing of the bookkeeping reads them back.  They
    are left to [Vpin], and an entry of [bucket_details] has here the
    seven columns of lines 91-99. *)

Module Vpin64.

Import PrimFloat.

(** A row of the input table: the columns the streaming pass reads. *)
Record row := {
  timestamp : Z;
  tradevolume : float }.

(** An entry of [bucket_details], without the window columns. *)
Record details := {
  trade_index : Z;
  closing_timestamp : Z;        (* key 'timestamp' *)
  bucket_start_trade : Z;
  bucket_abs_volume : float;
  bucket_net_volume : float;
  order_imbalance : float;
  bucket_number : nat }.

(** The variables the streaming pass updates. *)
Record state := {
  current_bucket_abs_volume : float;
  current_bucket_net_volume : float;
  bucket_details : list details }.

Definition init : state :=
  {| current_bucket_abs_volume := 0%float;
     current_bucket_net_volume := 0%float;
     bucket_details := [] |}.

(** Python's builtin [min(a, b)]: [b] if [b < a], else [a]. *)
Definition pymin (a b : float) : float := if (b <? a)%float then b else a.

(** Lines 79 and 91-101, and 109 and 120-130: the imbalance of the
    current bucket and its entry. *)
Definition record_bucket (bucket_size : float) (idx ts start : Z)
           (st : state) : state :=
  let oi := (abs (current_bucket_net_volume st) / bucket_size)%float in
  let d := {| trade_index := idx;
              closing_timestamp := ts;
              bucket_start_trade := start;
              bucket_abs_volume := current_bucket_abs_volume st;
              bucket_net_volume := current_bucket_net_volume st;
              order_imbalance := oi;
              bucket_number := length (bucket_details st) |} in
  {| current_bucket_abs_volume := current_bucket_abs_volume st;
     current_bucket_net_volume := current_bucket_net_volume st;
     bucket_details := bucket_details st ++ [d] |}.

Definition set_current (a n : float) (st : state) : state :=
  {| current_bucket_abs_volume := a;
     current_bucket_net_volume := n;
     bucket_details := bucket_details st |}.

(** One iteration of the body of [while remaining_volume > 0]
    (lines 60-105).  Returns the new remaining volumes and the state. *)
Definition fill_step (bucket_size : float) (idx ts : Z)
           (abs_trade_volume remaining_volume remaining_net_volume : float)
           (st : state) : float * float * state :=
  let volume_needed_for_bucket :=
    (bucket_size - current_bucket_abs_volume st)%float in
  let volume_to_add := pymin remaining_volume volume_needed_for_bucket in
  let proportion := (volume_to_add / abs_trade_volume)%float in
  let net_volume_to_add := (remaining_net_volume * proportion)%float in
  let st1 :=
    set_current (current_bucket_abs_volume st + volume_to_add)%float
                (current_bucket_net_volume st + net_volume_to_add)%float
                st in
  let remaining_volume' := (remaining_volume - volume_to_add)%float in
  let remaining_net_volume' :=
    (remaining_net_volume - net_volume_to_add)%float in
  let st2 :=
    if (bucket_size <=? current_bucket_abs_volume st1)%float then
      set_current 0%float 0%float
        (record_bucket bucket_size idx ts
           (idx - Z.of_nat (length (bucket_details st1)))%Z st1)
    else st1 in
  (remaining_volume', remaining_net_volume', st2).

(** The [while] loop of one trade; [None] when [fuel] iterations did not
    bring [remaining_volume] down to zero. *)
Fixpoint fill (fuel : nat) (bucket_size : float) (idx ts : Z)
         (abs_trade_volume remaining_volume remaining_net_volume : float)
         (st : state) {struct fuel} : option state :=
  if (0 <? remaining_volume)%float then
    match fuel with
    | O => None
    | S fuel' =>
        let '(rv, rn, st') :=
          fill_step bucket_size idx ts abs_trade_volume
                    remaining_volume remaining_net_volume st in
        fill fuel' bucket_size idx ts abs_trade_volume rv rn st'
    end
  else Some st.

(** [for idx, row in df.iterrows()] (lines 51-105); every trade gets
    [fuel] iterations of its [while] loop. *)
Fixpoint stream (fuel : nat) (bucket_size : float) (idx : Z)
         (df : list row) (st : state) : option state :=
  match df with
  | [] => Some st
  | r :: rest =>
      let trade_volume := tradevolume r in
      let abs_trade_volume := abs trade_volume in
      match fill fuel bucket_size idx (timestamp r) abs_trade_volume
                 abs_trade_volume trade_volume st with
      | None => None
      | Some st' => stream fuel bucket_size (idx + 1) rest st'
      end
  end.

(** Lines 107-130: the bucket left open after the last trade. *)
Definition flush (bucket_size : float) (df : list row) (st : state)
  : state :=
  if (0 <? current_bucket_abs_volume st)%float then
    let last_idx := (Z.of_nat (length df) - 1)%Z in
    let last_ts :=
      match rev df with r :: _ => timestamp r | [] => 0%Z end in
    record_bucket bucket_size last_idx last_ts last_idx st
  else st.

(** Lines 40-130 for a given [bucket_size]. *)
Definition run (fuel : nat) (bucket_size : float) (df : list row)
  : option state :=
  match stream fuel bucket_size 0 df init with
  | None => None
  | Some st => Some (flush bucket_size df st)
  end.

Definition buckets (fuel : nat) (bucket_size : float) (df : list row)
  : option (list details) :=
  option_map bucket_details (run fuel bucket_size df).

End Vpin64.


(** ** [backtesting/scripts/fee_calculation_sim.py] *)

Module FeeSim.

Inductive exn := UnboundLocalError | ZeroDivisionError | ValueError.

Inductive result (A : Type) :=
| Ok (a : A)
| Err (e : exn).
Arguments Ok {A} a.
Arguments Err {A} e.

Definition bind {A B} (x : result A) (f : A -> result B) : result B :=
  match x with Ok a => f a | Err e => Err e end.

Notation "x <- c ;; k" := (bind c (fun x => k))
  (at level 61, c at next level, right associativity).

(** Division of two Python floats: a zero divisor raises. *)
Definition pydiv (x y : pyfloat) : result pyfloat :=
  if Float.eqb y (Fin 0) then Err ZeroDivisionError else Ok (x / y)%fl.

(** The entries of [position_params] that the fee computation reads. *)
Record position_params := {
  liquidity : pyfloat;
  sqrt_lower : pyfloat;
  sqrt_upper : pyfloat;
  lower_price : pyfloat;
  upper_price : pyfloat }.

(** The dictionary [calculate_token_amounts_at_price] returns. *)
Record position_state := {
  at_price : pyfloat;                 (* key 'price' *)
  token0 : pyfloat;
  token1 : pyfloat;
  total_value : pyfloat;
  inventory_exposure : pyfloat }.

(** A row of [self.data]: the columns the fee computation reads.
    [tradevolume] is the column of that name (the code falls back on
    [trade_volume], then on 0, when it is missing); [ILLIQ] is [None] when
    the table has no such column. *)
Record row := {
  timestamp : Z;
  price : pyfloat;
  tradevolume : pyfloat;
  ILLIQ : option pyfloat }.

(** A row of [self.vpin_data]: the closing timestamp and the three VPIN
    columns that [calculate_vpin] writes.  The other columns of the file
    are not part of the model. *)
Record vpin_row := {
  bucket_timestamp : Z;               (* column 'timestamp' *)
  vpin_daily : pyfloat;
  vpin_5day : pyfloat;
  vpin_7day : pyfloat }.

(** [self.vpin_data[vpin_type]], when [vpin_type] names one of the three
    VPIN columns.  Line 336 accepts the name of any column of the file;
    a name other than these three is outside the model, whether the file
    has such a column or not, and every property below is stated for a
    [vpin_type] with [vpin_column vpin_type = Some col]. *)
Definition vpin_column (vpin_type : string)
  : option (vpin_row -> pyfloat) :=
  if String.eqb vpin_type "vpin_daily" then Some vpin_daily
  else if String.eqb vpin_type "vpin_5day" then Some vpin_5day
  else if String.eqb vpin_type "vpin_7day" then Some vpin_7day
  else None.

(** An entry of [results]. *)
Record fee_row := {
  out_timestamp : Z;
  out_price : pyfloat;
  trade_volume : pyfloat;
  abs_trade_volume : pyfloat;
  out_ILLIQ : option pyfloat;
  vpin_used : option pyfloat;
  estimated_price_impact : pyfloat;
  expected_impermanent_loss : pyfloat;
  base_fee : pyfloat;
  vpin_fee_pct_of_volume : pyfloat;
  vpin_fee_absolute : pyfloat;
  total_fee : pyfloat;
  fee_pct_of_volume : pyfloat;
  out_inventory_exposure : pyfloat }.

(** The variables that live across the iterations of the loop over
    [self.data].  [inventory_exposure_var] is the local variable
    [inventory_exposure], [None] as long as nothing was assigned to it. *)
Record loop_state := {
  vpin_idx : nat;
  latest_vpin : option pyfloat;
  latest_illiq : option pyfloat;
  inventory_exposure_var : option pyfloat;
  results : list fee_row }.

(** Lines 364-370: the observation of the row, [None] when it is missing,
    NaN or zero. *)
Definition current_illiq (r : row) : option pyfloat :=
  match ILLIQ r with
  | Some x =>
      if Float.notna x then
        if Float.eqb x (Fin 0) then None else Some x
      else None
  | None => None
  end.

(** Lines 359-361, on the rows of the table after the cursor. *)
Fixpoint advance (col : vpin_row -> pyfloat) (next : list vpin_row)
         (t : Z) (idx : nat) (latest : option pyfloat)
  : nat * option pyfloat :=
  match next with
  | b :: next' =>
      if (bucket_timestamp b <=? t)%Z
      then advance col next' t (S idx) (Some (col b))
      else (idx, latest)
  | [] => (idx, latest)
  end.

Section WithSqrt.

(** The square root of a non-negative rational, as [math.sqrt] gives
    it. *)
Variable sqrt : Q -> Q.

Definition math_sqrt (x : pyfloat) : result pyfloat :=
  match x with
  | Fin q => if Qle_bool 0 q then Ok (Fin (sqrt q)) else Err ValueError
  | PInf => Ok PInf
  | NInf => Err ValueError
  | NaN => Ok NaN
  end.

(** Lines 225-259. *)
Definition calculate_token_amounts_at_price
           (price : pyfloat) (pp : position_params)
  : result position_state :=
  sqrt_price <- math_sqrt price ;;
  amounts <-
    (if (price <=? lower_price pp)%fl then
       t0 <- pydiv (liquidity pp * (sqrt_upper pp - sqrt_lower pp))%fl
                   (sqrt_lower pp * sqrt_upper pp)%fl ;;
       Ok (t0, Fin 0)
     else if (price >=? upper_price pp)%fl then
       Ok (Fin 0, (liquidity pp * (sqrt_upper pp - sqrt_lower pp))%fl)
     else
       t0 <- pydiv (liquidity pp * (sqrt_upper pp - sqrt_price))%fl
                   (sqrt_price * sqrt_upper pp)%fl ;;
       Ok (t0, (liquidity pp * (sqrt_price - sqrt_lower pp))%fl)) ;;
  let '(token0, token1) := amounts in
  let total_value := (token0 * price + token1)%fl in
  inventory_exposure <-
    (if (total_value >? Fin 0)%fl
     then pydiv (token0 * price)%fl total_value
     else Ok (Fin 0)) ;;
  Ok {| at_price := price;
        token0 := token0;
        token1 := token1;
        total_value := total_value;
        inventory_exposure := inventory_exposure |}.

Section Loop.
Variable position_params_ : position_params.
Variable col : vpin_row -> pyfloat.       (* the column [vpin_type] *)
Variable base_fee_pct : pyfloat.
Variable vpin_data : list vpin_row.

(** Lines 343-350. *)
Definition init : loop_state :=
  {| vpin_idx := 0;
     latest_vpin :=
       match vpin_data with b :: _ => Some (col b) | [] => None end;
     latest_illiq := None;
     inventory_exposure_var := None;
     results := [] |}.

(** Lines 372-388: the exposure, the estimated price impact and the
    expected impermanent loss. *)
Definition estimate (st : loop_state) (r : row)
  : result (option pyfloat * pyfloat * pyfloat) :=
  let abs_trade_volume := Float.abs (tradevolume r) in
  if (abs_trade_volume >? Fin 0)%fl then
    position_state <-
      calculate_token_amounts_at_price (price r) position_params_ ;;
    let inventory_exposure := inventory_exposure position_state in
    match latest_illiq st with
    | Some l =>
        let estimated_price_impact :=
          (l * abs_trade_volume / Fin 1000000)%fl in
        Ok (Some inventory_exposure, estimated_price_impact,
            (estimated_price_impact * inventory_exposure)%fl)
    | None => Ok (Some inventory_exposure, Fin 0, Fin 0)
    end
  else Ok (inventory_exposure_var st, Fin 0, Fin 0).

(** Lines 358-361: the cursor and the toxicity value once the cursor was
    moved for a row of timestamp [t]. *)
Definition cursor_at (st : loop_state) (t : Z) : nat * option pyfloat :=
  advance col (skipn (S (vpin_idx st)) vpin_data) t
          (vpin_idx st) (latest_vpin st).

(** One iteration of the loop (lines 353-429). *)
Definition step (st : loop_state) (r : row) : result loop_state :=
  let abs_trade_volume := Float.abs (tradevolume r) in
  let '(vpin_idx', latest_vpin') := cursor_at st (timestamp r) in
  let vpin_at_time := latest_vpin' in
  est <- estimate st r ;;
  let '(inventory_exposure', estimated_price_impact,
        expected_impermanent_loss) := est in
  let latest_illiq' :=
    match current_illiq r with
    | Some x => Some x
    | None => latest_illiq st
    end in
  let base_fee :=
    if (abs_trade_volume >? Fin 0)%fl
    then (base_fee_pct / Fin 100 * abs_trade_volume)%fl
    else Fin 0 in
  let vpin_fee_pct_of_volume :=
    match vpin_at_time with
    | Some v => (expected_impermanent_loss * v)%fl
    | None => Fin 0
    end in
  let vpin_fee_absolute :=
    if (abs_trade_volume >? Fin 0)%fl
    then (vpin_fee_pct_of_volume * abs_trade_volume)%fl
    else Fin 0 in
  let total_fee := (base_fee + vpin_fee_absolute)%fl in
  let fee_pct :=
    if (abs_trade_volume >? Fin 0)%fl
    then (total_fee / abs_trade_volume)%fl
    else Fin 0 in
  match inventory_exposure' with
  | None => Err UnboundLocalError       (* line 428 *)
  | Some inventory_exposure =>
      Ok {| vpin_idx := vpin_idx';
            latest_vpin := latest_vpin';
            latest_illiq := latest_illiq';
            inventory_exposure_var := Some inventory_exposure;
            results :=
              results st ++
              [ {| out_timestamp := timestamp r;
                   out_price := price r;
                   trade_volume := tradevolume r;
                   abs_trade_volume := abs_trade_volume;
                   out_ILLIQ := current_illiq r;
                   vpin_used := vpin_at_time;
                   estimated_price_impact := estimated_price_impact;
                   expected_impermanent_loss :=
                     expected_impermanent_loss;
                   base_fee := base_fee;
                   vpin_fee_pct_of_volume := vpin_fee_pct_of_volume;
                   vpin_fee_absolute := vpin_fee_absolute;
                   total_fee := total_fee;
                   fee_pct_of_volume := fee_pct;
                   out_inventory_exposure := inventory_exposure |} ]
         |}
  end.

(** [for idx, row in self.data.iterrows()]. *)
Fixpoint loop (data : list row) (st : loop_state) : result loop_state :=
  match data with
  | [] => Ok st
  | r :: data' => st' <- step st r ;; loop data' st'
  end.

End Loop.

(** Lines 318-432.  [self_vpin_data] is [None] when no VPIN table was
    loaded.  The empty frame of lines 336-339 stands here for every name
    that [vpin_column] does not know; see there. *)
Definition calculate_fees_with_vpin_full_timeseries
           (self_data : list row) (self_vpin_data : option (list vpin_row))
           (position_params_ : position_params) (vpin_type : string)
           (base_fee_pct : pyfloat) : result (list fee_row) :=
  match self_vpin_data with
  | None => Ok []
  | Some vpin_data =>
      match vpin_column vpin_type with
      | None => Ok []
      | Some col =>
          st <- loop position_params_ col base_fee_pct vpin_data
                     self_data (init col vpin_data) ;;
          Ok (results st)
      end
  end.

End WithSqrt.

End FeeSim.

(** ** [fee_calculation_sim.py]: the position and the position time series *)

Module FeeSetup.
Import FeeSim.

(** [Series.min()] and [Series.max()]: NaN entries are left out, and the
    result is NaN when nothing is left. *)
Definition series_min (l : list pyfloat) : pyfloat :=
  match filter Float.notna l with
  | [] => NaN
  | x :: xs => fold_left (fun m y => if (y <? m)%fl then y else m) xs x
  end.

Definition series_max (l : list pyfloat) : pyfloat :=
  match filter Float.notna l with
  | [] => NaN
  | x :: xs => fold_left (fun m y => if (m <? y)%fl then y else m) xs x
  end.

(** The dictionary [analyze_price_range] returns. *)
Record price_stats := {
  min_price : pyfloat;
  max_price : pyfloat;
  initial_price : pyfloat;
  mean_price : pyfloat;
  std_price : pyfloat }.

(** The dictionary [calculate_position_parameters] returns; the keys that
    [position_params] has too are prefixed. *)
Record position := {
  pos_initial_price : pyfloat;        (* key 'initial_price' *)
  pos_lower_price : pyfloat;          (* key 'lower_price' *)
  pos_upper_price : pyfloat;          (* key 'upper_price' *)
  r_factor : pyfloat;
  token0_amount : pyfloat;
  pos_liquidity : pyfloat;            (* key 'liquidity' *)
  token1_amount : pyfloat;
  pos_total_value : pyfloat;          (* key 'total_value' *)
  pos_inventory_exposure : pyfloat;   (* key 'inventory_exposure' *)
  pos_sqrt_lower : pyfloat;           (* key 'sqrt_lower' *)
  pos_sqrt_upper : pyfloat;           (* key 'sqrt_upper' *)
  sqrt_current : pyfloat }.

(** The entries that [calculate_token_amounts_at_price] reads. *)
Definition params (p : position) : position_params :=
  {| liquidity := pos_liquidity p;
     sqrt_lower := pos_sqrt_lower p;
     sqrt_upper := pos_sqrt_upper p;
     lower_price := pos_lower_price p;
     upper_price := pos_upper_price p |}.

(** An entry of [pos_records]. *)
Record pos_record := {
  rec_timestamp : Z;
  rec_price : pyfloat;
  rec_token0 : pyfloat;
  rec_token1 : pyfloat;
  rec_total_value : pyfloat;
  rec_inventory_exposure : pyfloat;
  real_price_impact : pyfloat;
  rec_estimated_price_impact : pyfloat }.

(** [tolerance = 1e-10] (line 212). *)
Definition tolerance : pyfloat := Fin (1 # 10000000000).

Section WithSqrt.
Variable sqrt : Q -> Q.

(** [np.sqrt]: NaN, not an error, for a negative value. *)
Definition np_sqrt (x : pyfloat) : pyfloat :=
  match x with
  | Fin q => if Qle_bool 0 q then Fin (sqrt q) else NaN
  | PInf => PInf
  | NInf | NaN => NaN
  end.

(** [Series.std()]: the sample standard deviation of the entries that are
    not NaN, NaN when there are fewer than two. *)
Definition series_std (l : list pyfloat) : pyfloat :=
  let l' := filter Float.notna l in
  let count := length l' in
  if (count <=? 1)%nat then NaN
  else
    let avg := (Float.sum l' / Float.of_nat count)%fl in
    let sqr := map (fun x => ((avg - x) * (avg - x))%fl) l' in
    np_sqrt (Float.sum sqr / Float.of_nat (count - 1))%fl.

(** Lines 72-94.  [None] stands for the [IndexError] that
    [self.data.iloc[0]] raises on a table without rows. *)
Definition analyze_price_range (self_data : list row)
  : option price_stats :=
  match self_data with
  | [] => None
  | first :: _ =>
      let prices := map price self_data in
      Some {| min_price := series_min prices;
              max_price := series_max prices;
              initial_price := price first;
              mean_price := Vpin.series_mean prices;
              std_price := series_std prices |}
  end.

(** Lines 96-162.  The prices are NumPy scalars and the square roots
    Python floats: the division that gives the liquidity raises on a zero
    divisor, the two others do not. *)
Definition calculate_position_parameters
           (stats : price_stats) (token0_amount buffer_factor : pyfloat)
  : result position :=
  let initial_price := initial_price stats in
  let min_price := min_price stats in
  let max_price := max_price stats in
  let lower_price := (min_price * (Fin 1 - buffer_factor))%fl in
  let upper_price := (max_price * (Fin 1 + buffer_factor))%fl in
  r_factor <- math_sqrt sqrt (upper_price / lower_price)%fl ;;
  sqrt_lower <- math_sqrt sqrt lower_price ;;
  sqrt_upper <- math_sqrt sqrt upper_price ;;
  sqrt_current <- math_sqrt sqrt initial_price ;;
  liquidity <-
    pydiv (token0_amount * (sqrt_upper * sqrt_current))%fl
          (sqrt_upper - sqrt_current)%fl ;;
  let token1_amount := (liquidity * (sqrt_current - sqrt_lower))%fl in
  let total_value := (token0_amount * initial_price + token1_amount)%fl in
  let inventory_exposure :=
    (token0_amount * initial_price / total_value)%fl in
  Ok {| pos_initial_price := initial_price;
        pos_lower_price := lower_price;
        pos_upper_price := upper_price;
        r_factor := r_factor;
        token0_amount := token0_amount;
        pos_liquidity := liquidity;
        token1_amount := token1_amount;
        pos_total_value := total_value;
        pos_inventory_exposure := inventory_exposure;
        pos_sqrt_lower := sqrt_lower;
        pos_sqrt_upper := sqrt_upper;
        sqrt_current := sqrt_current |}.

(** Lines 164-223. *)
Definition verify_position_calculations (p : position) : result bool :=
  let initial_price := pos_initial_price p in
  let token0_amount := token0_amount p in
  sqrt_lower <- math_sqrt sqrt (pos_lower_price p) ;;
  sqrt_upper <- math_sqrt sqrt (pos_upper_price p) ;;
  sqrt_current <- math_sqrt sqrt initial_price ;;
  L_calculated <-
    pydiv (token0_amount * (sqrt_upper * sqrt_current))%fl
          (sqrt_upper - sqrt_current)%fl ;;
  let token1_calculated :=
    (L_calculated * (sqrt_current - sqrt_lower))%fl in
  let total_value_calculated :=
    (token0_amount * initial_price + token1_calculated)%fl in
  let inventory_exposure_calculated :=
    (token0_amount * initial_price / total_value_calculated)%fl in
  let l_diff := Float.abs (pos_liquidity p - L_calculated)%fl in
  let token1_diff := Float.abs (token1_amount p - token1_calculated)%fl in
  let value_diff :=
    Float.abs (pos_total_value p - total_value_calculated)%fl in
  let exposure_diff :=
    Float.abs (pos_inventory_exposure p
               - inventory_exposure_calculated)%fl in
  Ok ((l_diff <? tolerance)%fl && (token1_diff <? tolerance)%fl
      && (value_diff <? tolerance)%fl && (exposure_diff <? tolerance)%fl).

(** [d['token0'] > 0 and d['token1'] > 0] (lines 308-310). *)
Definition has_both_tokens (d : position_state) : bool :=
  (token0 d >? Fin 0)%fl && (token1 d >? Fin 0)%fl.

(** Lines 261-316. *)
Definition test_position_at_extreme_prices
           (self_data : list row) (p : position) : result bool :=
  let observed_min_price := series_min (map price self_data) in
  min_test <-
    calculate_token_amounts_at_price sqrt observed_min_price (params p) ;;
  let observed_max_price := series_max (map price self_data) in
  max_test <-
    calculate_token_amounts_at_price sqrt observed_max_price (params p) ;;
  initial_test <-
    calculate_token_amounts_at_price sqrt (pos_initial_price p) (params p) ;;
  lower_bound_test <-
    calculate_token_amounts_at_price sqrt (pos_lower_price p) (params p) ;;
  upper_bound_test <-
    calculate_token_amounts_at_price sqrt (pos_upper_price p) (params p) ;;
  let is_in_range_min := has_both_tokens min_test in
  let is_in_range_max := has_both_tokens max_test in
  let is_in_range_initial := has_both_tokens initial_test in
  Ok (is_in_range_min && is_in_range_max && is_in_range_initial).

(** The loop that builds [pos_records] in
    [combine_position_and_fee_timeseries] (lines 440-479), from the rows
    that are left and the value of [latest_illiq].  A row comes with its
    entry in the column [last_price_impact], [None] when the table has no
    such column. *)
Fixpoint pos_records (pp : position_params)
         (data : list (row * option pyfloat))
         (latest_illiq : option pyfloat) : result (list pos_record) :=
  match data with
  | [] => Ok []
  | (r, last_price_impact) :: data' =>
      metrics <- calculate_token_amounts_at_price sqrt (price r) pp ;;
      let real_price_impact :=
        match last_price_impact with
        | Some x => if Float.notna x then x else Fin 0
        | None => Fin 0
        end in
      let abs_trade_volume := Float.abs (tradevolume r) in
      let estimated_price_impact :=
        if (abs_trade_volume >? Fin 0)%fl then
          match latest_illiq with
          | Some l => (l * abs_trade_volume / Fin 1000000)%fl
          | None => Fin 0
          end
        else Fin 0 in
      let latest_illiq' :=
        match current_illiq r with
        | Some x => Some x
        | None => latest_illiq
        end in
      rest <- pos_records pp data' latest_illiq' ;;
      Ok ({| rec_timestamp := timestamp r;
             rec_price := price r;
             rec_token0 := token0 metrics;
             rec_token1 := token1 metrics;
             rec_total_value := total_value metrics;
             rec_inventory_exposure := inventory_exposure metrics;
             real_price_impact := real_price_impact;
             rec_estimated_price_impact := estimated_price_impact |}
          :: rest)
  end.

(** [combine_position_and_fee_timeseries] up to the merge (lines
    439-482): the two frames that are merged. *)
Definition combine_position_and_fee_timeseries
           (self_data : list (row * option pyfloat))
           (self_vpin_data : option (list vpin_row))
           (pp : position_params) (vpin_type : string)
           (base_fee_pct : pyfloat)
  : result (list pos_record * list fee_row) :=
  pos_df <- pos_records pp self_data None ;;
  fee_df <-
    calculate_fees_with_vpin_full_timeseries
      sqrt (map fst self_data) self_vpin_data pp vpin_type base_fee_pct ;;
  Ok (pos_df, fee_df).

End WithSqrt.

End FeeSetup.

(** ** [backtesting/scripts/combine_minute_csvs.py]: the impact columns *)

Module MinuteData.

(** A row of [combined_df] once the price and the signed volume are
    computed (lines 37-58): the columns that the impact calculation reads. *)
Record minute_row := {
  timestamp : Z;
  price : pyfloat;
  tradevolume : pyfloat }.

(** The same row with the three columns that lines 64-77 add. *)
Record combined_row := {
  base : minute_row;
  last_price_impact : pyfloat;
  abs_tradevolume : pyfloat;
  ILLIQ : pyfloat }.

(** [Series.isna()]. *)
Definition isna (x : pyfloat) : bool := negb (Float.notna x).

(** Lines 64-77, row by row.  [previous_price] is the entry of
    [price.shift(1)] for the first row of [rows]: the price of the row
    before it, NaN for the first row of the frame.  A column is NaN
    outside its mask. *)
Fixpoint impact_columns (previous_price : pyfloat) (rows : list minute_row)
  : list combined_row :=
  match rows with
  | [] => []
  | r :: rest =>
      let mask_trading := Float.neb (tradevolume r) (Fin 0) in
      let last_price_impact :=
        if mask_trading
        then Float.abs (price r / previous_price - Fin 1)%fl
        else NaN in
      let mask_abs_volume := Float.neb (tradevolume r) (Fin 0) in
      let abs_tradevolume :=
        if mask_abs_volume then Float.abs (tradevolume r) else NaN in
      let mask_illiq :=
        Float.neb (tradevolume r) (Fin 0) && negb (isna last_price_impact) in
      let ILLIQ :=
        if mask_illiq
        then (last_price_impact / abs_tradevolume * Fin 1000000)%fl
        else NaN in
      {| base := r;
         last_price_impact := last_price_impact;
         abs_tradevolume := abs_tradevolume;
         ILLIQ := ILLIQ |}
      :: impact_columns (price r) rest
  end.

Definition add_impact_columns (combined_df : list minute_row)
  : list combined_row :=
  impact_columns NaN combined_df.

(** The rows as [calculate_vpin] and the fee simulator read them back from
    the file that line 80 writes. *)
Definition vpin_input (c : combined_row) : Vpin.row :=
  {| Vpin.timestamp := timestamp (base c);
     Vpin.tradevolume := tradevolume (base c);
     Vpin.abs_tradevolume := abs_tradevolume c |}.

Definition fee_input (c : combined_row) : FeeSim.row :=
  {| FeeSim.timestamp := timestamp (base c);
     FeeSim.price := price (base c);
     FeeSim.tradevolume := tradevolume (base c);
     FeeSim.ILLIQ := Some (ILLIQ c) |}.

End MinuteData.

(** ** Predicates used to state the properties of the aggregator *)

Module VpinSpec.
Import Vpin.

(** The rational a finite value stands for (0 for the special values). *)
Definition to_Q (x : pyfloat) : Q :=
  match x with Fin q => q | _ => 0 end.

Definition finite_row (r : row) : Prop :=
  Float.is_finite (tradevolume r) = true.

(** The bucket holds exactly [b]. *)
Definition full_bucket (b : Q) (d : details) : Prop :=
  (bucket_abs_volume d =~ Fin b)%fl.

(** The imbalance is [|net_volume| / b] and lies in [[0, 1]]. *)
Definition imbalance_in_unit (b : Q) (d : details) : Prop :=
  order_imbalance d = (Float.abs (bucket_net_volume d) / Fin b)%fl /\
  exists i, order_imbalance d = Fin i /\ 0 <= i <= 1.

(** What holds of the state between two iterations of the loops when the
    bucket size is the positive rational [b]. *)
Definition inv (b : Q) (st : state) : Prop :=
  exists ca cn,
    current_bucket_abs_volume st = Fin ca /\
    current_bucket_net_volume st = Fin cn /\
    0 <= ca /\ ca < b /\ Qabs cn <= ca /\
    Forall (fun d => full_bucket b d /\ imbalance_in_unit b d)
           (bucket_details st).

(** Iterations that the [while] loop of a trade of volume [v] needs at
    most, and a bound for a whole tape. *)
Definition trade_fuel (b : Q) (v : pyfloat) : nat :=
  S (Z.to_nat (Qceiling (Qabs (to_Q v) / b))).

Definition enough_fuel (b : Q) (df : list row) : nat :=
  list_max (map (fun r => trade_fuel b (tradevolume r)) df).

(** The absolute volume recorded in the buckets plus the volume in the
    open bucket, and the absolute volume traded on a tape. *)
Definition sum_Q (l : list pyfloat) : Q :=
  fold_right (fun x s => to_Q x + s) 0 l.

Definition volume_held (st : state) : Q :=
  sum_Q (map bucket_abs_volume (bucket_details st))
  + to_Q (current_bucket_abs_volume st).

Definition tape_volume (df : list row) : Q :=
  sum_Q (map (fun r => Float.abs (tradevolume r)) df).

(** The imbalances of the buckets up to and including the [k]-th. *)
Definition seen (ds : list details) (k : nat) : list pyfloat :=
  map order_imbalance (firstn (S k) ds).

(** The values reported with the [k]-th bucket are the means of the last
    50, 250 and 350 imbalances seen when it was recorded. *)
Definition reported_means (ds : list details) (k : nat) (d : details)
  : Prop :=
  vpin_daily d = np_mean (lastn sample_length_daily (seen ds k)) /\
  vpin_5day d = np_mean (lastn sample_length_5day (seen ds k)) /\
  vpin_7day d = np_mean (lastn sample_length_7day (seen ds k)).

(** A finite value of [[0, 1]]. *)
Definition in_unit (x : pyfloat) : Prop :=
  exists q, x = Fin q /\ 0 <= q <= 1.

(** Each queue holds the most recent imbalances, oldest first. *)
Definition windows_inv (st : state) : Prop :=
  let all := map order_imbalance (bucket_details st) in
  imbalances_daily st = lastn sample_length_daily all /\
  imbalances_5day st = lastn sample_length_5day all /\
  imbalances_7day st = lastn sample_length_7day all /\
  forall k d, nth_error (bucket_details st) k = Some d ->
              reported_means (bucket_details st) k d.

(** [v] is what a window of length [L] reports with the [k]-th bucket:
    the queue then holds the last [L] imbalances seen, at most [L] and at
    least one of them, and [v] is their mean, a finite value of
    [[0, 1]]. *)
Definition window_report (L : nat) (ds : list details) (k : nat)
           (v : pyfloat) : Prop :=
  let queue := lastn L (seen ds k) in
  (length queue <= L)%nat /\ queue <> [] /\ v = np_mean queue /\ in_unit v.

End VpinSpec.

(** ** Concrete tapes *)

Module Tapes.
Import Vpin.

Definition trade (ts : Z) (v : Q) : row :=
  {| timestamp := ts; tradevolume := Fin v; abs_tradevolume := Fin (Qabs v) |}.

(** Signed volumes [+30, -20, +60]. *)
Definition tape3 : list row := [trade 1 30; trade 2 (-20); trade 3 60].

(** One trade larger than a bucket of 50. *)
Definition tape60 : list row := [trade 1 60].

(** A non-zero trade whose [abs_tradevolume] column holds 0. *)
Definition tape_zero_size : list row :=
  [{| timestamp := 1; tradevolume := Fin 5; abs_tradevolume := Fin 0 |}].

(** Two rows without volume. *)
Definition tape_no_volume : list row := [trade 1 0; trade 2 0].

(** What the specification expects of [tape3] with a bucket size of 50. *)
Definition tape3_as_specified (out : list details) : Prop :=
  exists b1 b2 b3,
    out = [b1; b2; b3] /\
    (bucket_abs_volume b1 =~ Fin 50)%fl /\
    (bucket_net_volume b1 =~ Fin 10)%fl /\
    (order_imbalance b1 =~ Fin (1 # 5))%fl /\
    (bucket_abs_volume b2 =~ Fin 50)%fl /\
    (bucket_net_volume b2 =~ Fin 50)%fl /\
    (order_imbalance b2 =~ Fin 1)%fl /\
    (bucket_abs_volume b3 =~ Fin 10)%fl /\
    (bucket_net_volume b3 =~ Fin 10)%fl /\
    (order_imbalance b3 =~ Fin (1 # 5))%fl.

(** The same without the net volume and the imbalance of the last
    bucket, which holds less than the bucket size. *)
Definition tape3_first_two_and_partial (out : list details) : Prop :=
  exists b1 b2 b3,
    out = [b1; b2; b3] /\
    (bucket_abs_volume b1 =~ Fin 50)%fl /\
    (bucket_net_volume b1 =~ Fin 10)%fl /\
    (order_imbalance b1 =~ Fin (1 # 5))%fl /\
    (bucket_abs_volume b2 =~ Fin 50)%fl /\
    (bucket_net_volume b2 =~ Fin 50)%fl /\
    (order_imbalance b2 =~ Fin 1)%fl /\
    (bucket_abs_volume b3 =~ Fin 10)%fl /\
    (bucket_abs_volume b3 <? Fin 50)%fl = true.

End Tapes.

(** ** Predicates and examples for the fee estimator *)

Module FeeSpec.
Import FeeSim.

(** The trade has a positive absolute volume (line 372). *)
Definition tradeable (r : row) : bool :=
  (Float.abs (tradevolume r) >? Fin 0)%fl.

(** [v] is the value [f] gives for the last element of [pre] for which
    it gives one; [None] when it gives none. *)
Definition last_some {A B} (f : A -> option B) (pre : list A)
           (v : option B) : Prop :=
  match v with
  | Some x =>
      exists l1 a l2,
        pre = l1 ++ a :: l2 /\ f a = Some x /\
        Forall (fun a' => f a' = None) l2
  | None => Forall (fun a' => f a' = None) pre
  end.

(** [r] is the last trade of [pre] with a positive absolute volume. *)
Definition last_tradeable (pre : list row) (r : row) : Prop :=
  exists l1 l2,
    pre = l1 ++ r :: l2 /\ tradeable r = true /\
    Forall (fun r' => tradeable r' = false) l2.

(** The row [r] with another impact observation. *)
Definition with_ILLIQ (x : option pyfloat) (r : row) : row :=
  {| timestamp := timestamp r; price := price r;
     tradevolume := tradevolume r; ILLIQ := x |}.

(** The bucket [b], of index [i], is the last bucket of [table] that
    closed at [t] or before. *)
Definition last_closed (table : list vpin_row) (t : Z) (i : nat)
           (b : vpin_row) : Prop :=
  nth_error table i = Some b /\ (bucket_timestamp b <= t)%Z /\
  forall j b', (i < j)%nat -> nth_error table j = Some b' ->
               (t < bucket_timestamp b')%Z.

(** Every bucket of [table] closes after [t]. *)
Definition none_closed (table : list vpin_row) (t : Z) : Prop :=
  Forall (fun b => (t < bucket_timestamp b)%Z) table.

(** The toxicity value of a trade of timestamp [t], as the specification
    has it: the value of the last bucket closed at [t] or before, and no
    value when no bucket is closed yet. *)
Definition toxicity_as_specified (col : vpin_row -> pyfloat)
           (table : list vpin_row) (t : Z) (v : option pyfloat) : Prop :=
  (exists i b, last_closed table t i b /\ v = Some (col b)) \/
  (none_closed table t /\ v = None).

(** The same, except that a trade that precedes every bucket gets the
    value of the first bucket of the table (none when the table is
    empty). *)
Definition toxicity_at (col : vpin_row -> pyfloat)
           (table : list vpin_row) (t : Z) (v : option pyfloat) : Prop :=
  (exists i b, last_closed table t i b /\ v = Some (col b)) \/
  (none_closed table t /\ v = option_map col (head table)).

(** What the cursor satisfies after the rows [pre]. *)
Definition cursor_inv (col : vpin_row -> pyfloat) (table : list vpin_row)
           (pre : list row) (st : loop_state) : Prop :=
  latest_vpin st = option_map col (nth_error table (vpin_idx st)) /\
  (vpin_idx st = 0%nat \/ (vpin_idx st < length table)%nat) /\
  forall t,
    Forall (fun r => (timestamp r <= t)%Z) pre ->
    forall j b, (1 <= j <= vpin_idx st)%nat -> nth_error table j = Some b ->
                (bucket_timestamp b <= t)%Z.

(** A square root that is exact on the squares of rationals. *)
Definition sqrt_exact (q : Q) : Q :=
  Qmake (Z.sqrt (Qnum q)) (Pos.sqrt (Qden q)).

(** A position between the prices 1/4 and 16 with liquidity 1: at the
    price 4 it holds 1/4 of token0 and 3/2 of token1, an exposure of
    0.4. *)
Definition position_example : position_params :=
  {| liquidity := Fin 1;
     sqrt_lower := Fin (1 # 2);
     sqrt_upper := Fin 4;
     lower_price := Fin (1 # 4);
     upper_price := Fin 16 |}.

Definition trade (ts : Z) (v : Q) (illiq : option pyfloat) : row :=
  {| timestamp := ts; price := Fin 4; tradevolume := Fin v;
     ILLIQ := illiq |}.

(** The state after a first trade of volume 1 that carried no impact
    observation, with a table of one bucket closed at time 0. *)
Definition state_after_one_trade : loop_state :=
  {| vpin_idx := 0;
     latest_vpin := Some (Fin (3 # 10));
     latest_illiq := None;
     inventory_exposure_var := Some (Fin (4 # 10));
     results := [] |}.

(** The same when the first trade carried the observation 1,000,000. *)
Definition state_with_impact : loop_state :=
  {| vpin_idx := 0;
     latest_vpin := Some (Fin (3 # 10));
     latest_illiq := Some (Fin 1000000);
     inventory_exposure_var := Some (Fin (4 # 10));
     results := [] |}.

Definition bucket (ts : Z) (v : Q) : vpin_row :=
  {| bucket_timestamp := ts; vpin_daily := Fin v; vpin_5day := Fin v;
     vpin_7day := Fin v |}.

End FeeSpec.

(** ** Further predicates on the aggregator *)

Module VpinMore.
Import Vpin VpinSpec.

(** The bucket was recorded while the trade of index [trade_index d] of
    [df] was processed, and carries the timestamp of that trade. *)
Definition closes_at (df : list row) (d : details) : Prop :=
  (0 <= trade_index d)%Z /\
  exists r, nth_error df (Z.to_nat (trade_index d)) = Some r /\
            closing_timestamp d = timestamp r.

(** What the entries of [bucket_details] satisfy while the trades of [df]
    up to the index [bound] are processed. *)
Definition meta_inv (df : list row) (bound : Z) (st : state) : Prop :=
  Forall (fun d => closes_at df d /\ (trade_index d <= bound)%Z)
         (bucket_details st) /\
  StronglySorted Z.le (map trade_index (bucket_details st)) /\
  (forall k d, nth_error (bucket_details st) k = Some d ->
               bucket_number d = k).

End VpinMore.

(** ** Further predicates on the fee estimator *)

Module FeeMore.
Import FeeSim FeeSpec.

(** When the trade has a positive volume, the position can be computed at
    its price. *)
Definition priced (sqrt : Q -> Q) (pp : position_params) (r : row) : Prop :=
  tradeable r = true ->
  exists ps, calculate_token_amounts_at_price sqrt (price r) pp = Ok ps.

(** The first row, if any, has a positive volume. *)
Definition starts_with_a_trade (data : list row) : Prop :=
  match data with
  | [] => True
  | r :: _ => tradeable r = true
  end.

(** [idxs] gives, for each row of [data], the position in [table] of the
    bucket whose value the row of [outs] reports (no value when the table
    is empty): the positions never decrease, and the bucket that follows
    the one used for a row, if there is one, closes after that row. *)
Definition cursor_trace (col : vpin_row -> pyfloat) (table : list vpin_row)
           (data : list row) (outs : list fee_row) (idxs : list nat)
  : Prop :=
  length idxs = length data /\
  StronglySorted le idxs /\
  Forall (fun i => i = 0%nat \/ (i < length table)%nat) idxs /\
  Forall2 (fun i o => vpin_used o = option_map col (nth_error table i))
          idxs outs /\
  Forall2 (fun i r => forall b, nth_error table (S i) = Some b ->
                                (timestamp r < bucket_timestamp b)%Z)
          idxs data.

End FeeMore.

(** ** Predicates and examples for the position *)

Module SetupSpec.
Import FeeSim FeeSpec FeeSetup.

(** The position can be computed at the price of the row. *)
Definition priceable (sqrt : Q -> Q) (pp : position_params)
           (x : row * option pyfloat) : Prop :=
  exists ps, calculate_token_amounts_at_price sqrt (price (fst x)) pp = Ok ps.

(** The entries of the two frames for the row [x]: the keys of the merge
    and the estimated impact are the same in both; the position entry
    holds the position at the price of the row, and an actual impact that
    is not NaN; the exposure of the fee entry is that of the position
    entry when the row has a positive volume. *)
Definition rows_agree (sqrt : Q -> Q) (pp : position_params)
           (x : row * option pyfloat) (pr : pos_record) (o : fee_row)
  : Prop :=
  rec_timestamp pr = timestamp (fst x) /\
  out_timestamp o = timestamp (fst x) /\
  rec_price pr = price (fst x) /\ out_price o = price (fst x) /\
  rec_estimated_price_impact pr = estimated_price_impact o /\
  (exists ps,
      calculate_token_amounts_at_price sqrt (price (fst x)) pp = Ok ps /\
      rec_token0 pr = token0 ps /\ rec_token1 pr = token1 ps /\
      rec_total_value pr = total_value ps /\
      rec_inventory_exposure pr = inventory_exposure ps) /\
  real_price_impact pr <> NaN /\
  (tradeable (fst x) = true ->
   out_inventory_exposure o = rec_inventory_exposure pr).

Definition trade_at (ts : Z) (p v : Q) (illiq : option pyfloat) : row :=
  {| timestamp := ts; price := Fin p; tradevolume := Fin v;
     ILLIQ := illiq |}.

(** Three trades at the prices 4, 1 and 25. *)
Definition data_range : list row :=
  [trade_at 0 4 1 None; trade_at 1 1 (-2) None; trade_at 2 25 3 None].

(** A trade, a row without volume that carries an observation, and a
    trade, with their entries in the column [last_price_impact]. *)
Definition data_impact : list (row * option pyfloat) :=
  [ (trade 0 1 (Some (Fin 1000000)), Some (Fin (1 # 100)));
    (trade 3 0 (Some (Fin 2000000)), Some NaN);
    (trade 5 (-10) None, None) ].

Definition table_example : list vpin_row :=
  [bucket 0 (3 # 10); bucket 5 (6 # 10); bucket 9 (9 # 10)].

(** The statistics of [data_range], with a mean and a deviation that the
    position does not depend on. *)
Definition stats_range : price_stats :=
  {| min_price := Fin 1; max_price := Fin 25; initial_price := Fin 4;
     mean_price := Fin 10; std_price := Fin 13 |}.

(** A trade at the price 4, then one at the price 0. *)
Definition data_zero_price : list row :=
  [trade_at 0 4 1 None; trade_at 1 0 2 None].

End SetupSpec.

(** ** Predicates and examples for the impact columns *)

Module MinuteSpec.
Import MinuteData.

(** The entry of [price.shift(1)] for the [k]-th row: the price of the row
    before it, NaN for the first row. *)
Definition price_before (rows : list minute_row) (k : nat) : pyfloat :=
  match k with
  | O => NaN
  | S k' =>
      match nth_error rows k' with
      | Some r => price r
      | None => NaN
      end
  end.

Definition minute (ts : Z) (p v : Q) : minute_row :=
  {| timestamp := ts; price := Fin p; tradevolume := Fin v |}.

(** A first trade, a trade that moves the price from 4 to 5, a minute
    without volume, and a trade on the next day that moves the price back
    to 4. *)
Definition minutes_example : list minute_row :=
  [minute 0 4 1; minute 60 5 (-2); minute 120 5 0; minute 86460 4 10].

End MinuteSpec.
(** ** Predicates used to state the properties of the binary64 pass *)

Module Vpin64Spec.
Import PrimFloat Vpin64.

#[local] Set Warnings "-inexact-float".





(** The imbalance lies in [[0, 1]]. *)
Definition imbalance_in_unit (d : details) : Prop :=
  (0 <=? order_imbalance d)%float = true /\
  (order_imbalance d <=? 1)%float = true.

Definition trade (ts : Z) (v : float) : row :=
  {| timestamp := ts; tradevolume := v |}.



(** One buy of 1, for a bucket size of 1e-20. *)
Definition tape_unit_buy : list row := [trade 1 1].

End Vpin64Spec.

(** [evaluate t as E] adds the equation [E : t = v] where [v] is the value
    of the closed term [t]. *)
Ltac evaluate t E :=
  let v := eval vm_compute in t in
  assert (E : t = v) by (vm_compute; reflexivity).

Tactic Notation "evaluate" constr(t) "as" ident(E) := evaluate t E.

(** Decides a closed comparison of rationals. *)
Ltac qcmp := vm_compute; first [reflexivity | discriminate].

(** ** Facts on the extended rationals *)

Module FloatFacts.

Lemma ltb_fin (a b : Q) : Float.ltb (Fin a) (Fin b) = true <-> a < b.
Proof.
  unfold Float.ltb; cbn [Float.cmp]. rewrite Qlt_alt.
  destruct (a ?= b); split; congruence.
Qed.

Lemma ltb_fin_false (a b : Q) : Float.ltb (Fin a) (Fin b) = false <-> b <= a.
Proof.
  rewrite <- Bool.not_true_iff_false, ltb_fin. split.
  - apply Qnot_lt_le.
  - apply Qle_not_lt.
Qed.

Lemma leb_fin (a b : Q) : Float.leb (Fin a) (Fin b) = true <-> a <= b.
Proof.
  unfold Float.leb; cbn [Float.cmp]. rewrite Qle_alt.
  destruct (a ?= b); split; congruence.
Qed.

Lemma leb_fin_false (a b : Q) : Float.leb (Fin a) (Fin b) = false <-> b < a.
Proof.
  rewrite <- Bool.not_true_iff_false, leb_fin. split.
  - apply Qnot_le_lt.
  - apply Qlt_not_le.
Qed.

Lemma div_fin (a b : Q) :
  ~ b == 0 -> Float.div (Fin a) (Fin b) = Fin (a / b).
Proof.
  intros Hb. cbn [Float.div].
  destruct (Qeq_bool b 0) eqn:E; [|reflexivity].
  apply Qeq_bool_iff in E. contradiction.
Qed.

Lemma feq_refl (x : pyfloat) : Float.eq x x.
Proof. destruct x; cbn; auto with qarith. Qed.

End FloatFacts.


(** ** The aggregator with a positive, finite bucket size *)

Module VpinProofs.
Import Vpin VpinSpec FloatFacts.

Lemma inject_succ_Q (n : nat) :
  inject_Z (Z.of_nat (S n)) == inject_Z (Z.of_nat n) + 1.
Proof.
  rewrite Nat2Z.inj_succ. unfold Z.succ. rewrite inject_Z_plus.
  reflexivity.
Qed.

Lemma proportion_bounds (a take rn : Q) :
  0 < a -> 0 <= take -> take <= a -> Qabs rn <= a ->
  Qabs (rn * (take / a)) <= take /\ Qabs (rn - rn * (take / a)) <= a.
Proof.
  intros Ha Ht0 Ht1 Hrn.
  assert (Hp : (take / a) * a == take) by (field; lra).
  set (p := take / a) in *.
  assert (Hp0 : 0 <= p) by nra.
  assert (Hp1 : p <= 1) by nra.
  apply Qabs_Qle_condition in Hrn. destruct Hrn as [Hl Hu].
  split; apply Qabs_Qle_condition; split; nra.
Qed.

(** *** Lists: the last [n] elements and the bounded queue *)

Lemma skipn_tl {A} (n : nat) (l : list A) : tl (skipn n l) = skipn (S n) l.
Proof.
  revert l. induction n as [|n IH]; intros [|a l]; try reflexivity.
  rewrite !skipn_cons. apply IH.
Qed.

Lemma lastn_length {A} (n : nat) (l : list A) :
  length (lastn n l) = Nat.min n (length l).
Proof. unfold lastn. rewrite length_skipn. lia. Qed.

Lemma lastn_nonempty {A} (n : nat) (l : list A) :
  (0 < n)%nat -> l <> [] -> lastn n l <> [].
Proof.
  intros Hn Hl E. apply (f_equal (@length A)) in E.
  rewrite lastn_length in E. destruct l; [congruence|].
  cbn [length] in E. lia.
Qed.

Lemma push_window_lastn (L : nat) (l : list pyfloat) (x : pyfloat) :
  push_window L (lastn L l) x = lastn L (l ++ [x]).
Proof.
  unfold push_window.
  rewrite length_app, lastn_length. cbn [length].
  unfold lastn. rewrite length_app. cbn [length].
  destruct (Nat.ltb_spec L (Nat.min L (length l) + 1)) as [Hlt|Hge].
  - assert (Hl : (L <= length l)%nat) by lia.
    rewrite skipn_app.
    destruct (Nat.eq_dec L 0) as [->|HL].
    + rewrite Nat.sub_0_r.
      rewrite (skipn_all2 (n := length l + 1 - 0)) by lia.
      rewrite skipn_all. cbn [app tl].
      replace (length l + 1 - 0 - length l)%nat with 1%nat by lia.
      reflexivity.
    + replace (length l + 1 - L - length l)%nat with 0%nat by lia.
      cbn [skipn].
      replace (length l + 1 - L)%nat with (S (length l - L)) by lia.
      rewrite <- skipn_tl.
      destruct (skipn (length l - L) l) as [|a t] eqn:E; [|reflexivity].
      apply (f_equal (@length pyfloat)) in E.
      rewrite length_skipn in E. cbn [length] in E. lia.
  - replace (length l - L)%nat with 0%nat by lia.
    replace (length l + 1 - L)%nat with 0%nat by lia.
    reflexivity.
Qed.

Lemma fill_unfold fuel B idx ts a rv rn st :
  fill fuel B idx ts a rv rn st =
  if (rv >? Fin 0)%fl then
    match fuel with
    | O => None
    | S fuel' =>
        let '(rv', rn', st') := fill_step B idx ts a rv rn st in
        fill fuel' B idx ts a rv' rn' st'
    end
  else Some st.
Proof. destruct fuel; reflexivity. Qed.

Lemma window_value_push (L : nat) (q : list pyfloat) (x : pyfloat) :
  (0 < L)%nat ->
  window_value (push_window L q x) = np_mean (push_window L q x).
Proof.
  intros HL. unfold window_value.
  destruct (Nat.ltb_spec 0 (length (push_window L q x))) as [|Hz];
    [reflexivity|].
  exfalso. revert Hz. unfold push_window.
  destruct (Nat.ltb_spec L (length (q ++ [x]))) as [Hlt|Hge];
    rewrite length_app in *; cbn [length] in *.
  - destruct q as [|y q]; cbn [app tl length] in *; [lia|].
    rewrite length_app. cbn [length]. lia.
  - lia.
Qed.

(** *** The three windows, for any bucket size *)

Lemma seen_app_old (ds : list details) (d : details) (k : nat) :
  (k < length ds)%nat -> seen (ds ++ [d]) k = seen ds k.
Proof.
  intros Hk. unfold seen. rewrite firstn_app.
  replace (S k - length ds)%nat with 0%nat by lia.
  cbn [firstn]. rewrite app_nil_r. reflexivity.
Qed.

Lemma seen_app_new (ds : list details) (d : details) :
  seen (ds ++ [d]) (length ds)
  = map order_imbalance ds ++ [order_imbalance d].
Proof.
  unfold seen. rewrite firstn_all2 by (rewrite last_length; lia).
  rewrite map_app. reflexivity.
Qed.

Lemma record_bucket_windows B idx ts start st :
  windows_inv st -> windows_inv (record_bucket B idx ts start st).
Proof.
  intros (Hd & H5 & H7 & Hrep).
  unfold windows_inv.
  cbn [record_bucket imbalances_daily imbalances_5day imbalances_7day
       bucket_details].
  rewrite map_app. cbn [map order_imbalance].
  rewrite Hd, H5, H7, !push_window_lastn.
  repeat (split; [reflexivity|]).
  intros k d' Hk.
  destruct (Nat.lt_ge_cases k (length (bucket_details st))) as [Hlt|Hge].
  - rewrite nth_error_app1 in Hk by exact Hlt.
    unfold reported_means. rewrite seen_app_old by exact Hlt.
    apply Hrep. exact Hk.
  - rewrite nth_error_app2 in Hk by exact Hge.
    destruct (k - length (bucket_details st))%nat as [|m] eqn:Ek;
      [|destruct m; discriminate Hk].
    assert (k = length (bucket_details st)) by lia. subst k.
    cbn [nth_error] in Hk. injection Hk as <-.
    unfold reported_means. rewrite seen_app_new.
    cbn [vpin_daily vpin_5day vpin_7day order_imbalance].
    rewrite <- !push_window_lastn.
    rewrite !window_value_push
      by (unfold sample_length_daily, sample_length_5day,
          sample_length_7day; lia).
    auto.
Qed.

Lemma set_current_windows a n st :
  windows_inv st -> windows_inv (set_current a n st).
Proof. intros H. exact H. Qed.

Lemma fill_step_windows B idx ts a rv rn st :
  windows_inv st ->
  windows_inv (snd (fill_step B idx ts a rv rn st)).
Proof.
  intros H. unfold fill_step. cbn [snd].
  match goal with |- context [if ?c then _ else _] => destruct c end.
  - apply set_current_windows, record_bucket_windows,
      set_current_windows, H.
  - apply set_current_windows, H.
Qed.

Lemma fill_windows B idx ts a :
  forall fuel rv rn st st',
    windows_inv st -> fill fuel B idx ts a rv rn st = Some st' ->
    windows_inv st'.
Proof.
  induction fuel as [|fuel IH]; intros rv rn st st' H;
    rewrite fill_unfold; destruct (Float.gtb rv (Fin 0));
    try discriminate; try (intros [= <-]; exact H).
  pose proof (fill_step_windows B idx ts a rv rn st H) as Hs.
  destruct (fill_step B idx ts a rv rn st) as [[rv' rn'] st1].
  apply IH. exact Hs.
Qed.

Lemma stream_windows fuel B :
  forall df idx st st',
    windows_inv st -> stream fuel B idx df st = Some st' -> windows_inv st'.
Proof.
  induction df as [|r df IH]; intros idx st st' H; cbn [stream].
  - intros [= <-]. exact H.
  - destruct (fill fuel B idx (timestamp r) (Float.abs (tradevolume r))
                   (Float.abs (tradevolume r)) (tradevolume r) st)
      as [st1|] eqn:E; [|discriminate].
    apply IH. eapply fill_windows; eassumption.
Qed.

Lemma windows_init : windows_inv init.
Proof.
  unfold windows_inv. cbn [init imbalances_daily imbalances_5day
                           imbalances_7day bucket_details map].
  repeat (split; [reflexivity|]).
  intros [|k] d; discriminate.
Qed.

(** Whenever the pass ends, for any bucket size, the queues hold the most
    recent imbalances and every bucket reports their means. *)
Lemma run_windows fuel B df st :
  run fuel B df = Some st -> windows_inv st.
Proof.
  unfold run.
  destruct (stream fuel B 0 df init) as [st1|] eqn:E; [|discriminate].
  intros [= <-]. unfold flush.
  pose proof (stream_windows _ _ _ _ _ _ windows_init E) as H.
  destruct (Float.gtb (current_bucket_abs_volume st1) (Fin 0)).
  - apply record_bucket_windows, H.
  - exact H.
Qed.


Section PositiveBucketSize.
Variable b : Q.
Hypothesis b_pos : 0 < b.

Lemma inv_intro st ca cn :
  current_bucket_abs_volume st = Fin ca ->
  current_bucket_net_volume st = Fin cn ->
  0 <= ca -> ca < b -> Qabs cn <= ca ->
  Forall (fun d => full_bucket b d /\ imbalance_in_unit b d)
         (bucket_details st) ->
  inv b st.
Proof. intros. exists ca, cn. auto 10. Qed.

(** The imbalance recorded for a bucket whose net volume is bounded by
    a volume of at most [b]. *)
Lemma recorded_bucket_ok idx ts start st x n :
  current_bucket_abs_volume st = Fin x ->
  current_bucket_net_volume st = Fin n ->
  Qabs n <= x -> x <= b ->
  exists d,
    bucket_details (record_bucket (Fin b) idx ts start st)
    = bucket_details st ++ [d] /\
    bucket_abs_volume d = Fin x /\
    imbalance_in_unit b d.
Proof.
  intros Hx Hn Hnx Hxb.
  assert (Hb0 : ~ b == 0) by lra.
  eexists. split; [reflexivity|].
  unfold imbalance_in_unit.
  cbn [bucket_abs_volume bucket_net_volume order_imbalance].
  rewrite Hx, Hn. cbn [Float.abs]. rewrite (div_fin _ _ Hb0).
  split; [reflexivity|]. split; [reflexivity|].
  eexists. split; [reflexivity|].
  pose proof (Qabs_nonneg n) as Hn0.
  split.
  - apply Qle_shift_div_l; lra.
  - apply Qle_shift_div_r; lra.
Qed.

Lemma close_bucket_inv idx ts start st x n :
  Forall (fun d => full_bucket b d /\ imbalance_in_unit b d)
         (bucket_details st) ->
  current_bucket_abs_volume st = Fin x ->
  current_bucket_net_volume st = Fin n ->
  Qabs n <= x -> x == b ->
  inv b (set_current (Fin 0) (Fin 0)
                     (record_bucket (Fin b) idx ts start st)).
Proof.
  intros Hall Hx Hn Hnx Hxb.
  destruct (recorded_bucket_ok idx ts start st x n Hx Hn Hnx)
    as (d & Hd & Habs & Himb); [lra|].
  apply (inv_intro _ 0 0); try reflexivity; try lra.
  - change (Qabs 0) with 0. lra.
  - cbn [set_current bucket_details]. rewrite Hd.
    apply Forall_app. split; [exact Hall|].
    constructor; [|constructor]. split; [|exact Himb].
    unfold full_bucket. rewrite Habs. exact Hxb.
Qed.

(** One iteration keeps the invariant, and either exhausts the trade or
    closes a bucket, taking [b] off what the trade and the open bucket
    hold together. *)
Lemma fill_step_inv idx ts (a rem rn : Q) (st : state) :
  inv b st -> 0 < rem -> rem <= a -> Qabs rn <= a ->
  exists rem' rn' st',
    fill_step (Fin b) idx ts (Fin a) (Fin rem) (Fin rn) st
    = (Fin rem', Fin rn', st') /\
    inv b st' /\ 0 <= rem' /\ rem' <= a /\ Qabs rn' <= a /\
    (rem' == 0 \/
     rem' + to_Q (current_bucket_abs_volume st') + b
     <= rem + to_Q (current_bucket_abs_volume st)).
Proof.
  intros (ca & cn & Hca & Hcn & Hca0 & Hcab & Hnet & Hall) Hrem Hra Hrn.
  assert (Ha : 0 < a) by lra.
  assert (Ha0 : ~ a == 0) by lra.
  unfold fill_step. rewrite Hca, Hcn.
  unfold Float.min, Float.sub. cbn [Float.neg Float.add].
  destruct (Float.ltb (Fin (b + - ca)) (Fin rem)) eqn:Emin.
  - (* the bucket takes what it still needs and closes *)
    apply ltb_fin in Emin.
    rewrite (div_fin _ _ Ha0).
    cbn [Float.mul Float.add Float.neg set_current
         current_bucket_abs_volume current_bucket_net_volume].
    assert (Eclose : Float.geb (Fin (ca + (b + - ca))) (Fin b) = true)
      by (apply leb_fin; lra).
    rewrite Eclose.
    destruct (proportion_bounds a (b + - ca) rn) as [Hadd Hleft];
      try lra.
    do 3 eexists. split; [reflexivity|].
    split; [|split; [|split; [|split]]].
    + eapply close_bucket_inv; try reflexivity.
      * exact Hall.
      * eapply Qle_trans; [apply Qabs_triangle|]. lra.
      * lra.
    + lra.
    + lra.
    + exact Hleft.
    + right. cbn [set_current current_bucket_abs_volume to_Q]. lra.
  - (* the trade is exhausted *)
    apply ltb_fin_false in Emin.
    rewrite (div_fin _ _ Ha0).
    cbn [Float.mul Float.add Float.neg set_current
         current_bucket_abs_volume current_bucket_net_volume].
    destruct (proportion_bounds a rem rn) as [Hadd Hleft]; try lra.
    assert (Hn : Qabs (cn + rn * (rem / a)) <= ca + rem).
    { eapply Qle_trans; [apply Qabs_triangle|]. lra. }
    destruct (Float.geb (Fin (ca + rem)) (Fin b)) eqn:Eclose.
    + apply leb_fin in Eclose.
      do 3 eexists. split; [reflexivity|].
      split; [|split; [|split; [|split]]].
      * eapply close_bucket_inv; try reflexivity.
        -- exact Hall.
        -- exact Hn.
        -- lra.
      * lra.
      * lra.
      * exact Hleft.
      * left. lra.
    + apply leb_fin_false in Eclose.
      do 3 eexists. split; [reflexivity|].
      split; [|split; [|split; [|split]]].
      * apply (inv_intro _ (ca + rem) (cn + rn * (rem / a)));
          try reflexivity; try lra; assumption.
      * lra.
      * lra.
      * exact Hleft.
      * left. lra.
Qed.

Lemma inv_cur_nonneg st :
  inv b st -> 0 <= to_Q (current_bucket_abs_volume st) /\
              to_Q (current_bucket_abs_volume st) < b.
Proof.
  intros (ca & cn & Hca & _ & H0 & Hb & _). rewrite Hca. cbn. auto.
Qed.

(** The loop of one trade ends within [fuel] iterations as soon as
    [fuel] buckets hold more than the trade and the open bucket. *)
Lemma fill_inv idx ts (a : Q) :
  forall fuel (rem rn : Q) (st : state),
    inv b st -> 0 <= rem -> rem <= a -> Qabs rn <= a ->
    rem + to_Q (current_bucket_abs_volume st)
    < inject_Z (Z.of_nat fuel) * b ->
    exists st',
      fill fuel (Fin b) idx ts (Fin a) (Fin rem) (Fin rn) st = Some st' /\
      inv b st'.
Proof.
  induction fuel as [|fuel IH]; intros rem rn st Hinv Hr0 Hra Hrn Hfuel;
    rewrite fill_unfold; unfold Float.gtb;
    destruct (Float.ltb (Fin 0) (Fin rem)) eqn:Epos;
    try (exists st; split; [reflexivity|exact Hinv]).
  - apply ltb_fin in Epos.
    destruct (inv_cur_nonneg st Hinv) as [Hc0 _].
    change (inject_Z (Z.of_nat 0)) with 0 in Hfuel. lra.
  - apply ltb_fin in Epos.
    destruct (fill_step_inv idx ts a rem rn st Hinv Epos Hra Hrn)
      as (rem' & rn' & st' & Hstep & Hinv' & Hr0' & Hra' & Hrn' & Hdec).
    rewrite Hstep.
    destruct Hdec as [Hz|Hdec].
    + rewrite fill_unfold. unfold Float.gtb.
      assert (E : Float.ltb (Fin 0) (Fin rem') = false)
        by (apply ltb_fin_false; lra).
      rewrite E. exists st'. split; [reflexivity|exact Hinv'].
    + apply IH; try assumption.
      rewrite inject_succ_Q in Hfuel. lra.
Qed.

Lemma trade_fuel_enough (v : Q) (fuel : nat) :
  (trade_fuel b (Fin v) <= fuel)%nat ->
  Qabs v + b <= inject_Z (Z.of_nat fuel) * b.
Proof.
  unfold trade_fuel. cbn [to_Q]. intros Hfuel.
  set (x := Qabs v / b) in *.
  assert (Hx : x * b == Qabs v) by (unfold x; field; lra).
  pose proof (Qabs_nonneg v) as Hv.
  assert (Hx0 : 0 <= x) by (unfold x; apply Qle_shift_div_l; lra).
  pose proof (Qle_ceiling x) as Hc.
  assert (Hc0 : (0 <= Qceiling x)%Z).
  { change 0%Z with (Qceiling 0). apply Qceiling_resp_le. exact Hx0. }
  assert (Hz : (Qceiling x + 1 <= Z.of_nat fuel)%Z) by lia.
  assert (Hq : inject_Z (Qceiling x) + 1 <= inject_Z (Z.of_nat fuel)).
  { change 1 with (inject_Z 1). rewrite <- inject_Z_plus.
    rewrite <- Zle_Qle. exact Hz. }
  nra.
Qed.

Lemma stream_inv (fuel : nat) :
  forall (df : list row) (idx : Z) (st : state),
    inv b st -> Forall finite_row df ->
    (enough_fuel b df <= fuel)%nat ->
    exists st', stream fuel (Fin b) idx df st = Some st' /\ inv b st'.
Proof.
  induction df as [|r df IH]; intros idx st Hinv Hfin Hfuel.
  - exists st. split; [reflexivity|exact Hinv].
  - inversion Hfin as [|? ? Hr Hrest]; subst.
    unfold enough_fuel in Hfuel. cbn [map list_max fold_right] in Hfuel.
    fold (list_max (map (fun r => trade_fuel b (tradevolume r)) df))
      in Hfuel.
    fold (enough_fuel b df) in Hfuel.
    unfold finite_row in Hr.
    destruct (tradevolume r) as [v| | |] eqn:Ev; try discriminate Hr.
    cbn [stream]. rewrite Ev. cbn [Float.abs].
    destruct (inv_cur_nonneg st Hinv) as [Hc0 Hcb].
    pose proof (Qabs_nonneg v) as Hv.
    destruct (fill_inv idx (timestamp r) (Qabs v) fuel (Qabs v) v st)
      as (st' & Hfill & Hinv'); try assumption; try lra.
    + pose proof (trade_fuel_enough v fuel) as He.
      assert (Hle : (trade_fuel b (Fin v) <= fuel)%nat) by lia.
      specialize (He Hle). lra.
    + rewrite Hfill. apply IH; try assumption. lia.
Qed.

(** After the last trade: the buckets closed so far are full, and the
    one left open, if any, is recorded with an imbalance in [[0, 1]]. *)
Lemma flush_inv (df : list row) (st : state) :
  inv b st ->
  Forall (full_bucket b) (removelast (bucket_details (flush (Fin b) df st)))
  /\ Forall (imbalance_in_unit b) (bucket_details (flush (Fin b) df st)).
Proof.
  intros (ca & cn & Hca & Hcn & Hca0 & Hcab & Hnet & Hall).
  assert (Hfull : Forall (full_bucket b) (bucket_details st)).
  { eapply Forall_impl; [|exact Hall]. cbn. tauto. }
  assert (Himb : Forall (imbalance_in_unit b) (bucket_details st)).
  { eapply Forall_impl; [|exact Hall]. cbn. tauto. }
  unfold flush.
  destruct (Float.gtb (current_bucket_abs_volume st) (Fin 0)).
  - destruct (recorded_bucket_ok
                (Z.of_nat (length df) - 1)
                (match rev df with r :: _ => timestamp r | [] => 0%Z end)
                (Z.of_nat (length df) - 1) st ca cn Hca Hcn Hnet)
      as (d & Hd & _ & Hdi); [lra|].
    rewrite Hd. split.
    + rewrite removelast_last. exact Hfull.
    + apply Forall_app. split; [exact Himb|]. constructor; auto.
  - split; [|exact Himb].
    apply Forall_forall. intros d Hin.
    rewrite Forall_forall in Hfull. apply Hfull.
    destruct (bucket_details st) as [|d0 l]; [contradiction|].
    rewrite (app_removelast_last d0 (l := d0 :: l)) by discriminate.
    apply in_or_app. left. exact Hin.
Qed.

Lemma inv_init : inv b init.
Proof.
  apply (inv_intro _ 0 0); try reflexivity; try lra.
  - change (Qabs 0) with 0. lra.
  - constructor.
Qed.

Lemma run_inv (fuel : nat) (df : list row) :
  Forall finite_row df -> (enough_fuel b df <= fuel)%nat ->
  exists st,
    stream fuel (Fin b) 0 df init = Some st /\ inv b st /\
    run fuel (Fin b) df = Some (flush (Fin b) df st).
Proof.
  intros Hfin Hfuel.
  destruct (stream_inv fuel df 0%Z init inv_init Hfin Hfuel)
    as (st & Hst & Hinv).
  exists st. unfold run. rewrite Hst. auto.
Qed.

End PositiveBucketSize.

(** *** Means of values of [[0, 1]] *)

Lemma Forall_skipn {A} (P : A -> Prop) (n : nat) (l : list A) :
  Forall P l -> Forall P (skipn n l).
Proof.
  intros H. rewrite <- (firstn_skipn n l) in H.
  apply Forall_app in H. tauto.
Qed.

Lemma Forall_firstn {A} (P : A -> Prop) (n : nat) (l : list A) :
  Forall P l -> Forall P (firstn n l).
Proof.
  intros H. rewrite <- (firstn_skipn n l) in H.
  apply Forall_app in H. tauto.
Qed.

Lemma sum_in_unit (l : list pyfloat) :
  Forall in_unit l ->
  forall acc, exists s,
    fold_left Float.add l (Fin acc) = Fin s /\
    acc <= s /\ s <= acc + inject_Z (Z.of_nat (length l)).
Proof.
  induction 1 as [|x l (q & -> & Hq0 & Hq1) _ IH]; intros acc.
  - exists acc. cbn [fold_left length Z.of_nat].
    change (inject_Z 0) with 0. repeat split; lra.
  - cbn [fold_left Float.add].
    destruct (IH (acc + q)) as (s & Hs & Hlo & Hhi).
    exists s. split; [exact Hs|].
    change (length (Fin q :: l)) with (S (length l)).
    rewrite inject_succ_Q. split; lra.
Qed.

Lemma mean_in_unit (l : list pyfloat) :
  Forall in_unit l -> l <> [] -> in_unit (np_mean l).
Proof.
  intros Hall Hne.
  destruct (sum_in_unit l Hall 0) as (s & Hs & Hlo & Hhi).
  unfold np_mean, Float.sum, Float.of_nat. rewrite Hs.
  assert (Hlen : 0 < inject_Z (Z.of_nat (length l))).
  { change 0 with (inject_Z 0). rewrite <- Zlt_Qlt.
    destruct l; [congruence|]. cbn [length]. lia. }
  rewrite div_fin by lra.
  eexists. split; [reflexivity|]. split.
  - apply Qle_shift_div_l; lra.
  - apply Qle_shift_div_r; lra.
Qed.

Lemma seen_nonempty (ds : list details) (k : nat) (d : details) :
  nth_error ds k = Some d -> seen ds k <> [].
Proof.
  unfold seen. destruct ds as [|d0 ds]; [destruct k; discriminate|].
  discriminate.
Qed.

(** On the rationals, where no step rounds: with a positive bucket size
    and finite trade volumes the streaming pass ends (any fuel from
    [enough_fuel] on), every bucket but possibly the last holds exactly the
    bucket size, and the order imbalance of every bucket is
    [|net_volume| / B], a value of [[0, 1]].  This is the bookkeeping
    before rounding; what is left of it on binary64 values is in
    [Vpin64Proofs]. *)
Lemma unrounded_buckets_full_and_imbalance_in_unit
        (b : Q) (df : list row) (fuel : nat) :
  0 < b -> Forall finite_row df -> (enough_fuel b df <= fuel)%nat ->
  exists out,
    buckets fuel (Fin b) df = Some out /\
    Forall (full_bucket b) (removelast out) /\
    Forall (imbalance_in_unit b) out.
Proof.
  intros Hb Hfin Hfuel.
  destruct (run_inv b Hb fuel df Hfin Hfuel) as (st & _ & Hinv & Hrun).
  exists (bucket_details (flush (Fin b) df st)).
  unfold buckets. rewrite Hrun. split; [reflexivity|].
  apply flush_inv; assumption.
Qed.

(** C8. With a positive bucket size and finite trade volumes the pass
    ends in a state whose three queues hold at most 50, 250 and 350
    imbalances, namely the most recent ones in order of arrival (the
    oldest were evicted first), and every bucket, from the first one on,
    reports for each window the arithmetic mean of the queue as it was
    when the bucket was recorded: a non-empty queue, hence a value. *)
Theorem C8_windows_bounded_fifo_mean
        (b : Q) (df : list row) (fuel : nat) :
  0 < b -> Forall finite_row df -> (enough_fuel b df <= fuel)%nat ->
  exists st,
    run fuel (Fin b) df = Some st /\
    (length (imbalances_daily st) <= sample_length_daily)%nat /\
    (length (imbalances_5day st) <= sample_length_5day)%nat /\
    (length (imbalances_7day st) <= sample_length_7day)%nat /\
    windows_inv st /\
    forall k d,
      nth_error (bucket_details st) k = Some d ->
      window_report sample_length_daily (bucket_details st) k
                    (vpin_daily d) /\
      window_report sample_length_5day (bucket_details st) k
                    (vpin_5day d) /\
      window_report sample_length_7day (bucket_details st) k
                    (vpin_7day d).
Proof.
  intros Hb Hfin Hfuel.
  destruct (run_inv b Hb fuel df Hfin Hfuel) as (st0 & _ & Hinv & Hrun).
  pose proof (run_windows _ _ _ _ Hrun) as Hw.
  destruct (flush_inv b Hb df st0 Hinv) as [_ Himb].
  set (st := flush (Fin b) df st0) in *.
  exists st. split; [exact Hrun|].
  destruct Hw as (Hd & H5 & H7 & Hrep).
  rewrite Hd, H5, H7, !lastn_length.
  split; [lia|]. split; [lia|]. split; [lia|].
  split.
  { unfold windows_inv. rewrite Hd, H5, H7. auto. }
  intros k d Hk.
  destruct (Hrep k d Hk) as (Ed & E5 & E7).
  assert (Hunit : Forall in_unit (seen (bucket_details st) k)).
  { unfold seen. apply Forall_map, Forall_firstn.
    eapply Forall_impl; [|exact Himb].
    intros d' (_ & i & Hi & Hrange). exists i. auto. }
  pose proof (seen_nonempty _ _ _ Hk) as Hne.
  assert (Hrep1 : forall L v,
             (0 < L)%nat ->
             v = np_mean (lastn L (seen (bucket_details st) k)) ->
             window_report L (bucket_details st) k v).
  { intros L v HL Ev. unfold window_report.
    split; [rewrite lastn_length; lia|].
    split; [apply lastn_nonempty; assumption|].
    split; [exact Ev|].
    rewrite Ev. apply mean_in_unit.
    - apply Forall_skipn. exact Hunit.
    - apply lastn_nonempty; assumption. }
  split; [|split]; apply Hrep1; try assumption;
    unfold sample_length_daily, sample_length_5day, sample_length_7day;
    lia.
Qed.

(** *** The absolute volume is conserved *)

Lemma sum_Q_app (l1 l2 : list pyfloat) :
  sum_Q (l1 ++ l2) == sum_Q l1 + sum_Q l2.
Proof.
  induction l1 as [|x l1 IH]; cbn [app].
  - unfold sum_Q at 2. cbn [fold_right]. lra.
  - change (sum_Q (x :: l1 ++ l2)) with (to_Q x + sum_Q (l1 ++ l2)).
    change (sum_Q (x :: l1)) with (to_Q x + sum_Q l1).
    rewrite IH. lra.
Qed.

Lemma sum_Q_single (x : pyfloat) : sum_Q [x] = to_Q x + 0.
Proof. reflexivity. Qed.

(** One iteration moves volume from the trade to the buckets, whatever the
    bucket size. *)
Lemma fill_step_volume (b : Q) idx ts a (rem : Q) rn st ca :
  current_bucket_abs_volume st = Fin ca ->
  0 <= rem ->
  exists rem' rn' st' ca',
    fill_step (Fin b) idx ts a (Fin rem) rn st = (Fin rem', rn', st') /\
    current_bucket_abs_volume st' = Fin ca' /\
    0 <= rem' /\
    rem' + volume_held st' == rem + volume_held st.
Proof.
  intros Hca Hrem. unfold fill_step, volume_held. rewrite Hca.
  unfold Float.min, Float.sub. cbn [Float.neg Float.add].
  destruct (Float.ltb (Fin (b + - ca)) (Fin rem)) eqn:Emin;
    cbn [Float.add Float.neg set_current current_bucket_abs_volume];
    [apply ltb_fin in Emin|apply ltb_fin_false in Emin];
    match goal with
    | |- context [if ?c then _ else _] => destruct c
    end;
    do 4 eexists;
    (split; [reflexivity|]);
    cbn [set_current record_bucket current_bucket_abs_volume
         bucket_details];
    (split; [reflexivity|]);
    rewrite ?map_app, ?sum_Q_app;
    cbn [map bucket_abs_volume]; rewrite ?sum_Q_single; cbn [to_Q];
    split; lra.
Qed.

Lemma fill_volume (b : Q) idx ts a :
  forall fuel (rem : Q) rn st st' ca,
    current_bucket_abs_volume st = Fin ca ->
    0 <= rem ->
    fill fuel (Fin b) idx ts a (Fin rem) rn st = Some st' ->
    (exists ca', current_bucket_abs_volume st' = Fin ca') /\
    volume_held st' == rem + volume_held st.
Proof.
  induction fuel as [|fuel IH]; intros rem rn st st' ca Hca Hrem;
    rewrite fill_unfold; unfold Float.gtb;
    destruct (Float.ltb (Fin 0) (Fin rem)) eqn:Epos; try discriminate.
  - apply ltb_fin_false in Epos. intros [= <-].
    split; [eauto|]. lra.
  - destruct (fill_step_volume b idx ts a rem rn st ca Hca Hrem)
      as (rem' & rn' & st1 & ca' & -> & Hca' & Hrem' & Hvol).
    intros H. destruct (IH _ _ _ _ _ Hca' Hrem' H) as (Hfin & Hvol').
    split; [exact Hfin|]. lra.
  - apply ltb_fin_false in Epos. intros [= <-].
    split; [eauto|]. lra.
Qed.

Lemma stream_volume (b : Q) fuel :
  forall df idx st st' ca,
    Forall finite_row df ->
    current_bucket_abs_volume st = Fin ca ->
    stream fuel (Fin b) idx df st = Some st' ->
    (exists ca', current_bucket_abs_volume st' = Fin ca') /\
    volume_held st' == volume_held st + tape_volume df.
Proof.
  induction df as [|r df IH]; intros idx st st' ca Hfin Hca; cbn [stream].
  - intros [= <-]. split; [eauto|].
    unfold tape_volume. cbn [map]. change (sum_Q []) with 0. lra.
  - inversion Hfin as [|? ? Hr Hrest]; subst.
    unfold finite_row in Hr.
    destruct (tradevolume r) as [v| | |] eqn:Ev; try discriminate Hr.
    cbn [Float.abs].
    destruct (fill fuel (Fin b) idx (timestamp r) (Fin (Qabs v))
                   (Fin (Qabs v)) (Fin v) st) as [st1|] eqn:E;
      [|discriminate].
    destruct (fill_volume _ _ _ _ _ _ _ _ _ _ Hca (Qabs_nonneg v) E)
      as ((ca1 & Hca1) & Hvol1).
    intros H. destruct (IH _ _ _ _ Hrest Hca1 H) as (Hfin' & Hvol').
    split; [exact Hfin'|].
    unfold tape_volume in *. cbn [map].
    rewrite Ev. cbn [Float.abs].
    change (sum_Q (Fin (Qabs v)
                   :: map (fun r0 => Float.abs (tradevolume r0)) df))
      with (Qabs v + sum_Q (map (fun r0 => Float.abs (tradevolume r0)) df)).
    lra.
Qed.

(** With a positive bucket size, the buckets of a tape of finite trades
    hold, together, the absolute volume of the tape: the amounts taken
    from the trades add up to what was traded. *)
Lemma abs_volume_conserved (b : Q) (df : list row) (fuel : nat) :
  0 < b -> Forall finite_row df -> (enough_fuel b df <= fuel)%nat ->
  exists out,
    buckets fuel (Fin b) df = Some out /\
    sum_Q (map bucket_abs_volume out) == tape_volume df.
Proof.
  intros Hb Hfin Hfuel.
  destruct (run_inv b Hb fuel df Hfin Hfuel) as (st & Hst & Hinv & Hrun).
  unfold buckets. rewrite Hrun. cbn [option_map].
  eexists. split; [reflexivity|].
  destruct (stream_volume b fuel df 0%Z init st 0 Hfin eq_refl Hst)
    as (_ & Hvol).
  destruct Hinv as (ca & cn & Hca & _ & Hca0 & _).
  unfold volume_held in Hvol. rewrite Hca in Hvol.
  cbn [init bucket_details current_bucket_abs_volume map to_Q] in Hvol.
  change (sum_Q []) with 0 in Hvol.
  unfold flush. rewrite Hca. unfold Float.gtb.
  destruct (Float.ltb (Fin 0) (Fin ca)) eqn:E.
  - cbn [record_bucket bucket_details].
    rewrite map_app, sum_Q_app.
    cbn [map bucket_abs_volume]. rewrite sum_Q_single, Hca.
    cbn [to_Q]. lra.
  - apply ltb_fin_false in E. lra.
Qed.

(** *** More fuel does not change the result *)

Lemma fill_fuel_mono B idx ts a :
  forall n m rv rn st st',
    (n <= m)%nat ->
    fill n B idx ts a rv rn st = Some st' ->
    fill m B idx ts a rv rn st = Some st'.
Proof.
  induction n as [|n IH]; intros m rv rn st st' Hnm;
    rewrite (fill_unfold m), fill_unfold;
    destruct (Float.gtb rv (Fin 0)); try discriminate; try trivial.
  destruct m as [|m]; [lia|].
  destruct (fill_step B idx ts a rv rn st) as [[rv' rn'] st1].
  apply IH. lia.
Qed.

Lemma stream_fuel_mono B n m :
  (n <= m)%nat ->
  forall df idx st st',
    stream n B idx df st = Some st' -> stream m B idx df st = Some st'.
Proof.
  intros Hnm. induction df as [|r df IH]; intros idx st st'; cbn [stream];
    [trivial|].
  destruct (fill n B idx (timestamp r) (Float.abs (tradevolume r))
                 (Float.abs (tradevolume r)) (tradevolume r) st)
    as [st1|] eqn:E; [|discriminate].
  rewrite (fill_fuel_mono _ _ _ _ _ _ _ _ _ _ Hnm E). apply IH.
Qed.

Lemma buckets_fuel_mono B df n m out :
  (n <= m)%nat ->
  buckets n B df = Some out -> buckets m B df = Some out.
Proof.
  intros Hnm. unfold buckets, run.
  destruct (stream n B 0 df init) as [st|] eqn:E; [|discriminate].
  rewrite (stream_fuel_mono _ _ _ Hnm _ _ _ _ E). trivial.
Qed.

(** Two runs that both end give the same buckets. *)
Lemma buckets_fuel_irrelevant B df n m out out' :
  buckets n B df = Some out -> buckets m B df = Some out' -> out = out'.
Proof.
  intros Hn Hm.
  apply (buckets_fuel_mono _ _ _ (Nat.max n m)) in Hn; [|lia].
  apply (buckets_fuel_mono _ _ _ (Nat.max n m)) in Hm; [|lia].
  congruence.
Qed.

(** *** A zero bucket size: the loop of a non-zero trade never ends *)

Lemma zero_size_diverges (z : Q) idx ts (a : Q) :
  z == 0 -> ~ a == 0 ->
  forall fuel (rem rn ca : Q) (st : state),
    current_bucket_abs_volume st = Fin ca -> ca == 0 -> 0 < rem ->
    fill fuel (Fin z) idx ts (Fin a) (Fin rem) (Fin rn) st = None.
Proof.
  intros Hz Ha.
  induction fuel as [|fuel IH]; intros rem rn ca st Hca Hca0 Hrem;
    rewrite fill_unfold; unfold Float.gtb;
    (assert (E : Float.ltb (Fin 0) (Fin rem) = true)
      by (apply ltb_fin; exact Hrem)); rewrite E; [reflexivity|].
  unfold fill_step. rewrite Hca.
  unfold Float.min, Float.sub. cbn [Float.neg Float.add].
  assert (Emin : Float.ltb (Fin (z + - ca)) (Fin rem) = true)
    by (apply ltb_fin; lra).
  rewrite Emin. rewrite (div_fin _ _ Ha).
  cbn [Float.mul Float.add Float.neg set_current
       current_bucket_abs_volume].
  assert (Eclose : Float.geb (Fin (ca + (z + - ca))) (Fin z) = true)
    by (apply leb_fin; lra).
  rewrite Eclose.
  apply (IH _ _ 0); [reflexivity|reflexivity|lra].
Qed.

Import Tapes.

(** C3, as stated, fails: on [+30, -20, +60] with a bucket size of 50 no
    run ends with the three buckets of the specification, because the
    last bucket gets the net volume 5/3 (imbalance 1/30), not 10
    (imbalance 1/5). *)
Lemma C3_counterexample_last_bucket_net_volume :
  (~ exists fuel out,
       buckets fuel (Fin 50) tape3 = Some out /\ tape3_as_specified out) /\
  exists b1 b2 b3,
    buckets 3 (Fin 50) tape3 = Some [b1; b2; b3] /\
    (bucket_net_volume b3 =~ Fin (5 # 3))%fl /\
    (order_imbalance b3 =~ Fin (1 # 30))%fl.
Proof.
  evaluate (buckets 3 (Fin 50) tape3) as E. split.
  - intros (fuel & out & Hout & b1 & b2 & b3 & -> & H).
    pose proof (buckets_fuel_irrelevant _ _ _ _ _ _ Hout E) as E'.
    injection E' as -> -> ->.
    destruct H as (_ & _ & _ & _ & _ & _ & _ & H & _).
    vm_compute in H. discriminate H.
  - rewrite E. do 3 eexists. split; [reflexivity|].
    split; vm_compute; reflexivity.
Qed.

(** C3, amended.  On [+30, -20, +60] with a bucket size of 50 every run
    that ends gives the same three buckets: the first holds 50 with net
    volume 10 (imbalance 1/5), the second holds 50 with net volume 50
    (imbalance 1), and the last holds 10, less than the bucket size;
    nothing else in its record tells it from a closed bucket. *)
Theorem C3_tape3_three_buckets :
  exists out,
    buckets (enough_fuel 50 tape3) (Fin 50) tape3 = Some out /\
    tape3_first_two_and_partial out /\
    forall fuel out',
      buckets fuel (Fin 50) tape3 = Some out' -> out' = out.
Proof.
  evaluate (buckets (enough_fuel 50 tape3) (Fin 50) tape3) as E.
  eexists. split; [exact E|]. split.
  - do 3 eexists. split; [reflexivity|].
    repeat split; vm_compute; reflexivity.
  - intros fuel out' H.
    exact (buckets_fuel_irrelevant _ _ _ _ _ _ H E).
Qed.

(** C1 at a trade of +60 with a bucket size of 50 and no open volume: the
    trade is split in 50 and 10, which add up to its absolute volume, but
    the net volume fragments are 50 and 5/3, which do not add up to its
    signed volume of 60: the second fragment is [10/60] of the 10 that
    remained instead of [10/60] of the 60 traded. *)
Theorem C1_split_trade_net_volume_not_conserved :
  exists b1 b2,
    buckets (enough_fuel 50 tape60) (Fin 50) tape60 = Some [b1; b2] /\
    (bucket_abs_volume b1 =~ Fin 50)%fl /\
    (bucket_abs_volume b2 =~ Fin 10)%fl /\
    (bucket_abs_volume b1 + bucket_abs_volume b2 =~ Fin 60)%fl /\
    (bucket_net_volume b1 =~ Fin 50)%fl /\
    (bucket_net_volume b2 =~ Fin (5 # 3))%fl /\
    ~ (bucket_net_volume b1 + bucket_net_volume b2 =~ Fin 60)%fl.
Proof.
  evaluate (buckets (enough_fuel 50 tape60) (Fin 50) tape60) as E.
  rewrite E. do 2 eexists. split; [reflexivity|].
  repeat split; try (vm_compute; reflexivity).
  vm_compute. discriminate.
Qed.

(** *** No check of the bucket size *)

Lemma nonzero_rows_all_zero (rows : list row) :
  Forall (fun r => Float.eqb (tradevolume r) (Fin 0) = true) rows ->
  nonzero_rows rows = [].
Proof.
  unfold nonzero_rows.
  induction 1 as [|r rows Hr _ IH]; [reflexivity|].
  cbn [filter]. unfold Float.neb. rewrite Hr. exact IH.
Qed.

Lemma zero_bucket_size_never_ends rows r rest v z fuel :
  nonzero_rows rows = r :: rest ->
  tradevolume r = Fin v ->
  bucket_size (nonzero_rows rows) = Fin z -> z == 0 ->
  calculate_vpin fuel rows = None.
Proof.
  intros Hrows Hv Hsize Hz.
  assert (Hv0 : ~ v == 0).
  { assert (Hin : In r (nonzero_rows rows))
      by (rewrite Hrows; left; reflexivity).
    apply filter_In in Hin. destruct Hin as [_ Hne].
    rewrite Hv in Hne. intros E. revert Hne.
    unfold Float.neb, Float.eqb. cbn [Float.cmp].
    apply Qeq_alt in E. rewrite E. discriminate. }
  assert (Ha0 : ~ Qabs v == 0).
  { intros E. apply Hv0. revert E. apply Qabs_case; intros; lra. }
  assert (Ha : 0 < Qabs v).
  { pose proof (Qabs_nonneg v). lra. }
  unfold calculate_vpin, buckets, run.
  rewrite Hsize, Hrows. cbn [stream]. rewrite Hv. cbn [Float.abs].
  rewrite (zero_size_diverges z 0 (timestamp r) (Qabs v) Hz Ha0
             fuel _ _ 0 init); [reflexivity|reflexivity|reflexivity|].
  exact Ha.
Qed.

(** C9, as stated, fails: the tape with one trade of volume 5 whose
    [abs_tradevolume] is 0 gives a bucket size of zero, and the run does
    not stop before the streaming pass: the first iteration records a
    bucket and leaves the remaining volume at 5, and no number of
    iterations ends the loop, so the run never ends in an error. *)
Lemma C9_counterexample_zero_bucket_size :
  (bucket_size (nonzero_rows tape_zero_size) =~ Fin 0)%fl /\
  (let '(rv, _, st) :=
     fill_step (bucket_size (nonzero_rows tape_zero_size)) 0 1
               (Fin 5) (Fin 5) (Fin 5) init in
   (rv =~ Fin 5)%fl /\ length (bucket_details st) = 1%nat) /\
  ~ exists fuel e, calculate_vpin fuel tape_zero_size = Some (Raised e).
Proof.
  split; [vm_compute; reflexivity|].
  split; [vm_compute; split; reflexivity|].
  intros (fuel & e & H).
  evaluate (nonzero_rows tape_zero_size) as Hrows.
  evaluate (bucket_size (nonzero_rows tape_zero_size)) as Hsize.
  rewrite (zero_bucket_size_never_ends _ _ _ _ _ fuel Hrows eq_refl Hsize)
    in H; [discriminate H|reflexivity].
Qed.

(** C9, amended.  Nothing checks the tape or the bucket size before the
    streaming pass.  When no row has a non-zero [tradevolume] the bucket
    size is NaN, the pass has no trade to go through and records no
    bucket, and the run then ends in an error, raised where the summary
    reads a column of the empty table.  When the bucket size is zero and
    the first non-zero trade has a finite volume, the run does not end in
    an error: the loop of that trade never ends. *)
Theorem C9_degenerate_inputs_not_rejected :
  (forall rows fuel,
      Forall (fun r => Float.eqb (tradevolume r) (Fin 0) = true) rows ->
      bucket_size (nonzero_rows rows) = NaN /\
      buckets fuel (bucket_size (nonzero_rows rows)) (nonzero_rows rows)
      = Some [] /\
      calculate_vpin fuel rows = Some (Raised KeyError)) /\
  (forall rows r rest v z fuel,
      nonzero_rows rows = r :: rest ->
      tradevolume r = Fin v ->
      bucket_size (nonzero_rows rows) = Fin z -> z == 0 ->
      calculate_vpin fuel rows = None).
Proof.
  split.
  - intros rows fuel Hz.
    unfold calculate_vpin. rewrite (nonzero_rows_all_zero rows Hz).
    repeat split; reflexivity.
  - intros. eapply zero_bucket_size_never_ends; eassumption.
Qed.

(** The windows on [+30, -20, +60] with a bucket size of 50. *)
Lemma C8_witness_tape3 :
  0 < 50 /\ Forall finite_row tape3 /\ (enough_fuel 50 tape3 <= 3)%nat /\
  exists st,
    run 3 (Fin 50) tape3 = Some st /\
    (length (imbalances_daily st) <= sample_length_daily)%nat /\
    (length (imbalances_5day st) <= sample_length_5day)%nat /\
    (length (imbalances_7day st) <= sample_length_7day)%nat /\
    windows_inv st /\
    forall k d,
      nth_error (bucket_details st) k = Some d ->
      window_report sample_length_daily (bucket_details st) k
                    (vpin_daily d) /\
      window_report sample_length_5day (bucket_details st) k
                    (vpin_5day d) /\
      window_report sample_length_7day (bucket_details st) k
                    (vpin_7day d).
Proof.
  assert (Hb : 0 < 50) by reflexivity.
  assert (Hfin : Forall finite_row tape3)
    by (repeat constructor).
  assert (Hfuel : (enough_fuel 50 tape3 <= 3)%nat)
    by (vm_compute; lia).
  repeat split; try assumption.
  exact (C8_windows_bounded_fifo_mean 50 tape3 3 Hb Hfin Hfuel).
Defined.

(** A tape without volume ends in the lookup error; the tape whose bucket
    size is zero does not end within 7 iterations. *)
Lemma C9_witness_no_volume_and_zero_size :
  (Forall (fun r => Float.eqb (tradevolume r) (Fin 0) = true)
          tape_no_volume /\
   calculate_vpin 0 tape_no_volume = Some (Raised KeyError)) /\
  (exists z,
      bucket_size (nonzero_rows tape_zero_size) = Fin z /\ z == 0 /\
      calculate_vpin 7 tape_zero_size = None).
Proof.
  split.
  - assert (Hz : Forall (fun r => Float.eqb (tradevolume r) (Fin 0) = true)
                        tape_no_volume)
      by (repeat constructor).
    split; [exact Hz|].
    exact (proj2 (proj2 (proj1 C9_degenerate_inputs_not_rejected
                               tape_no_volume 0%nat Hz))).
  - evaluate (nonzero_rows tape_zero_size) as Hrows.
    evaluate (bucket_size (nonzero_rows tape_zero_size)) as Hsize.
    eexists. split; [exact Hsize|]. split; [reflexivity|].
    exact (proj2 C9_degenerate_inputs_not_rejected
                 tape_zero_size _ _ 5 _ 7%nat Hrows eq_refl Hsize
                 ltac:(reflexivity)).
Defined.

End VpinProofs.
(** ** The binary64 pass: what every emitted bucket satisfies *)

Module Vpin64Proofs.
Import PrimFloat Vpin64 Vpin64Spec.

#[local] Set Warnings "-inexact-float".













(** A positive bucket size does not make the loop end either: with a
    bucket size of 1e-20 a trade of 1 stays whole, [1 - 1e-20] rounding
    to 1, while every iteration records a bucket. *)
Lemma absorbed_step idx ts st :
  current_bucket_abs_volume st = 0%float ->
  current_bucket_net_volume st = 0%float ->
  exists st',
    fill_step 1e-20 idx ts 1 1 1 st = (1%float, 1%float, st') /\
    current_bucket_abs_volume st' = 0%float /\
    current_bucket_net_volume st' = 0%float.
Proof.
  intros Ha Hn. unfold fill_step. cbn [set_current current_bucket_abs_volume
    current_bucket_net_volume]. rewrite Ha, Hn.
  eexists. split; [|split].
  - vm_compute (pymin 1 (1e-20 - 0)).
    vm_compute (0 + _)%float.
    change (1e-20 <=? 1.0000000000000000e-20)%float with true.
    cbv iota.
    f_equal.
  - reflexivity.
  - reflexivity.
Qed.

Lemma tiny_bucket_size_never_ends (fuel : nat) :
  buckets fuel 1e-20 tape_unit_buy = None.
Proof.
  assert (H : forall idx ts st,
             current_bucket_abs_volume st = 0%float ->
             current_bucket_net_volume st = 0%float ->
             fill fuel 1e-20 idx ts 1 1 1 st = None).
  { induction fuel as [|fuel IH]; intros idx ts st Ha Hn; [reflexivity|].
    cbn [fill]. change (0 <? 1)%float with true. cbv iota.
    destruct (absorbed_step idx ts st Ha Hn) as (st' & -> & Ha' & Hn').
    exact (IH idx ts st' Ha' Hn'). }
  unfold buckets, run, tape_unit_buy. cbn [stream trade tradevolume timestamp].
  change (abs 1) with 1%float.
  rewrite (H 0%Z 1%Z init eq_refl eq_refl). reflexivity.
Qed.

End Vpin64Proofs.


(** ** The fee estimator *)

Module FeeProofs.
Import FeeSim FeeSpec FloatFacts.

Section Step.
Variable sqrt : Q -> Q.
Variable pp : position_params.
Variable col : vpin_row -> pyfloat.
Variable base_fee_pct : pyfloat.
Variable vpin_data : list vpin_row.

Local Abbreviation step := (FeeSim.step sqrt pp col base_fee_pct vpin_data)
  (only parsing).
Local Abbreviation estimate := (FeeSim.estimate sqrt pp) (only parsing).
Local Abbreviation cursor_at := (FeeSim.cursor_at col vpin_data) (only parsing).

(** The row appended to [results] for [r], given the exposure, the
    estimated impact and the expected loss. *)
Lemma step_estimate (st : loop_state) (r : row) :
  step st r =
  match estimate st r with
  | Err e => Err e
  | Ok (None, _, _) => Err UnboundLocalError
  | Ok (Some ie, epi, eil) =>
      let a := Float.abs (tradevolume r) in
      let tox := snd (cursor_at st (timestamp r)) in
      let fraction :=
        match tox with Some v => (eil * v)%fl | None => Fin 0 end in
      let base := if tradeable r then (base_fee_pct / Fin 100 * a)%fl
                  else Fin 0 in
      let absolute := if tradeable r then (fraction * a)%fl else Fin 0 in
      Ok {| vpin_idx := fst (cursor_at st (timestamp r));
            latest_vpin := tox;
            latest_illiq :=
              match current_illiq r with
              | Some x => Some x
              | None => latest_illiq st
              end;
            inventory_exposure_var := Some ie;
            results :=
              results st ++
              [ {| out_timestamp := timestamp r;
                   out_price := price r;
                   trade_volume := tradevolume r;
                   abs_trade_volume := a;
                   out_ILLIQ := current_illiq r;
                   vpin_used := tox;
                   estimated_price_impact := epi;
                   expected_impermanent_loss := eil;
                   base_fee := base;
                   vpin_fee_pct_of_volume := fraction;
                   vpin_fee_absolute := absolute;
                   total_fee := (base + absolute)%fl;
                   fee_pct_of_volume :=
                     if tradeable r then ((base + absolute) / a)%fl
                     else Fin 0;
                   out_inventory_exposure := ie |} ] |}
  end.
Proof.
  unfold FeeSim.step, tradeable.
  destruct (cursor_at st (timestamp r)) as [idx' tox].
  destruct (estimate st r) as [[[[ie|] epi] eil]|e]; reflexivity.
Qed.

Lemma estimate_tradeable (st : loop_state) (r : row) :
  tradeable r = true ->
  estimate st r =
  match calculate_token_amounts_at_price sqrt (price r) pp with
  | Err e => Err e
  | Ok ps =>
      match latest_illiq st with
      | Some l =>
          let impact := (l * Float.abs (tradevolume r) / Fin 1000000)%fl in
          Ok (Some (inventory_exposure ps), impact,
              (impact * inventory_exposure ps)%fl)
      | None => Ok (Some (inventory_exposure ps), Fin 0, Fin 0)
      end
  end.
Proof.
  unfold FeeSim.estimate, tradeable. intros ->.
  destruct (calculate_token_amounts_at_price sqrt (price r) pp); reflexivity.
Qed.

Lemma estimate_not_tradeable (st : loop_state) (r : row) :
  tradeable r = false ->
  estimate st r = Ok (inventory_exposure_var st, Fin 0, Fin 0).
Proof. unfold FeeSim.estimate, tradeable. intros ->. reflexivity. Qed.

(** C5. For a trade with a positive absolute volume [a], processed when
    the last valid impact observation is [l]: the estimated price impact is
    [l * a / 1,000,000], the expected impermanent loss is that impact times
    the inventory exposure at the trade's price, the toxicity fee fraction
    is that loss times the toxicity value at the cursor, the base fee is
    [base_fee_pct / 100 * a], and the total fee is the base fee plus the
    fraction times [a].  With an impact of 1,000,000, a volume of 10, an
    exposure of 0.4, a toxicity of 0.3 and a base rate of 0.05 percent the
    total fee is 12.005. *)
Theorem C5_fee_fields_of_a_priced_trade
        (st : loop_state) (r : row) (l : pyfloat) (ps : position_state) :
  tradeable r = true ->
  latest_illiq st = Some l ->
  calculate_token_amounts_at_price sqrt (price r) pp = Ok ps ->
  let a := Float.abs (tradevolume r) in
  let tox := snd (cursor_at st (timestamp r)) in
  let impact := (l * a / Fin 1000000)%fl in
  let loss := (impact * inventory_exposure ps)%fl in
  let fraction := match tox with Some v => (loss * v)%fl | None => Fin 0 end in
  exists st' o,
    step st r = Ok st' /\ results st' = results st ++ [o] /\
    abs_trade_volume o = a /\
    vpin_used o = tox /\
    out_inventory_exposure o = inventory_exposure ps /\
    estimated_price_impact o = impact /\
    expected_impermanent_loss o = loss /\
    vpin_fee_pct_of_volume o = fraction /\
    base_fee o = (base_fee_pct / Fin 100 * a)%fl /\
    vpin_fee_absolute o = (fraction * a)%fl /\
    total_fee o = (base_fee o + fraction * a)%fl /\
    fee_pct_of_volume o = (total_fee o / a)%fl /\
    (forall lq aq eq tq bq,
        l = Fin lq -> a = Fin aq -> inventory_exposure ps = Fin eq ->
        tox = Some (Fin tq) -> base_fee_pct = Fin bq ->
        lq == 1000000 -> aq == 10 -> eq == 4 # 10 -> tq == 3 # 10 ->
        bq == 5 # 100 ->
        (estimated_price_impact o =~ Fin 10)%fl /\
        (expected_impermanent_loss o =~ Fin 4)%fl /\
        (vpin_fee_pct_of_volume o =~ Fin (12 # 10))%fl /\
        (base_fee o =~ Fin (5 # 1000))%fl /\
        (total_fee o =~ Fin (12005 # 1000))%fl).
Proof.
  intros Ht Hl Hps a tox impact loss fraction.
  rewrite step_estimate, (estimate_tradeable _ _ Ht), Hps, Hl.
  cbv zeta. rewrite Ht.
  do 2 eexists. split; [reflexivity|]. split; [reflexivity|].
  cbn [abs_trade_volume vpin_used out_inventory_exposure
       estimated_price_impact expected_impermanent_loss
       vpin_fee_pct_of_volume base_fee vpin_fee_absolute total_fee
       fee_pct_of_volume].
  repeat (split; [reflexivity|]).
  intros lq aq eq tq bq El Ea Ee Et Eb Hlq Haq Heq Htq Hbq.
  fold a tox. rewrite El, Ea, Ee, Et, Eb.
  cbn [Float.mul].
  rewrite !div_fin by discriminate.
  cbn [Float.mul Float.add Float.eq].
  rewrite Hlq, Haq, Heq, Htq, Hbq.
  repeat split; reflexivity.
Qed.

Lemma zero_volume_not_tradeable (r : row) :
  (Float.abs (tradevolume r) =~ Fin 0)%fl -> tradeable r = false.
Proof.
  unfold tradeable, Float.gtb.
  destruct (Float.abs (tradevolume r)) as [a| | |]; cbn [Float.eq];
    try contradiction.
  intros Ha. apply ltb_fin_false. rewrite Ha. apply Qle_refl.
Qed.

Lemma mul_zero_finite (v : pyfloat) :
  Float.is_finite v = true -> (Fin 0 * v =~ Fin 0)%fl.
Proof.
  destruct v as [q| | |]; try discriminate. intros _.
  cbn [Float.mul Float.eq]. apply Qmult_0_l.
Qed.

(** C4, amended.  A trade whose absolute volume is zero, processed when
    the exposure variable is bound, gets a row whose estimated impact,
    expected loss, base fee, toxicity fee, total fee and fee percentage are
    zero (and whose toxicity fee fraction is zero when the toxicity value
    is finite or absent); the impact cache takes the observation of the
    row when it is valid and is unchanged otherwise; the cursor and the
    toxicity value move as for any row of the same timestamp. *)
Theorem C4_zero_volume_trade
        (st : loop_state) (r : row) (e : pyfloat) :
  (Float.abs (tradevolume r) =~ Fin 0)%fl ->
  inventory_exposure_var st = Some e ->
  exists st' o,
    step st r = Ok st' /\ results st' = results st ++ [o] /\
    estimated_price_impact o = Fin 0 /\
    expected_impermanent_loss o = Fin 0 /\
    base_fee o = Fin 0 /\
    vpin_fee_absolute o = Fin 0 /\
    (total_fee o =~ Fin 0)%fl /\
    fee_pct_of_volume o = Fin 0 /\
    (forall v, vpin_used o = Some v -> Float.is_finite v = true ->
               (vpin_fee_pct_of_volume o =~ Fin 0)%fl) /\
    (vpin_used o = None -> vpin_fee_pct_of_volume o = Fin 0) /\
    latest_illiq st' =
      match current_illiq r with
      | Some x => Some x
      | None => latest_illiq st
      end /\
    (vpin_idx st', latest_vpin st') = cursor_at st (timestamp r) /\
    (forall r2 st2,
        timestamp r2 = timestamp r -> step st r2 = Ok st2 ->
        vpin_idx st2 = vpin_idx st' /\ latest_vpin st2 = latest_vpin st').
Proof.
  intros Hz He. pose proof (zero_volume_not_tradeable r Hz) as Ht.
  rewrite step_estimate, (estimate_not_tradeable _ _ Ht), He.
  cbv zeta. rewrite Ht.
  do 2 eexists. split; [reflexivity|]. split; [reflexivity|].
  cbn [estimated_price_impact expected_impermanent_loss base_fee
       vpin_fee_absolute total_fee fee_pct_of_volume vpin_used
       vpin_fee_pct_of_volume latest_illiq vpin_idx latest_vpin].
  repeat (split; [reflexivity|]).
  split.
  { intros v -> Hv. apply mul_zero_finite. exact Hv. }
  split.
  { intros ->. reflexivity. }
  split; [reflexivity|].
  split.
  { destruct (cursor_at st (timestamp r)); reflexivity. }
  intros r2 st2 Hts. rewrite step_estimate.
  destruct (FeeSim.estimate sqrt pp st r2) as [[[[ie|] epi] eil]|err];
    try discriminate.
  cbv zeta. intros [= <-]. cbn [vpin_idx latest_vpin]. rewrite Hts. auto.
Qed.

End Step.

(** *** Whole runs *)

Lemma last_some_snoc {A B} (f : A -> option B) pre a v :
  last_some f pre v ->
  last_some f (pre ++ [a])
            (match f a with Some x => Some x | None => v end).
Proof.
  intros H. destruct (f a) as [x|] eqn:Ea.
  - exists pre, a, []. auto.
  - destruct v as [y|]; cbn [last_some] in *.
    + destruct H as (l1 & a0 & l2 & -> & Ha0 & Hl2).
      exists l1, a0, (l2 ++ [a]). rewrite <- app_assoc. cbn [app].
      repeat split; auto. apply Forall_app. auto.
    + apply Forall_app. auto.
Qed.

Section Run.
Variable sqrt : Q -> Q.
Variable pp : position_params.
Variable col : vpin_row -> pyfloat.
Variable base_fee_pct : pyfloat.
Variable vpin_data : list vpin_row.

Local Abbreviation step := (FeeSim.step sqrt pp col base_fee_pct vpin_data)
  (only parsing).
Local Abbreviation loop := (FeeSim.loop sqrt pp col base_fee_pct vpin_data)
  (only parsing).
Local Abbreviation init := (FeeSim.init col vpin_data) (only parsing).
Local Abbreviation cursor_at := (FeeSim.cursor_at col vpin_data)
  (only parsing).
Local Abbreviation amounts_at :=
  (fun p => calculate_token_amounts_at_price sqrt p pp) (only parsing).

Lemma loop_app d1 d2 st :
  loop (d1 ++ d2) st = bind (loop d1 st) (loop d2).
Proof.
  revert st. induction d1 as [|r d1 IH]; intros st; cbn [app FeeSim.loop].
  - reflexivity.
  - destruct (step st r) as [st1|e]; cbn [bind]; [apply IH|reflexivity].
Qed.

Lemma loop_snoc_ok pre r st st' :
  loop (pre ++ [r]) st = Ok st' ->
  exists st0, loop pre st = Ok st0 /\ step st0 r = Ok st'.
Proof.
  rewrite loop_app. destruct (loop pre st) as [st0|e]; cbn [bind];
    [|discriminate].
  cbn [FeeSim.loop]. destruct (step st0 r) as [st1|e] eqn:E; cbn [bind];
    [|discriminate].
  cbn [FeeSim.loop]. intros [= <-]. eauto.
Qed.

Lemma step_results st r st' :
  step st r = Ok st' -> exists o, results st' = results st ++ [o].
Proof.
  rewrite step_estimate.
  destruct (FeeSim.estimate sqrt pp st r) as [[[[ie|] epi] eil]|e];
    try discriminate.
  cbv zeta. intros [= <-]. eexists. reflexivity.
Qed.

Lemma loop_results data :
  forall st st',
    loop data st = Ok st' ->
    exists outs, results st' = results st ++ outs /\
                 length outs = length data.
Proof.
  induction data as [|r data IH]; intros st st'; cbn [FeeSim.loop].
  - intros [= <-]. exists []. rewrite app_nil_r. auto.
  - destruct (step st r) as [st1|e] eqn:E; cbn [bind]; [|discriminate].
    intros H. destruct (step_results _ _ _ E) as (o & Ho).
    destruct (IH _ _ H) as (outs & Houts & Hlen).
    exists (o :: outs). rewrite Houts, Ho, <- app_assoc.
    cbn [app length]. auto.
Qed.

(** The [k]-th row of the result comes from the [k]-th row of the data,
    processed in the state that the rows before it led to. *)
Lemma loop_nth data st stf k r o :
  results st = [] ->
  loop data st = Ok stf ->
  nth_error data k = Some r ->
  nth_error (results stf) k = Some o ->
  exists stk stk',
    loop (firstn k data) st = Ok stk /\ step stk r = Ok stk' /\
    results stk' = results stk ++ [o].
Proof.
  intros Hres Hloop Hr Ho.
  destruct (nth_error_split _ _ Hr) as (l1 & l2 & -> & Hlen).
  rewrite firstn_app, Hlen, Nat.sub_diag, firstn_all2 by lia.
  cbn [firstn]. rewrite app_nil_r.
  rewrite loop_app in Hloop.
  destruct (loop l1 st) as [stk|e] eqn:E1; cbn [bind] in Hloop;
    [|discriminate].
  cbn [FeeSim.loop] in Hloop.
  destruct (step stk r) as [stk'|e] eqn:E2; cbn [bind] in Hloop;
    [|discriminate].
  exists stk, stk'. split; [reflexivity|]. split; [exact E2|].
  destruct (loop_results _ _ _ E1) as (o1 & Ho1 & Hl1).
  destruct (step_results _ _ _ E2) as (o' & Ho').
  destruct (loop_results _ _ _ Hloop) as (o2 & Ho2 & Hl2).
  rewrite Ho2, Ho', Ho1, Hres in Ho. cbn [app] in Ho.
  rewrite <- app_assoc in Ho. cbn [app] in Ho.
  rewrite nth_error_app2 in Ho by lia.
  replace (k - length o1)%nat with 0%nat in Ho by lia.
  cbn [nth_error] in Ho. injection Ho as <-. exact Ho'.
Qed.

Lemma step_latest_illiq st r st' :
  step st r = Ok st' ->
  latest_illiq st' =
  match current_illiq r with Some x => Some x | None => latest_illiq st end.
Proof.
  rewrite step_estimate.
  destruct (FeeSim.estimate sqrt pp st r) as [[[[ie|] epi] eil]|e];
    try discriminate.
  cbv zeta. intros [= <-]. reflexivity.
Qed.

(** After the rows [pre] the cache holds the last valid observation of
    [pre]. *)
Lemma loop_cache pre :
  forall st, loop pre init = Ok st ->
             last_some current_illiq pre (latest_illiq st).
Proof.
  induction pre as [|r pre IH] using rev_ind; intros st.
  - cbn [FeeSim.loop]. intros [= <-]. constructor.
  - intros H. destruct (loop_snoc_ok _ _ _ _ H) as (st0 & H0 & Hs).
    rewrite (step_latest_illiq _ _ _ Hs).
    apply last_some_snoc, IH, H0.
Qed.

Lemma last_tradeable_snoc pre r rj :
  tradeable r = false -> last_tradeable pre rj ->
  last_tradeable (pre ++ [r]) rj.
Proof.
  intros Hr (l1 & l2 & -> & Hj & Hl2).
  exists l1, (l2 ++ [r]). rewrite <- app_assoc. cbn [app].
  repeat split; auto. apply Forall_app. auto.
Qed.

(** After the rows [pre] the exposure variable holds the exposure computed
    for the last trade of [pre] with a positive volume; it is unbound only
    before the first row. *)
Lemma loop_exposure pre :
  forall st,
    loop pre init = Ok st ->
    match inventory_exposure_var st with
    | Some e =>
        exists rj ps,
          last_tradeable pre rj /\ amounts_at (price rj) = Ok ps /\
          e = inventory_exposure ps
    | None => pre = []
    end.
Proof.
  induction pre as [|r pre IH] using rev_ind; intros st.
  - cbn [FeeSim.loop]. intros [= <-]. reflexivity.
  - intros H. destruct (loop_snoc_ok _ _ _ _ H) as (st0 & H0 & Hs).
    specialize (IH _ H0). revert Hs. rewrite step_estimate.
    destruct (tradeable r) eqn:Ht.
    + rewrite (estimate_tradeable _ _ _ _ Ht).
      destruct (calculate_token_amounts_at_price sqrt (price r) pp)
        as [ps|e] eqn:Eps; [|discriminate].
      destruct (latest_illiq st0); cbv zeta; intros [= <-];
        cbn [inventory_exposure_var];
        exists r, ps; (split; [exists pre, []; auto|auto]).
    + rewrite (estimate_not_tradeable _ _ _ _ Ht).
      destruct (inventory_exposure_var st0) as [e|]; [|discriminate].
      cbv zeta. intros [= <-]. cbn [inventory_exposure_var].
      destruct IH as (rj & ps & Hlast & Hps & He).
      exists rj, ps. split; [|auto].
      apply last_tradeable_snoc; assumption.
Qed.

Lemma estimate_with_ILLIQ st r x :
  FeeSim.estimate sqrt pp st (with_ILLIQ x r) = FeeSim.estimate sqrt pp st r.
Proof. reflexivity. Qed.

End Run.

Lemma calculate_fees_loop sqrt data table pp vpin_type bf col :
  vpin_column vpin_type = Some col ->
  calculate_fees_with_vpin_full_timeseries sqrt data (Some table) pp
                                           vpin_type bf
  = bind (loop sqrt pp col bf table data (init col table))
         (fun st => Ok (results st)).
Proof.
  intros Hcol. unfold calculate_fees_with_vpin_full_timeseries.
  rewrite Hcol. reflexivity.
Qed.

Lemma calculate_fees_ok sqrt data table pp vpin_type bf col outs :
  vpin_column vpin_type = Some col ->
  calculate_fees_with_vpin_full_timeseries sqrt data (Some table) pp
                                           vpin_type bf = Ok outs ->
  exists st,
    loop sqrt pp col bf table data (init col table) = Ok st /\
    results st = outs.
Proof.
  intros Hcol. rewrite (calculate_fees_loop _ _ _ _ _ _ _ Hcol).
  destruct (loop sqrt pp col bf table data (init col table)) as [st|e];
    cbn [bind]; [|discriminate].
  intros [= <-]. eauto.
Qed.

(** C10. The exposure reported with a trade of positive volume is the one
    computed for its own price; the exposure reported with any other trade
    is the one computed for the last trade of positive volume before it;
    and when the first trade of the tape has no positive volume the run
    fails with [UnboundLocalError] and returns no row. *)
Theorem C10_inventory_exposure_stale_or_unbound
        sqrt data table pp vpin_type bf col :
  vpin_column vpin_type = Some col ->
  (forall r rest,
      data = r :: rest -> tradeable r = false ->
      calculate_fees_with_vpin_full_timeseries sqrt data (Some table) pp
                                               vpin_type bf
      = Err UnboundLocalError) /\
  (forall outs,
      calculate_fees_with_vpin_full_timeseries sqrt data (Some table) pp
                                               vpin_type bf = Ok outs ->
      forall k r o,
        nth_error data k = Some r -> nth_error outs k = Some o ->
        (tradeable r = true ->
         exists ps,
           calculate_token_amounts_at_price sqrt (price r) pp = Ok ps /\
           out_inventory_exposure o = inventory_exposure ps) /\
        (tradeable r = false ->
         exists rj ps,
           last_tradeable (firstn k data) rj /\
           calculate_token_amounts_at_price sqrt (price rj) pp = Ok ps /\
           out_inventory_exposure o = inventory_exposure ps)).
Proof.
  intros Hcol. split.
  - intros r rest -> Ht.
    rewrite (calculate_fees_loop _ _ _ _ _ _ _ Hcol).
    cbn [loop]. rewrite step_estimate, (estimate_not_tradeable _ _ _ _ Ht).
    reflexivity.
  - intros outs Hok k r o Hr Ho.
    destruct (calculate_fees_ok _ _ _ _ _ _ _ _ Hcol Hok) as (stf & Hloop & <-).
    destruct (loop_nth sqrt pp col bf table data (init col table) stf k r o
                       eq_refl Hloop Hr Ho)
      as (stk & stk' & Hpre & Hstep & Hres).
    pose proof (loop_exposure _ _ _ _ _ _ _ Hpre) as Hexp.
    rewrite step_estimate in Hstep. split; intros Ht.
    + rewrite (estimate_tradeable _ _ _ _ Ht) in Hstep.
      destruct (calculate_token_amounts_at_price sqrt (price r) pp)
        as [ps|e]; [|discriminate].
      exists ps. split; [reflexivity|].
      destruct (latest_illiq stk); cbv zeta in Hstep;
        injection Hstep as <-; cbn [results] in Hres;
        apply app_inv_head in Hres; injection Hres as <-; reflexivity.
    + rewrite (estimate_not_tradeable _ _ _ _ Ht) in Hstep.
      destruct (inventory_exposure_var stk) as [e|]; [|discriminate].
      destruct Hexp as (rj & ps & Hlast & Hps & He).
      exists rj, ps. split; [exact Hlast|]. split; [exact Hps|].
      cbv zeta in Hstep. injection Hstep as <-. cbn [results] in Hres.
      apply app_inv_head in Hres. injection Hres as <-. exact He.
Qed.

Lemma current_illiq_valid (r : row) (x : pyfloat) :
  current_illiq r = Some x <->
  ILLIQ r = Some x /\ x <> NaN /\ ~ (x =~ Fin 0)%fl.
Proof.
  unfold current_illiq. destruct (ILLIQ r) as [y|]; [|split; [discriminate|]].
  - destruct y as [q| | |]; cbn [Float.notna];
      unfold Float.eqb; cbn [Float.cmp].
    + destruct (q ?= 0) eqn:Eq.
      * apply Qeq_alt in Eq. split; [discriminate|].
        intros ([= <-] & _ & Hne). cbn [Float.eq] in Hne. contradiction.
      * split.
        -- intros [= <-]. repeat split; [discriminate|].
           cbn [Float.eq]. intros E. apply Qeq_alt in E. congruence.
        -- intros ([= <-] & _). reflexivity.
      * split.
        -- intros [= <-]. repeat split; [discriminate|].
           cbn [Float.eq]. intros E. apply Qeq_alt in E. congruence.
        -- intros ([= <-] & _). reflexivity.
    + split; [intros [= <-]; repeat split; [discriminate|auto]
             |intros ([= <-] & _); reflexivity].
    + split; [intros [= <-]; repeat split; [discriminate|auto]
             |intros ([= <-] & _); reflexivity].
    + split; [discriminate|]. intros ([= <-] & Hn & _). congruence.
  - intros (H & _). discriminate H.
Qed.

(** C6, amended.  An observation counts when it is present, not NaN and
    not zero (an infinite one counts).  The estimated impact of a trade of
    positive volume is computed from the last observation that counts
    among the rows strictly before it, and is zero when there is none; the
    observation of the trade's own row is not among them.  A row whose
    observation does not count leaves the cache as it was, and whether a
    row fails does not depend on its observation. *)
Theorem C6_impact_used_is_last_prior_valid
        sqrt data table pp vpin_type bf col :
  vpin_column vpin_type = Some col ->
  (forall r x,
      current_illiq r = Some x <->
      ILLIQ r = Some x /\ x <> NaN /\ ~ (x =~ Fin 0)%fl) /\
  (forall outs,
      calculate_fees_with_vpin_full_timeseries sqrt data (Some table) pp
                                               vpin_type bf = Ok outs ->
      forall k r o,
        nth_error data k = Some r -> nth_error outs k = Some o ->
        exists used,
          last_some current_illiq (firstn k data) used /\
          estimated_price_impact o =
          if tradeable r then
            match used with
            | Some l => (l * Float.abs (tradevolume r) / Fin 1000000)%fl
            | None => Fin 0
            end
          else Fin 0) /\
  (forall st r st',
      step sqrt pp col bf table st r = Ok st' ->
      current_illiq r = None -> latest_illiq st' = latest_illiq st) /\
  (forall st r x e,
      step sqrt pp col bf table st (with_ILLIQ x r) = Err e <->
      step sqrt pp col bf table st r = Err e).
Proof.
  intros Hcol. split; [exact current_illiq_valid|]. split; [|split].
  - intros outs Hok k r o Hr Ho.
    destruct (calculate_fees_ok _ _ _ _ _ _ _ _ Hcol Hok) as (stf & Hloop & <-).
    destruct (loop_nth sqrt pp col bf table data (init col table) stf k r o
                       eq_refl Hloop Hr Ho)
      as (stk & stk' & Hpre & Hstep & Hres).
    exists (latest_illiq stk).
    split; [exact (loop_cache _ _ _ _ _ _ _ Hpre)|].
    rewrite step_estimate in Hstep. destruct (tradeable r) eqn:Ht.
    + rewrite (estimate_tradeable _ _ _ _ Ht) in Hstep.
      destruct (calculate_token_amounts_at_price sqrt (price r) pp)
        as [ps|e]; [|discriminate].
      destruct (latest_illiq stk); cbv zeta in Hstep;
        injection Hstep as <-; cbn [results] in Hres;
        apply app_inv_head in Hres; injection Hres as <-; reflexivity.
    + rewrite (estimate_not_tradeable _ _ _ _ Ht) in Hstep.
      destruct (inventory_exposure_var stk) as [e|]; [|discriminate].
      cbv zeta in Hstep. injection Hstep as <-. cbn [results] in Hres.
      apply app_inv_head in Hres. injection Hres as <-. reflexivity.
  - intros st r st' Hstep Hnone.
    rewrite (step_latest_illiq _ _ _ _ _ _ _ _ Hstep), Hnone. reflexivity.
  - intros st r x e. rewrite !step_estimate, estimate_with_ILLIQ.
    destruct (estimate sqrt pp st r) as [[[[ie|] epi] eil]|e'];
      cbv zeta; split; intros H; try discriminate H; exact H.
Qed.

(** C6, as stated, fails on an infinite observation: it is kept as the
    impact in use, and the next trade is priced with it. *)
Lemma C6_counterexample_infinite_observation :
  Float.is_finite PInf = false /\
  current_illiq (trade 0 1 (Some PInf)) = Some PInf /\
  exists o1 o2,
    calculate_fees_with_vpin_full_timeseries sqrt_exact
      [trade 0 1 (Some PInf); trade 1 10 None]
      (Some [bucket 0 (3 # 10)]) position_example "vpin_daily"
      (Fin (5 # 100)) = Ok [o1; o2] /\
    estimated_price_impact o1 = Fin 0 /\
    estimated_price_impact o2 = PInf /\
    total_fee o2 = PInf.
Proof.
  split; [reflexivity|]. split; [reflexivity|].
  evaluate (calculate_fees_with_vpin_full_timeseries sqrt_exact
              [trade 0 1 (Some PInf); trade 1 10 None]
              (Some [bucket 0 (3 # 10)]) position_example "vpin_daily"
              (Fin (5 # 100))) as E.
  rewrite E. do 2 eexists. split; [reflexivity|].
  repeat split; reflexivity.
Qed.

(** Two trades that both carry an observation: the first is priced
    without impact, the second with the observation of the first. *)
Lemma C6_witness_use_prior_then_update :
  vpin_column "vpin_daily" = Some vpin_daily /\
  exists o1 o2,
    calculate_fees_with_vpin_full_timeseries sqrt_exact
      [trade 0 1 (Some (Fin 1000000)); trade 1 (-10) (Some (Fin 7))]
      (Some [bucket 0 (3 # 10)]) position_example "vpin_daily"
      (Fin (5 # 100)) = Ok [o1; o2] /\
    estimated_price_impact o1 = Fin 0 /\
    estimated_price_impact o2
    = (Fin 1000000 * Float.abs (Fin (-10)) / Fin 1000000)%fl.
Proof.
  assert (Hcol : vpin_column "vpin_daily" = Some vpin_daily) by reflexivity.
  split; [exact Hcol|].
  evaluate (calculate_fees_with_vpin_full_timeseries sqrt_exact
              [trade 0 1 (Some (Fin 1000000)); trade 1 (-10) (Some (Fin 7))]
              (Some [bucket 0 (3 # 10)]) position_example "vpin_daily"
              (Fin (5 # 100))) as E.
  pose proof (proj1 (proj2 (C6_impact_used_is_last_prior_valid
                              sqrt_exact _ _ _ _ _ _ Hcol)) _ E) as H.
  rewrite E. do 2 eexists. split; [reflexivity|]. split.
  - destruct (H 0%nat _ _ eq_refl eq_refl) as (used & Hused & Himp).
    destruct used as [l|]; [|exact Himp].
    destruct Hused as (l1 & a & l2 & Hl & _). destruct l1; discriminate Hl.
  - destruct (H 1%nat _ _ eq_refl eq_refl) as (used & Hused & Himp).
    rewrite Himp. destruct used as [l|].
    + destruct Hused as (l1 & a & l2 & Hl & Ha & _).
      destruct l1 as [|a1 l1]; [|destruct l1; discriminate Hl].
      injection Hl as <- <-. injection Ha as <-. reflexivity.
    + inversion Hused as [|? ? Hnone _]. discriminate Hnone.
Defined.

(** A tape that starts with a zero-volume trade. *)
Lemma C10_witness_stale_exposure :
  vpin_column "vpin_daily" = Some vpin_daily /\
  tradeable (trade 0 0 None) = false /\
  calculate_fees_with_vpin_full_timeseries sqrt_exact
    [trade 0 0 None; trade 1 10 None]
    (Some [bucket 0 (3 # 10)]) position_example "vpin_daily" (Fin (5 # 100))
  = Err UnboundLocalError.
Proof.
  assert (Hcol : vpin_column "vpin_daily" = Some vpin_daily) by reflexivity.
  assert (Ht : tradeable (trade 0 0 None) = false) by reflexivity.
  split; [exact Hcol|]. split; [exact Ht|].
  exact (proj1 (C10_inventory_exposure_stale_or_unbound
                  sqrt_exact [trade 0 0 None; trade 1 10 None]
                  [bucket 0 (3 # 10)] position_example "vpin_daily"
                  (Fin (5 # 100)) vpin_daily Hcol)
               _ _ eq_refl Ht).
Defined.

(** *** The toxicity cursor *)

Lemma advance_spec col t :
  forall next idx latest,
  exists m,
    (m <= length next)%nat /\
    advance col next t idx latest
    = ((idx + m)%nat,
       match m with
       | O => latest
       | S m' => option_map col (nth_error next m')
       end) /\
    (forall i b, (i < m)%nat -> nth_error next i = Some b ->
                 (bucket_timestamp b <= t)%Z) /\
    (forall b, nth_error next m = Some b -> (t < bucket_timestamp b)%Z).
Proof.
  induction next as [|b0 next IH]; intros idx latest; cbn [advance].
  - exists 0%nat. rewrite Nat.add_0_r. repeat split; auto.
    + intros i b Hi. lia.
    + intros b H. discriminate H.
  - destruct (Z.leb_spec (bucket_timestamp b0) t) as [Hle|Hgt].
    + destruct (IH (S idx) (Some (col b0)))
        as (m & Hm & Hadv & Hbefore & Hnext).
      exists (S m). rewrite Hadv. cbn [length]. split; [lia|]. split.
      * f_equal; [lia|]. destruct m; reflexivity.
      * split.
        -- intros [|i] b Hi Hb; cbn [nth_error] in Hb.
           ++ injection Hb as <-. exact Hle.
           ++ apply (Hbefore i); [lia|exact Hb].
        -- intros b Hb. cbn [nth_error] in Hb. auto.
    + exists 0%nat. rewrite Nat.add_0_r. split; [lia|]. split; [reflexivity|].
      split.
      * intros i b Hi. lia.
      * intros b Hb. cbn [nth_error] in Hb. injection Hb as <-. exact Hgt.
Qed.

Lemma sorted_nth (l : list Z) :
  Sorted Z.le l ->
  forall i j x y,
    (i <= j)%nat -> nth_error l i = Some x -> nth_error l j = Some y ->
    (x <= y)%Z.
Proof.
  intros Hs. apply Sorted_StronglySorted in Hs;
    [|intros a b c; apply Z.le_trans].
  induction Hs as [|a l Hs IH Hall]; intros i j x y Hij Hi Hj.
  - destruct i; discriminate Hi.
  - destruct i as [|i], j as [|j]; cbn [nth_error] in *.
    + injection Hi as <-. injection Hj as <-. lia.
    + injection Hi as <-. rewrite Forall_forall in Hall.
      apply Hall. eapply nth_error_In. exact Hj.
    + lia.
    + apply (IH i j); [lia|assumption|assumption].
Qed.

Lemma sorted_prefix (data : list row) k r :
  Sorted Z.le (map timestamp data) -> nth_error data k = Some r ->
  Forall (fun r' => (timestamp r' <= timestamp r)%Z) (firstn k data).
Proof.
  intros Hs Hr. apply Forall_forall. intros r' Hin.
  apply In_nth_error in Hin. destruct Hin as (i & Hi).
  rewrite nth_error_firstn in Hi.
  destruct (Nat.ltb_spec i k) as [Hlt|]; [|discriminate].
  apply (sorted_nth _ Hs i k); [lia| |]; rewrite nth_error_map.
  - rewrite Hi. reflexivity.
  - rewrite Hr. reflexivity.
Qed.

Section Cursor.
Variable sqrt : Q -> Q.
Variable pp : position_params.
Variable col : vpin_row -> pyfloat.
Variable base_fee_pct : pyfloat.
Variable table : list vpin_row.

Local Abbreviation step := (FeeSim.step sqrt pp col base_fee_pct table)
  (only parsing).
Local Abbreviation loop := (FeeSim.loop sqrt pp col base_fee_pct table)
  (only parsing).
Local Abbreviation init := (FeeSim.init col table) (only parsing).
Local Abbreviation cursor_at := (FeeSim.cursor_at col table) (only parsing).

(** Moving the cursor for a row of timestamp [t]. *)
Lemma cursor_at_spec (st : loop_state) (t : Z) :
  latest_vpin st = option_map col (nth_error table (vpin_idx st)) ->
  (vpin_idx st = 0%nat \/ (vpin_idx st < length table)%nat) ->
  let idx' := fst (cursor_at st t) in
  snd (cursor_at st t) = option_map col (nth_error table idx') /\
  (idx' = 0%nat \/ (idx' < length table)%nat) /\
  (vpin_idx st <= idx')%nat /\
  (forall j b, (vpin_idx st < j <= idx')%nat -> nth_error table j = Some b ->
               (bucket_timestamp b <= t)%Z) /\
  (forall b, nth_error table (S idx') = Some b ->
             (t < bucket_timestamp b)%Z).
Proof.
  intros Hval Hidx. unfold FeeSim.cursor_at.
  destruct (advance_spec col t (skipn (S (vpin_idx st)) table)
                         (vpin_idx st) (latest_vpin st))
    as (m & Hm & -> & Hbefore & Hnext).
  cbn [fst snd]. rewrite length_skipn in Hm.
  split; [|split; [|split; [lia|split]]].
  - destruct m as [|m'].
    + rewrite Nat.add_0_r. exact Hval.
    + rewrite nth_error_skipn. do 2 f_equal; lia.
  - destruct m; lia.
  - intros j b Hj Hb.
    apply (Hbefore (j - S (vpin_idx st))%nat); [lia|].
    rewrite nth_error_skipn. rewrite <- Hb. f_equal; lia.
  - intros b Hb. apply Hnext. rewrite nth_error_skipn.
    rewrite <- Hb. f_equal; lia.
Qed.

Lemma step_cursor st r st' :
  step st r = Ok st' ->
  vpin_idx st' = fst (cursor_at st (timestamp r)) /\
  latest_vpin st' = snd (cursor_at st (timestamp r)).
Proof.
  rewrite step_estimate.
  destruct (FeeSim.estimate sqrt pp st r) as [[[[ie|] epi] eil]|e];
    try discriminate.
  cbv zeta. intros [= <-]. auto.
Qed.

Lemma loop_cursor pre :
  forall st, loop pre init = Ok st -> cursor_inv col table pre st.
Proof.
  induction pre as [|r pre IH] using rev_ind; intros st.
  - cbn [FeeSim.loop]. intros [= <-]. unfold cursor_inv.
    cbn [FeeSim.init latest_vpin vpin_idx]. split; [|split].
    + destruct table; reflexivity.
    + left. reflexivity.
    + intros t _ j b Hj. lia.
  - intros H. destruct (loop_snoc_ok _ _ _ _ _ _ _ _ _ H) as (st0 & H0 & Hs).
    destruct (IH _ H0) as (Hval & Hidx & Hold).
    destruct (step_cursor _ _ _ Hs) as (Ei & Ev).
    destruct (cursor_at_spec st0 (timestamp r) Hval Hidx)
      as (Hval' & Hidx' & Hmono & Hnew & _).
    unfold cursor_inv. rewrite Ei, Ev. split; [exact Hval'|].
    split; [exact Hidx'|].
    intros t Hall j b Hj Hb. apply Forall_app in Hall.
    destruct Hall as (Hpre & Hr). inversion Hr as [|? ? Hrt _]; subst.
    destruct (Nat.le_gt_cases j (vpin_idx st0)) as [Hle|Hgt].
    + apply (Hold t Hpre j b); [lia|exact Hb].
    + pose proof (Hnew j b ltac:(lia) Hb). lia.
Qed.

(** The toxicity value attached to a row of timestamp [t] that comes after
    the rows [pre], none of which is later than [t]. *)
Lemma cursor_toxicity pre st t :
  Sorted Z.le (map bucket_timestamp table) ->
  cursor_inv col table pre st ->
  Forall (fun r => (timestamp r <= t)%Z) pre ->
  toxicity_at col table t (snd (cursor_at st t)).
Proof.
  intros Hsorted (Hval & Hidx & Hold) Hpre.
  destruct (cursor_at_spec st t Hval Hidx)
    as (Hval' & Hidx' & Hmono & Hnew & Hnext).
  set (idx' := fst (FeeSim.cursor_at col table st t)) in *.
  rewrite Hval'.
  assert (Hafter : forall j b', (idx' < j)%nat -> nth_error table j = Some b' ->
                                (t < bucket_timestamp b')%Z).
  { intros j b' Hj Hb'.
    destruct (nth_error table (S idx')) as [b1|] eqn:E1.
    - specialize (Hnext b1 eq_refl).
      assert (bucket_timestamp b1 <= bucket_timestamp b')%Z; [|lia].
      apply (sorted_nth _ Hsorted (S idx') j); [lia| |];
        rewrite nth_error_map.
      + rewrite E1. reflexivity.
      + rewrite Hb'. reflexivity.
    - apply nth_error_None in E1.
      assert (nth_error table j <> None) by congruence.
      apply nth_error_Some in H. lia. }
  assert (Hupto : forall j b, (1 <= j <= idx')%nat ->
                              nth_error table j = Some b ->
                              (bucket_timestamp b <= t)%Z).
  { intros j b Hj Hb.
    destruct (Nat.le_gt_cases j (vpin_idx st)) as [Hle|Hgt].
    - apply (Hold t Hpre j b); [lia|exact Hb].
    - apply (Hnew j b); [lia|exact Hb]. }
  destruct (nth_error table idx') as [b|] eqn:Eb.
  - cbn [option_map].
    destruct (Z.le_gt_cases (bucket_timestamp b) t) as [Hle|Hgt].
    + left. exists idx', b. repeat split; auto.
    + assert (idx' = 0%nat).
      { destruct idx' as [|i]; [reflexivity|].
        pose proof (Hupto (S i) b ltac:(lia) Eb). lia. }
      right. split.
      * apply Forall_forall. intros b' Hin.
        apply In_nth_error in Hin. destruct Hin as (j & Hj).
        destruct j as [|j].
        -- rewrite H in Eb. rewrite Eb in Hj. injection Hj as <-. lia.
        -- apply (Hafter (S j)); [lia|exact Hj].
      * rewrite H in Eb. destruct table; [discriminate Eb|].
        cbn [nth_error] in Eb. injection Eb as <-. reflexivity.
  - right. apply nth_error_None in Eb.
    assert (table = []) by (destruct table; [reflexivity|cbn [length] in *; lia]).
    rewrite H. split; [constructor|reflexivity].
Qed.

End Cursor.

(** C2, amended.  With the trades and the buckets in ascending order of
    timestamp, the toxicity value used for a trade is the value of the
    last bucket whose closing timestamp is at or before the trade's, when
    there is one.  A trade that precedes the closing of every bucket is
    priced with the value of the first bucket of the table; the value is
    unavailable, and counts as zero, only when the table is empty.  The
    toxicity fee fraction is the expected loss times that value. *)
Theorem C2_toxicity_of_last_closed_or_first_bucket
        sqrt data table pp vpin_type bf col outs :
  vpin_column vpin_type = Some col ->
  Sorted Z.le (map timestamp data) ->
  Sorted Z.le (map bucket_timestamp table) ->
  calculate_fees_with_vpin_full_timeseries sqrt data (Some table) pp
                                           vpin_type bf = Ok outs ->
  length outs = length data /\
  forall k r o,
    nth_error data k = Some r -> nth_error outs k = Some o ->
    toxicity_at col table (timestamp r) (vpin_used o) /\
    vpin_fee_pct_of_volume o =
    match vpin_used o with
    | Some v => (expected_impermanent_loss o * v)%fl
    | None => Fin 0
    end.
Proof.
  intros Hcol Hdata Htable Hok.
  destruct (calculate_fees_ok _ _ _ _ _ _ _ _ Hcol Hok) as (stf & Hloop & <-).
  split.
  { destruct (loop_results _ _ _ _ _ _ _ _ Hloop) as (o' & Ho' & Hlen).
    rewrite Ho'. exact Hlen. }
  intros k r o Hr Ho.
  destruct (loop_nth sqrt pp col bf table data (init col table) stf k r o
                     eq_refl Hloop Hr Ho)
    as (stk & stk' & Hpre & Hstep & Hres).
  pose proof (loop_cursor _ _ _ _ _ _ _ Hpre) as Hinv.
  pose proof (cursor_toxicity col table _ _ (timestamp r) Htable Hinv
                (sorted_prefix _ _ _ Hdata Hr)) as Htox.
  rewrite step_estimate in Hstep.
  destruct (estimate sqrt pp stk r) as [[[[ie|] epi] eil]|e];
    try discriminate.
  cbv zeta in Hstep. injection Hstep as <-. cbn [results] in Hres.
  apply app_inv_head in Hres. injection Hres as <-.
  cbn [vpin_used vpin_fee_pct_of_volume expected_impermanent_loss].
  split; [exact Htox|reflexivity].
Qed.

Ltac sorted_Z :=
  repeat first [ apply Sorted_nil | apply Sorted_cons | apply HdRel_nil
               | apply HdRel_cons | (cbn; lia) ].

(** C2, as stated, fails: with a single bucket that closes at time 10, the
    trade at time 5 is priced with the value 0.5 of that bucket, not with
    an unavailable value, and its toxicity fee follows the value of that
    later bucket: 20 with the value 0.5, 36 with the value 0.9. *)
Lemma C2_counterexample_first_bucket_used_before_it_closes :
  exists o1 o2 o1' o2',
    calculate_fees_with_vpin_full_timeseries sqrt_exact
      [trade 0 1 (Some (Fin 1000000)); trade 5 10 None]
      (Some [bucket 10 (5 # 10)]) position_example "vpin_daily"
      (Fin (5 # 100)) = Ok [o1; o2] /\
    none_closed [bucket 10 (5 # 10)] 5 /\
    vpin_used o2 = Some (Fin (5 # 10)) /\
    ~ toxicity_as_specified vpin_daily [bucket 10 (5 # 10)] 5 (vpin_used o2) /\
    (vpin_fee_absolute o2 =~ Fin 20)%fl /\
    calculate_fees_with_vpin_full_timeseries sqrt_exact
      [trade 0 1 (Some (Fin 1000000)); trade 5 10 None]
      (Some [bucket 10 (9 # 10)]) position_example "vpin_daily"
      (Fin (5 # 100)) = Ok [o1'; o2'] /\
    (vpin_fee_absolute o2' =~ Fin 36)%fl.
Proof.
  evaluate (calculate_fees_with_vpin_full_timeseries sqrt_exact
              [trade 0 1 (Some (Fin 1000000)); trade 5 10 None]
              (Some [bucket 10 (5 # 10)]) position_example "vpin_daily"
              (Fin (5 # 100))) as E1.
  evaluate (calculate_fees_with_vpin_full_timeseries sqrt_exact
              [trade 0 1 (Some (Fin 1000000)); trade 5 10 None]
              (Some [bucket 10 (9 # 10)]) position_example "vpin_daily"
              (Fin (5 # 100))) as E2.
  rewrite E1, E2. do 4 eexists. split; [reflexivity|].
  split; [repeat constructor|]. split; [reflexivity|].
  split; [|split; [vm_compute; reflexivity|split; [reflexivity|]]].
  - intros [(i & b & (Hb & Hle & _) & _)|(_ & H)]; [|discriminate H].
    destruct i as [|i]; cbn [nth_error] in Hb.
    + injection Hb as <-. cbn in Hle. lia.
    + destruct i; discriminate Hb.
  - vm_compute. reflexivity.
Qed.

(** A trade at time 5 with buckets closed at 0, 5 and 9: the value of the
    bucket closed at 5 is used. *)
Lemma C2_witness_two_buckets :
  vpin_column "vpin_daily" = Some vpin_daily /\
  Sorted Z.le (map timestamp [trade 0 1 (Some (Fin 1000000));
                              trade 5 10 None]) /\
  Sorted Z.le (map bucket_timestamp [bucket 0 (3 # 10); bucket 5 (6 # 10);
                                     bucket 9 (9 # 10)]) /\
  exists o1 o2,
    calculate_fees_with_vpin_full_timeseries sqrt_exact
      [trade 0 1 (Some (Fin 1000000)); trade 5 10 None]
      (Some [bucket 0 (3 # 10); bucket 5 (6 # 10); bucket 9 (9 # 10)])
      position_example "vpin_daily" (Fin (5 # 100)) = Ok [o1; o2] /\
    toxicity_at vpin_daily
                [bucket 0 (3 # 10); bucket 5 (6 # 10); bucket 9 (9 # 10)]
                5 (vpin_used o2).
Proof.
  assert (Hcol : vpin_column "vpin_daily" = Some vpin_daily) by reflexivity.
  assert (Hdata : Sorted Z.le (map timestamp [trade 0 1 (Some (Fin 1000000));
                                              trade 5 10 None]))
    by sorted_Z.
  assert (Htable : Sorted Z.le
                     (map bucket_timestamp
                          [bucket 0 (3 # 10); bucket 5 (6 # 10);
                           bucket 9 (9 # 10)]))
    by sorted_Z.
  split; [exact Hcol|]. split; [exact Hdata|]. split; [exact Htable|].
  evaluate (calculate_fees_with_vpin_full_timeseries sqrt_exact
              [trade 0 1 (Some (Fin 1000000)); trade 5 10 None]
              (Some [bucket 0 (3 # 10); bucket 5 (6 # 10); bucket 9 (9 # 10)])
              position_example "vpin_daily" (Fin (5 # 100))) as E.
  pose proof (proj2 (C2_toxicity_of_last_closed_or_first_bucket
                       sqrt_exact _ _ _ _ _ _ _ Hcol Hdata Htable E)) as H.
  rewrite E. do 2 eexists. split; [reflexivity|].
  exact (proj1 (H 1%nat _ _ eq_refl eq_refl)).
Defined.

(** C4, as stated, fails: a zero-volume trade that carries the valid
    observation 5 changes the impact cache from unset to 5, and the next
    trade, of volume 10, is priced with it: its estimated impact is
    [5 * 10 / 1,000,000], not zero. *)
Lemma C4_counterexample_zero_volume_updates_cache :
  (exists st',
      step sqrt_exact position_example vpin_daily (Fin (5 # 100))
           [bucket 0 (3 # 10)] state_after_one_trade
           (trade 1 0 (Some (Fin 5))) = Ok st' /\
      latest_illiq state_after_one_trade = None /\
      latest_illiq st' = Some (Fin 5)) /\
  (exists o1 o2 o3,
      calculate_fees_with_vpin_full_timeseries sqrt_exact
        [trade 0 1 None; trade 1 0 (Some (Fin 5)); trade 2 10 None]
        (Some [bucket 0 (3 # 10)]) position_example "vpin_daily"
        (Fin (5 # 100)) = Ok [o1; o2; o3] /\
      (estimated_price_impact o3 =~ Fin (5 # 100000))%fl /\
      ~ (estimated_price_impact o3 =~ Fin 0)%fl).
Proof.
  split.
  - evaluate (step sqrt_exact position_example vpin_daily (Fin (5 # 100))
                   [bucket 0 (3 # 10)] state_after_one_trade
                   (trade 1 0 (Some (Fin 5)))) as E.
    rewrite E. eexists. repeat split; reflexivity.
  - evaluate (calculate_fees_with_vpin_full_timeseries sqrt_exact
                [trade 0 1 None; trade 1 0 (Some (Fin 5)); trade 2 10 None]
                (Some [bucket 0 (3 # 10)]) position_example "vpin_daily"
                (Fin (5 # 100))) as E.
    rewrite E. do 3 eexists. split; [reflexivity|].
    split; vm_compute; [reflexivity|discriminate].
Qed.

(** A zero-volume trade that carries the observation 5. *)
Lemma C4_witness_zero_volume_trade :
  (Float.abs (tradevolume (trade 1 0 (Some (Fin 5)))) =~ Fin 0)%fl /\
  inventory_exposure_var state_after_one_trade = Some (Fin (4 # 10)) /\
  exists st' o,
    step sqrt_exact position_example vpin_daily (Fin (5 # 100))
         [bucket 0 (3 # 10)] state_after_one_trade
         (trade 1 0 (Some (Fin 5))) = Ok st' /\
    results st' = results state_after_one_trade ++ [o] /\
    (total_fee o =~ Fin 0)%fl /\
    latest_illiq st' = Some (Fin 5).
Proof.
  assert (Hz : (Float.abs (tradevolume (trade 1 0 (Some (Fin 5))))
                =~ Fin 0)%fl) by reflexivity.
  assert (He : inventory_exposure_var state_after_one_trade
               = Some (Fin (4 # 10))) by reflexivity.
  split; [exact Hz|]. split; [exact He|].
  destruct (C4_zero_volume_trade sqrt_exact position_example vpin_daily
              (Fin (5 # 100)) [bucket 0 (3 # 10)] state_after_one_trade
              (trade 1 0 (Some (Fin 5))) (Fin (4 # 10)) Hz He)
    as (st' & o & Hstep & Hres & _ & _ & _ & _ & Htot & _ & _ & _ & Hill & _).
  exists st', o. repeat split; assumption.
Defined.

(** The trade of volume -10 at the price 4, where the exposure is 0.4,
    priced with the impact 1,000,000 and the toxicity 0.3. *)
Lemma C5_witness_total_fee_12_005 :
  tradeable (trade 1 (-10) None) = true /\
  latest_illiq state_with_impact = Some (Fin 1000000) /\
  (exists ps,
      calculate_token_amounts_at_price sqrt_exact
        (price (trade 1 (-10) None)) position_example = Ok ps /\
      (inventory_exposure ps =~ Fin (4 # 10))%fl) /\
  exists st' o,
    step sqrt_exact position_example vpin_daily (Fin (5 # 100))
         [bucket 0 (3 # 10)] state_with_impact (trade 1 (-10) None) = Ok st' /\
    results st' = results state_with_impact ++ [o] /\
    (total_fee o =~ Fin (12005 # 1000))%fl.
Proof.
  assert (Ht : tradeable (trade 1 (-10) None) = true) by reflexivity.
  assert (Hl : latest_illiq state_with_impact = Some (Fin 1000000))
    by reflexivity.
  evaluate (calculate_token_amounts_at_price sqrt_exact
              (price (trade 1 (-10) None)) position_example) as Hps.
  split; [exact Ht|]. split; [exact Hl|].
  split; [eexists; split; [exact Hps|reflexivity]|].
  destruct (C5_fee_fields_of_a_priced_trade sqrt_exact position_example
              vpin_daily (Fin (5 # 100)) [bucket 0 (3 # 10)]
              state_with_impact (trade 1 (-10) None) _ _ Ht Hl Hps)
    as (st' & o & Hstep & Hres & _ & _ & _ & _ & _ & _ & _ & _ & _ & _ & H).
  exists st', o. split; [exact Hstep|]. split; [exact Hres|].
  apply (H 1000000 10 (128 # 320) (3 # 10) (5 # 100));
    reflexivity.
Defined.

End FeeProofs.

(** ** More on the aggregator *)

Module VpinExtra.
Import Vpin VpinSpec VpinMore FloatFacts VpinProofs.

(** *** What the buckets record of the trades *)

Lemma StronglySorted_snoc {A} (R : A -> A -> Prop) (l : list A) (a : A) :
  StronglySorted R l -> Forall (fun x => R x a) l ->
  StronglySorted R (l ++ [a]).
Proof.
  induction 1 as [|x l Hs IH Hx]; intros Hall; cbn [app].
  - constructor; constructor.
  - inversion Hall as [|? ? Hxa Hla]; subst.
    constructor; [apply IH; exact Hla|].
    apply Forall_app. split; [exact Hx|]. constructor; [exact Hxa|constructor].
Qed.

Lemma record_bucket_meta B (df : list row) idx ts start st r :
  meta_inv df idx st ->
  (0 <= idx)%Z -> nth_error df (Z.to_nat idx) = Some r -> ts = timestamp r ->
  meta_inv df idx (record_bucket B idx ts start st).
Proof.
  intros (Hall & Hsorted & Hnum) Hidx Hr Hts.
  unfold meta_inv. cbn [record_bucket bucket_details].
  split; [|split].
  - apply Forall_app. split; [exact Hall|].
    constructor; [|constructor]. split; [|cbn [trade_index]; lia].
    split; cbn [trade_index closing_timestamp]; [exact Hidx|eauto].
  - rewrite map_app. cbn [map trade_index].
    apply StronglySorted_snoc; [exact Hsorted|].
    apply Forall_map. eapply Forall_impl; [|exact Hall].
    cbn. intros d (_ & Hd). exact Hd.
  - intros k d Hk.
    destruct (Nat.lt_ge_cases k (length (bucket_details st))) as [Hlt|Hge].
    + rewrite nth_error_app1 in Hk by exact Hlt. apply Hnum. exact Hk.
    + rewrite nth_error_app2 in Hk by exact Hge.
      destruct (k - length (bucket_details st))%nat as [|m] eqn:Ek;
        [|destruct m; discriminate Hk].
      cbn [nth_error] in Hk. injection Hk as <-. cbn [bucket_number]. lia.
Qed.

Lemma fill_step_meta B (df : list row) idx ts a rv rn st r :
  meta_inv df idx st ->
  (0 <= idx)%Z -> nth_error df (Z.to_nat idx) = Some r -> ts = timestamp r ->
  meta_inv df idx (snd (fill_step B idx ts a rv rn st)).
Proof.
  intros H Hidx Hr Hts. unfold fill_step. cbn [snd].
  match goal with |- context [if ?c then _ else _] => destruct c end.
  - change (meta_inv df idx
              (record_bucket B idx ts
                 (idx - Z.of_nat (length (bucket_details st)))
                 (set_current
                    (current_bucket_abs_volume st + Float.min rv
                       (B - current_bucket_abs_volume st))%fl
                    (current_bucket_net_volume st + rn *
                       (Float.min rv (B - current_bucket_abs_volume st) / a))%fl
                    st))).
    eapply record_bucket_meta; eauto.
  - exact H.
Qed.

Lemma fill_meta B (df : list row) idx ts a r :
  (0 <= idx)%Z -> nth_error df (Z.to_nat idx) = Some r -> ts = timestamp r ->
  forall fuel rv rn st st',
    meta_inv df idx st -> fill fuel B idx ts a rv rn st = Some st' ->
    meta_inv df idx st'.
Proof.
  intros Hidx Hr Hts.
  induction fuel as [|fuel IH]; intros rv rn st st' H;
    rewrite fill_unfold; destruct (Float.gtb rv (Fin 0));
    try discriminate; try (intros [= <-]; exact H).
  pose proof (fill_step_meta B df idx ts a rv rn st r H Hidx Hr Hts) as Hs.
  destruct (fill_step B idx ts a rv rn st) as [[rv' rn'] st1].
  apply IH. exact Hs.
Qed.

Lemma meta_inv_weaken df b1 b2 st :
  (b1 <= b2)%Z -> meta_inv df b1 st -> meta_inv df b2 st.
Proof.
  intros Hb (Hall & Hrest). split; [|exact Hrest].
  eapply Forall_impl; [|exact Hall]. cbn. intros d (Hc & Hd). split; [exact Hc|lia].
Qed.

Lemma stream_meta fuel B :
  forall rest pre st st',
    meta_inv (pre ++ rest) (Z.of_nat (length pre)) st ->
    stream fuel B (Z.of_nat (length pre)) rest st = Some st' ->
    meta_inv (pre ++ rest) (Z.of_nat (length pre) + Z.of_nat (length rest)) st'.
Proof.
  induction rest as [|r rest IH]; intros pre st st' H; cbn [stream].
  - intros [= <-]. cbn [length]. rewrite Z.add_0_r. exact H.
  - destruct (fill fuel B (Z.of_nat (length pre)) (timestamp r)
                   (Float.abs (tradevolume r)) (Float.abs (tradevolume r))
                   (tradevolume r) st) as [st1|] eqn:E; [|discriminate].
    intros Hs.
    assert (Hr : nth_error (pre ++ r :: rest)
                           (Z.to_nat (Z.of_nat (length pre))) = Some r).
    { rewrite Nat2Z.id, nth_error_app2, Nat.sub_diag by lia. reflexivity. }
    pose proof (fill_meta B _ _ _ _ r (Nat2Z.is_nonneg _) Hr eq_refl
                          _ _ _ _ _ H E) as H1.
    apply (meta_inv_weaken _ _ (Z.of_nat (length pre) + 1)) in H1; [|lia].
    specialize (IH (pre ++ [r]) st1 st').
    rewrite <- app_assoc in IH. cbn [app] in IH.
    rewrite length_app in IH. cbn [length] in IH.
    rewrite Nat2Z.inj_add in IH. cbn [Z.of_nat Pos.of_succ_nat] in IH.
    specialize (IH H1 Hs). cbn [length]. rewrite Nat2Z.inj_succ.
    replace (Z.of_nat (length pre) + Z.succ (Z.of_nat (length rest)))%Z
      with (Z.of_nat (length pre) + 1 + Z.of_nat (length rest))%Z by lia.
    exact IH.
Qed.

Lemma meta_init df : meta_inv df 0 init.
Proof.
  unfold meta_inv. cbn [init bucket_details map].
  split; [constructor|]. split; [constructor|].
  intros [|k] d H; discriminate H.
Qed.

Lemma run_meta fuel B df st :
  run fuel B df = Some st ->
  meta_inv df (Z.of_nat (length df) - 1) st \/
  (df = [] /\ bucket_details st = []).
Proof.
  unfold run.
  destruct (stream fuel B 0 df init) as [st1|] eqn:E; [|discriminate].
  intros [= <-].
  destruct df as [|r0 df0] eqn:Edf.
  - right. cbn [stream] in E. injection E as <-.
    split; reflexivity.
  - left. rewrite <- Edf in *.
    pose proof (stream_meta fuel B df [] init st1 (meta_init _) E) as H.
    cbn [app length Z.of_nat] in H. rewrite Z.add_0_l in H.
    unfold flush.
    destruct (Float.gtb (current_bucket_abs_volume st1) (Fin 0)).
    + assert (Hlast : exists r, nth_error df (length df - 1) = Some r /\
                                match rev df with
                                | r' :: _ => timestamp r'
                                | [] => 0%Z
                                end = timestamp r).
      { destruct (rev df) as [|x l] eqn:Er.
        - apply (f_equal (@rev row)) in Er. rewrite rev_involutive in Er.
          rewrite Er in Edf. discriminate Edf.
        - exists x. split; [|reflexivity].
          apply (f_equal (@rev row)) in Er. rewrite rev_involutive in Er.
          rewrite Er. cbn [rev]. rewrite nth_error_app2;
            rewrite length_app; cbn [length]; [|lia].
          replace (length (rev l) + 1 - 1 - length (rev l))%nat with 0%nat
            by lia.
          reflexivity. }
      destruct Hlast as (r & Hr & Hts).
      assert (Hlen : (0 < length df)%nat) by (rewrite Edf; cbn; lia).
      apply (record_bucket_meta B df _ _ _ _ r).
      * destruct H as (Hall & Hrest). split; [|exact Hrest].
        eapply Forall_impl; [|exact Hall]. cbn.
        intros d ((H0 & r' & Hr' & Ht') & Hd). split; [split; eauto|].
        assert (Z.to_nat (trade_index d) < length df)%nat.
        { apply nth_error_Some. congruence. }
        lia.
      * lia.
      * replace (Z.to_nat (Z.of_nat (length df) - 1)) with (length df - 1)%nat
          by lia.
        exact Hr.
      * exact Hts.
    + destruct H as (Hall & Hrest). split; [|exact Hrest].
      eapply Forall_impl; [|exact Hall]. cbn.
      intros d ((H0 & r' & Hr' & Ht') & Hd). split; [split; eauto|].
      assert (Z.to_nat (trade_index d) < length df)%nat.
      { apply nth_error_Some. congruence. }
      lia.
Qed.

Lemma closing_timestamps_sorted (df : list row) (out : list details) :
  Sorted Z.le (map timestamp df) ->
  Forall (closes_at df) out ->
  StronglySorted Z.le (map trade_index out) ->
  StronglySorted Z.le (map closing_timestamp out).
Proof.
  intros Hdf. induction out as [|d out IH]; intros Hall Hs; cbn [map].
  - constructor.
  - inversion Hall as [|? ? Hd Hrest]; subst.
    cbn [map] in Hs. apply StronglySorted_inv in Hs. destruct Hs as (Hs & Hle).
    constructor; [apply IH; assumption|].
    rewrite Forall_map in Hle. rewrite Forall_map.
    rewrite Forall_forall in Hle, Hrest. apply Forall_forall.
    intros d' Hin.
    destruct Hd as (H0 & r & Hr & ->).
    destruct (Hrest d' Hin) as (H0' & r' & Hr' & ->).
    apply (FeeProofs.sorted_nth _ Hdf (Z.to_nat (trade_index d))
                                (Z.to_nat (trade_index d')));
      [specialize (Hle d' Hin); lia| |]; rewrite nth_error_map.
    + rewrite Hr. reflexivity.
    + rewrite Hr'. reflexivity.
Qed.

(** X1.  Whatever the bucket size, the buckets of a run that ends are numbered
    0, 1, 2, ... in the order of the list; each was recorded while a trade
    of the tape was processed and carries the timestamp of that trade; the
    indices of these trades never decrease along the list, so that the
    buckets of a tape sorted by timestamp are sorted by closing
    timestamp. *)
Theorem buckets_numbered_and_in_trade_order fuel B df out :
  buckets fuel B df = Some out ->
  (forall k d, nth_error out k = Some d -> bucket_number d = k) /\
  Forall (closes_at df) out /\
  StronglySorted Z.le (map trade_index out) /\
  (Sorted Z.le (map timestamp df) ->
   StronglySorted Z.le (map closing_timestamp out)).
Proof.
  unfold buckets. destruct (run fuel B df) as [st|] eqn:E; [|discriminate].
  cbn [option_map]. intros [= <-].
  destruct (run_meta _ _ _ _ E) as [(Hall & Hs & Hnum)|(-> & Hnil)].
  - assert (Hc : Forall (closes_at df) (bucket_details st)).
    { eapply Forall_impl; [|exact Hall]. cbn. tauto. }
    split; [exact Hnum|]. split; [exact Hc|]. split; [exact Hs|].
    intros Hdf. eapply closing_timestamps_sorted; eassumption.
  - rewrite Hnil. cbn [map]. repeat split; try constructor.
    intros [|k] d H; discriminate H.
Qed.

(** *** A bucket size that is not positive *)

Lemma nonpositive_size_diverges (z : Q) idx ts (a : Q) :
  z <= 0 -> ~ a == 0 ->
  forall fuel (rem rn ca : Q) (st : state),
    current_bucket_abs_volume st = Fin ca -> ca == 0 -> 0 < rem ->
    fill fuel (Fin z) idx ts (Fin a) (Fin rem) (Fin rn) st = None.
Proof.
  intros Hz Ha.
  induction fuel as [|fuel IH]; intros rem rn ca st Hca Hca0 Hrem;
    rewrite fill_unfold; unfold Float.gtb;
    (assert (E : Float.ltb (Fin 0) (Fin rem) = true)
      by (apply ltb_fin; exact Hrem)); rewrite E; [reflexivity|].
  unfold fill_step. rewrite Hca.
  unfold Float.min, Float.sub. cbn [Float.neg Float.add].
  assert (Emin : Float.ltb (Fin (z + - ca)) (Fin rem) = true)
    by (apply ltb_fin; lra).
  rewrite Emin. rewrite (div_fin _ _ Ha).
  cbn [Float.mul Float.add Float.neg set_current
       current_bucket_abs_volume].
  assert (Eclose : Float.geb (Fin (ca + (z + - ca))) (Fin z) = true)
    by (apply leb_fin; lra).
  rewrite Eclose.
  apply (IH _ _ 0); [reflexivity|reflexivity|lra].
Qed.

(** X3.  With a finite bucket size that is zero or negative, the
    streaming pass does not end on a tape that starts with a finite
    non-zero trade: no number of iterations brings the loop of that trade
    to its end. *)
Theorem nonpositive_bucket_size_never_ends
        (b : Q) (df : list row) (r : row) (rest : list row) (v : Q) :
  df = r :: rest -> tradevolume r = Fin v -> ~ v == 0 -> b <= 0 ->
  forall fuel, run fuel (Fin b) df = None.
Proof.
  intros -> Hv Hv0 Hb fuel.
  unfold run. cbn [stream]. rewrite Hv. cbn [Float.abs].
  assert (Ha0 : ~ Qabs v == 0).
  { intros E. apply Hv0. revert E. apply Qabs_case; intros; lra. }
  assert (Ha : 0 < Qabs v) by (pose proof (Qabs_nonneg v); lra).
  rewrite (nonpositive_size_diverges b 0 (timestamp r) (Qabs v) Hb Ha0
             fuel _ _ 0 init); [reflexivity|reflexivity|reflexivity|].
  exact Ha.
Qed.

(** *** The properties above on the trades [+30, -20, +60] *)

(** With a bucket size of 50: three buckets, closed by the trades 1, 2
    and 2. *)
Lemma buckets_numbered_and_in_trade_order_witness :
  exists out,
    buckets 3 (Fin 50) Tapes.tape3 = Some out /\
    (forall k d, nth_error out k = Some d -> bucket_number d = k) /\
    Forall (closes_at Tapes.tape3) out /\
    StronglySorted Z.le (map trade_index out) /\
    (Sorted Z.le (map timestamp Tapes.tape3) ->
     StronglySorted Z.le (map closing_timestamp out)).
Proof.
  evaluate (buckets 3 (Fin 50) Tapes.tape3) as E.
  eexists. split; [exact E|].
  exact (buckets_numbered_and_in_trade_order 3 (Fin 50) Tapes.tape3 _ E).
Defined.

(** With the bucket sizes 0 and -5: no run of 1000 iterations a trade
    ends. *)
Lemma nonpositive_bucket_size_never_ends_witness :
  ~ 30 == 0 /\ 0 <= 0 /\ -5 <= 0 /\
  run 1000 (Fin 0) Tapes.tape3 = None /\
  run 1000 (Fin (-5)) Tapes.tape3 = None.
Proof.
  assert (Hv : ~ 30 == 0) by discriminate.
  assert (H0 : 0 <= 0) by discriminate.
  assert (H5 : -5 <= 0) by discriminate.
  split; [exact Hv|]. split; [exact H0|]. split; [exact H5|]. split.
  - exact (nonpositive_bucket_size_never_ends 0 Tapes.tape3 _ _ 30
             eq_refl eq_refl Hv H0 1000%nat).
  - exact (nonpositive_bucket_size_never_ends (-5) Tapes.tape3 _ _ 30
             eq_refl eq_refl Hv H5 1000%nat).
Defined.

End VpinExtra.


(** ** More on the fee estimator *)

Module FeeExtra.
Import FeeSim FeeSpec FeeMore SetupSpec FloatFacts FeeProofs.

Section Runs.
Variable sqrt : Q -> Q.
Variable pp : position_params.
Variable col : vpin_row -> pyfloat.
Variable base_fee_pct : pyfloat.
Variable table : list vpin_row.

Local Abbreviation step := (FeeSim.step sqrt pp col base_fee_pct table)
  (only parsing).
Local Abbreviation loop := (FeeSim.loop sqrt pp col base_fee_pct table)
  (only parsing).
Local Abbreviation init := (FeeSim.init col table) (only parsing).
Local Abbreviation amounts_at :=
  (fun p => calculate_token_amounts_at_price sqrt p pp) (only parsing).

(** What one iteration returns. *)
Lemma step_outcome (st : loop_state) (r : row) :
  (exists st' e, step st r = Ok st' /\ inventory_exposure_var st' = Some e /\
                 ((tradeable r = true /\ exists ps, amounts_at (price r) = Ok ps)
                  \/ (tradeable r = false /\ inventory_exposure_var st <> None)))
  \/ (tradeable r = true /\ exists e, amounts_at (price r) = Err e /\
                                      step st r = Err e)
  \/ (tradeable r = false /\ inventory_exposure_var st = None /\
      step st r = Err UnboundLocalError).
Proof.
  rewrite step_estimate. destruct (tradeable r) eqn:Ht.
  - rewrite (estimate_tradeable _ _ _ _ Ht).
    destruct (calculate_token_amounts_at_price sqrt (price r) pp)
      as [ps|e] eqn:Eps.
    + left. destruct (latest_illiq st); cbv zeta;
        do 2 eexists; (split; [reflexivity|]); cbn [inventory_exposure_var];
        (split; [reflexivity|]); left; eauto.
    + right. left. eauto.
  - rewrite (estimate_not_tradeable _ _ _ _ Ht).
    destruct (inventory_exposure_var st) as [e|] eqn:Ee.
    + left. cbv zeta. do 2 eexists. split; [reflexivity|].
      cbn [inventory_exposure_var]. split; [reflexivity|].
      right. split; [reflexivity|discriminate].
    + right. right. auto.
Qed.

(** Once the exposure variable is bound, the loop returns exactly when
    every trade of positive volume can be priced, and fails with the error
    of the first one that cannot. *)
Lemma loop_bound data :
  forall st,
    inventory_exposure_var st <> None ->
    (Forall (priced sqrt pp) data /\ exists st', loop data st = Ok st')
    \/ (exists r e, In r data /\ tradeable r = true /\
                    amounts_at (price r) = Err e /\ loop data st = Err e).
Proof.
  induction data as [|r data IH]; intros st Hb; cbn [FeeSim.loop].
  - left. split; [constructor|eauto].
  - destruct (step_outcome st r)
      as [(st' & e & Hs & He & Hcase)|[(Ht & e & He & Hs)|(_ & Hn & _)]].
    + rewrite Hs. cbn [bind].
      assert (Hb' : inventory_exposure_var st' <> None) by congruence.
      destruct (IH st' Hb') as [(Hall & Hok)|(r' & e' & Hin & Ht & He' & Hl)].
      * left. split; [|exact Hok]. constructor; [|exact Hall].
        intros Ht. destruct Hcase as [(_ & Hps)|(Hf & _)];
          [exact Hps|congruence].
      * right. exists r', e'. cbn [In]. auto.
    + right. exists r, e. rewrite Hs. cbn [In bind]. auto.
    + contradiction.
Qed.

Lemma loop_outcome data :
  (starts_with_a_trade data /\ Forall (priced sqrt pp) data /\
   exists st, loop data init = Ok st)
  \/ (exists r rest, data = r :: rest /\ tradeable r = false /\
                     loop data init = Err UnboundLocalError)
  \/ (exists r e, In r data /\ tradeable r = true /\
                  amounts_at (price r) = Err e /\ loop data init = Err e).
Proof.
  destruct data as [|r data]; cbn [FeeSim.loop].
  - left. split; [exact I|]. split; [constructor|eauto].
  - destruct (step_outcome (FeeSim.init col table) r)
      as [(st' & e & Hs & He & Hcase)|[(Ht & e & He & Hs)|(Ht & _ & Hs)]].
    + destruct Hcase as [(Ht & Hps)|(_ & Hn)];
        [|cbn [FeeSim.init inventory_exposure_var] in Hn; congruence].
      rewrite Hs. cbn [bind].
      assert (Hb' : inventory_exposure_var st' <> None) by congruence.
      destruct (loop_bound data st' Hb')
        as [(Hall & Hok)|(r' & e' & Hin & Ht' & He' & Hl)].
      * left. split; [exact Ht|]. split; [|exact Hok].
        constructor; [|exact Hall]. intros _. exact Hps.
      * right. right. exists r', e'. cbn [In]. auto.
    + right. right. exists r, e. rewrite Hs. cbn [In bind]. auto.
    + right. left. exists r, data. rewrite Hs. auto.
Qed.

(** The [k]-th row of the result, from the state the rows before the
    [k]-th led to. *)
Lemma run_row data stf k r o :
  loop data init = Ok stf ->
  nth_error data k = Some r -> nth_error (results stf) k = Some o ->
  exists stk ie epi eil,
    loop (firstn k data) init = Ok stk /\
    FeeSim.estimate sqrt pp stk r = Ok (Some ie, epi, eil) /\
    let a := Float.abs (tradevolume r) in
    let tox := snd (FeeSim.cursor_at col table stk (timestamp r)) in
    let fraction :=
      match tox with Some v => (eil * v)%fl | None => Fin 0 end in
    let base := if tradeable r then (base_fee_pct / Fin 100 * a)%fl
                else Fin 0 in
    let absolute := if tradeable r then (fraction * a)%fl else Fin 0 in
    o = {| out_timestamp := timestamp r;
           out_price := price r;
           trade_volume := tradevolume r;
           abs_trade_volume := a;
           out_ILLIQ := current_illiq r;
           vpin_used := tox;
           estimated_price_impact := epi;
           expected_impermanent_loss := eil;
           base_fee := base;
           vpin_fee_pct_of_volume := fraction;
           vpin_fee_absolute := absolute;
           total_fee := (base + absolute)%fl;
           fee_pct_of_volume :=
             if tradeable r then ((base + absolute) / a)%fl else Fin 0;
           out_inventory_exposure := ie |}.
Proof.
  intros Hloop Hr Ho.
  destruct (loop_nth sqrt pp col base_fee_pct table data
                     (FeeSim.init col table) stf k r o
                     eq_refl Hloop Hr Ho)
    as (stk & stk' & Hpre & Hstep & Hres).
  rewrite step_estimate in Hstep.
  destruct (FeeSim.estimate sqrt pp stk r) as [[[[ie|] epi] eil]|e] eqn:Ee;
    try discriminate.
  cbv zeta in Hstep. injection Hstep as <-. cbn [results] in Hres.
  apply app_inv_head in Hres. injection Hres as <-.
  exists stk, ie, epi, eil. split; [exact Hpre|].
  split; [exact Ee|reflexivity].
Qed.

Lemma run_length data stf :
  loop data init = Ok stf -> length (results stf) = length data.
Proof.
  intros H. destruct (loop_results _ _ _ _ _ _ _ _ H) as (o & Ho & Hlen).
  rewrite Ho. exact Hlen.
Qed.

(** The positions of the cursor along a run. *)
Lemma loop_trace pre :
  forall st,
    loop pre init = Ok st ->
    exists idxs,
      cursor_trace col table pre (results st) idxs /\
      Forall (fun i => (i <= vpin_idx st)%nat) idxs.
Proof.
  induction pre as [|r pre IH] using rev_ind; intros st.
  - cbn [FeeSim.loop]. intros [= <-]. exists [].
    unfold cursor_trace. cbn [FeeSim.init results length].
    repeat split; constructor.
  - intros H. destruct (loop_snoc_ok _ _ _ _ _ _ _ _ _ H) as (st0 & H0 & Hs).
    destruct (IH _ H0) as (idxs & (Hlen & Hsorted & Hin & Hused & Hnext) & Hle).
    destruct (loop_cursor _ _ _ _ _ _ _ H0) as (Hval & Hidx & _).
    destruct (step_cursor _ _ _ _ _ _ _ _ Hs) as (Ei & _).
    destruct (cursor_at_spec col table st0 (timestamp r) Hval Hidx)
      as (Hval' & Hidx' & Hmono & _ & Hnext').
    rewrite step_estimate in Hs.
    destruct (FeeSim.estimate sqrt pp st0 r) as [[[[ie|] epi] eil]|e];
      try discriminate.
    cbv zeta in Hs. injection Hs as <-. cbn [results vpin_idx] in *.
    set (i' := fst (FeeSim.cursor_at col table st0 (timestamp r))) in *.
    exists (idxs ++ [i']). split; [split; [|split; [|split; [|split]]]|].
    + rewrite !length_app. cbn [length]. lia.
    + apply VpinExtra.StronglySorted_snoc; [exact Hsorted|].
      eapply Forall_impl; [|exact Hle]. cbn. intros; lia.
    + apply Forall_app. split; [exact Hin|]. constructor; [exact Hidx'|].
      constructor.
    + apply Forall2_app; [exact Hused|]. constructor; [|constructor].
      cbn [vpin_used]. exact Hval'.
    + apply Forall2_app; [exact Hnext|]. constructor; [|constructor].
      exact Hnext'.
    + apply Forall_app. split.
      * eapply Forall_impl; [|exact Hle]. cbn. intros; lia.
      * constructor; [lia|constructor].
Qed.

End Runs.

(** X6.  With a table of buckets and one of its three VPIN columns, the
    estimator returns exactly when the first row of the data, if there is
    one, has a positive absolute volume and the position can be computed
    at the price of every row of positive volume; this does not depend on
    the table, on the column or on the base rate.  When it fails, it fails
    with [UnboundLocalError] on a first row without volume, or with the
    error the position computation raises for a row of positive volume;
    the rows already computed are lost. *)
Theorem run_returns_iff_every_trade_is_priced
        sqrt data table pp vpin_type col bf :
  vpin_column vpin_type = Some col ->
  ((exists outs,
       calculate_fees_with_vpin_full_timeseries sqrt data (Some table) pp
                                                vpin_type bf = Ok outs)
   <-> starts_with_a_trade data /\ Forall (priced sqrt pp) data) /\
  (forall e,
      calculate_fees_with_vpin_full_timeseries sqrt data (Some table) pp
                                               vpin_type bf = Err e ->
      (e = UnboundLocalError /\ ~ starts_with_a_trade data) \/
      (exists r, In r data /\ tradeable r = true /\
                 calculate_token_amounts_at_price sqrt (price r) pp
                 = Err e)).
Proof.
  intros Ecol.
  rewrite (calculate_fees_loop _ _ _ _ _ _ _ Ecol).
  destruct (loop_outcome sqrt pp col bf table data)
    as [(Hst & Hall & st & Hl)|[(r & rest & -> & Ht & Hl)
                               |(r & e & Hin & Ht & He & Hl)]];
    rewrite Hl; cbn [bind].
  - split; [split; eauto|]. intros e H. discriminate H.
  - split.
    + split; [intros (outs & H); discriminate H|].
      intros (Hs & _). cbn [starts_with_a_trade] in Hs. congruence.
    + intros e [= <-]. left. split; [reflexivity|].
      cbn [starts_with_a_trade]. congruence.
  - split.
    + split; [intros (outs & H); discriminate H|].
      intros (_ & Hall). rewrite Forall_forall in Hall.
      destruct (Hall r Hin Ht) as (ps & Hps). congruence.
    + intros e' [= <-]. right. eauto.
Qed.

(** X7.  A run that returns gives one row per row of the data, in the
    order of the data and without leaving out the rows that carry no
    volume.  Each row repeats the timestamp, the price and the signed
    volume of its trade, and holds the absolute value of that volume.  The
    impact observation it reports is the one of its trade when that one
    counts and none otherwise: a reported observation is never NaN nor
    zero. *)
Theorem one_row_per_row_of_the_data
        sqrt data table pp vpin_type bf col outs :
  vpin_column vpin_type = Some col ->
  calculate_fees_with_vpin_full_timeseries sqrt data (Some table) pp
                                           vpin_type bf = Ok outs ->
  length outs = length data /\
  forall k r o,
    nth_error data k = Some r -> nth_error outs k = Some o ->
    out_timestamp o = timestamp r /\
    out_price o = price r /\
    trade_volume o = tradevolume r /\
    abs_trade_volume o = Float.abs (tradevolume r) /\
    out_ILLIQ o = current_illiq r /\
    (forall x, out_ILLIQ o = Some x ->
               ILLIQ r = Some x /\ x <> NaN /\ ~ (x =~ Fin 0)%fl).
Proof.
  intros Hcol Hok.
  destruct (calculate_fees_ok _ _ _ _ _ _ _ _ Hcol Hok) as (stf & Hloop & <-).
  split; [exact (run_length _ _ _ _ _ _ _ Hloop)|].
  intros k r o Hr Ho.
  destruct (run_row _ _ _ _ _ _ _ _ _ _ Hloop Hr Ho)
    as (stk & ie & epi & eil & _ & _ & ->).
  cbn [out_timestamp out_price trade_volume abs_trade_volume out_ILLIQ].
  repeat (split; [reflexivity|]).
  intros x Hx. apply current_illiq_valid. exact Hx.
Qed.

Lemma tradeable_fin (r : row) (v : Q) :
  tradevolume r = Fin v -> ~ v == 0 ->
  tradeable r = true /\ 0 < Qabs v.
Proof.
  intros Hv Hv0. unfold tradeable. rewrite Hv. cbn [Float.abs].
  assert (Ha : 0 < Qabs v).
  { pose proof (Qabs_nonneg v). destruct (Qeq_dec (Qabs v) 0) as [E|E].
    - exfalso. apply Hv0. revert E. apply Qabs_case; intros; lra.
    - lra. }
  split; [|exact Ha]. unfold Float.gtb. apply ltb_fin. exact Ha.
Qed.

(** X8.  For a trade of finite, non-zero volume [v], a finite base rate
    [b] (in percent) and a finite toxicity fee fraction [f], the total fee
    is [(b / 100 + f) * |v|] and the column [fee_pct_of_volume] holds
    [b / 100 + f]: a fraction of the volume, the base rate divided by
    100 plus the toxicity fee fraction, not a percentage. *)
Theorem fee_fraction_is_base_rate_plus_toxicity_fraction
        sqrt data table pp vpin_type col (b : Q) outs k r o (v f : Q) :
  vpin_column vpin_type = Some col ->
  calculate_fees_with_vpin_full_timeseries sqrt data (Some table) pp
                                           vpin_type (Fin b) = Ok outs ->
  nth_error data k = Some r -> nth_error outs k = Some o ->
  tradevolume r = Fin v -> ~ v == 0 ->
  vpin_fee_pct_of_volume o = Fin f ->
  (base_fee o =~ Fin (b / 100 * Qabs v))%fl /\
  (vpin_fee_absolute o =~ Fin (f * Qabs v))%fl /\
  (total_fee o =~ Fin ((b / 100 + f) * Qabs v))%fl /\
  (fee_pct_of_volume o =~ Fin (b / 100 + f))%fl.
Proof.
  intros Hcol Hok Hr Ho Hv Hv0.
  destruct (calculate_fees_ok _ _ _ _ _ _ _ _ Hcol Hok) as (stf & Hloop & <-).
  destruct (run_row _ _ _ _ _ _ _ _ _ _ Hloop Hr Ho)
    as (stk & ie & epi & eil & _ & _ & ->).
  destruct (tradeable_fin r v Hv Hv0) as (Ht & Ha).
  cbn [vpin_fee_pct_of_volume base_fee vpin_fee_absolute total_fee
       fee_pct_of_volume].
  rewrite Ht, Hv. cbn [Float.abs]. intros ->.
  assert (H100 : ~ 100 == 0) by discriminate.
  assert (Ha0 : ~ Qabs v == 0) by lra.
  rewrite (div_fin _ _ H100). cbn [Float.mul Float.add].
  rewrite (div_fin _ _ Ha0). cbn [Float.eq].
  split; [reflexivity|]. split; [reflexivity|]. split; [lra|].
  field. exact Ha0.
Qed.

(** *** The position at a price *)

Lemma pydiv_fin (x y : Q) :
  ~ y == 0 -> pydiv (Fin x) (Fin y) = Ok (Fin (x / y)).
Proof.
  intros Hy. unfold pydiv, Float.eqb. cbn [Float.cmp].
  destruct (y ?= 0) eqn:E.
  - apply Qeq_alt in E. contradiction.
  - rewrite (div_fin _ _ Hy). reflexivity.
  - rewrite (div_fin _ _ Hy). reflexivity.
Qed.

Lemma math_sqrt_fin sqrt (p : Q) :
  0 <= p -> math_sqrt sqrt (Fin p) = Ok (Fin (sqrt p)).
Proof.
  intros Hp. cbn [math_sqrt].
  destruct (Qle_bool 0 p) eqn:E; [reflexivity|].
  apply Qle_bool_iff in Hp. congruence.
Qed.

Lemma math_sqrt_negative sqrt (p : Q) :
  p < 0 -> math_sqrt sqrt (Fin p) = Err ValueError.
Proof.
  intros Hp. cbn [math_sqrt].
  destruct (Qle_bool 0 p) eqn:E; [|reflexivity].
  apply Qle_bool_iff in E. lra.
Qed.

(** The exposure, given finite non-negative amounts. *)
Lemma exposure_of_amounts (t0 t1 p : Q) :
  0 <= t0 -> 0 <= t1 -> 0 <= p ->
  exists e,
    (if (Fin t0 * Fin p + Fin t1 >? Fin 0)%fl
     then pydiv (Fin t0 * Fin p)%fl (Fin t0 * Fin p + Fin t1)%fl
     else Ok (Fin 0)) = Ok (Fin e) /\
    0 <= e <= 1 /\
    (0 < t0 * p -> t1 == 0 -> e == 1) /\
    (t0 == 0 -> e == 0).
Proof.
  intros H0 H1 Hp. cbn [Float.mul Float.add]. unfold Float.gtb.
  assert (Hn : 0 <= t0 * p) by nra.
  destruct (Float.ltb (Fin 0) (Fin (t0 * p + t1))) eqn:E.
  - apply ltb_fin in E.
    assert (Hd : ~ t0 * p + t1 == 0) by lra.
    rewrite (pydiv_fin _ _ Hd). eexists. split; [reflexivity|].
    assert (Hq : t0 * p / (t0 * p + t1) * (t0 * p + t1) == t0 * p)
      by (field; exact Hd).
    set (e := t0 * p / (t0 * p + t1)) in *.
    split; [split; nra|]. split.
    + intros Hpos Ht1. nra.
    + intros Ht0. nra.
  - apply ltb_fin_false in E. exists 0. split; [reflexivity|].
    split; [lra|]. split; [intros; nra|intros; lra].
Qed.

(** The position at a finite price, for a position of positive liquidity
    between two positive square-root bounds. *)
Lemma amounts_spec
        sqrt (pp : position_params) (L sl su lo up p : Q) :
  liquidity pp = Fin L -> sqrt_lower pp = Fin sl ->
  sqrt_upper pp = Fin su -> lower_price pp = Fin lo ->
  upper_price pp = Fin up ->
  0 < L -> 0 < sl -> sl < su ->
  (lo < p -> p < up -> 0 < sqrt p /\ sl <= sqrt p <= su) ->
  0 <= p ->
   exists ps t0 t1 e,
     calculate_token_amounts_at_price sqrt (Fin p) pp = Ok ps /\
     token0 ps = Fin t0 /\ token1 ps = Fin t1 /\
     inventory_exposure ps = Fin e /\
     0 <= t0 /\ 0 <= t1 /\ 0 <= e <= 1 /\
     (p <= lo -> t1 == 0 /\ 0 < t0 /\ (0 < p -> e == 1)) /\
     (lo < p -> up <= p -> t0 == 0 /\ 0 < t1 /\ e == 0) /\
     (lo < p -> p < up ->
      (sqrt p < su -> 0 < t0) /\ (sl < sqrt p -> 0 < t1)).
Proof.
  intros HL Hsl Hsu Hlo Hup HL0 Hsl0 Hslu Hin Hp.
  unfold calculate_token_amounts_at_price.
  rewrite HL, Hsl, Hsu, Hlo, Hup.
  rewrite (math_sqrt_fin _ _ Hp). cbn [bind].
  unfold Float.sub. cbn [Float.neg Float.add Float.mul].
  destruct (Float.leb (Fin p) (Fin lo)) eqn:Elo.
  - apply leb_fin in Elo.
    assert (Hd : ~ sl * su == 0) by nra.
    rewrite (pydiv_fin _ _ Hd). cbn [bind].
    assert (Hq : L * (su + - sl) / (sl * su) * (sl * su) == L * (su + - sl))
      by (field; split; lra).
    set (t0 := L * (su + - sl) / (sl * su)) in *.
    assert (Ht0 : 0 < t0) by nra.
    destruct (exposure_of_amounts t0 0 p) as (e & He & Hebounds & He1 & _);
      [lra|lra|exact Hp|].
    rewrite He. cbn [bind].
    eexists. exists t0, 0, e. split; [reflexivity|].
    cbn [token0 token1 inventory_exposure].
    repeat (split; [reflexivity|]).
    split; [lra|]. split; [lra|]. split; [exact Hebounds|]. split.
    + intros _. split; [reflexivity|]. split; [exact Ht0|].
      intros Hp0. apply He1; [nra|reflexivity].
    + split; intros Hgt; lra.
  - apply leb_fin_false in Elo. unfold Float.geb.
    destruct (Float.leb (Fin up) (Fin p)) eqn:Eup.
    + apply leb_fin in Eup. cbn [bind].
      destruct (exposure_of_amounts 0 (L * (su + - sl)) p)
        as (e & He & Hebounds & _ & He0); [lra|nra|exact Hp|].
      rewrite He. cbn [bind].
      eexists. exists 0, (L * (su + - sl)), e. split; [reflexivity|].
      cbn [token0 token1 inventory_exposure].
      repeat (split; [reflexivity|]).
      split; [lra|]. split; [nra|]. split; [exact Hebounds|]. split.
      * intros Hle. lra.
      * split; [|intros _ Hlt; lra].
        intros _ _. split; [reflexivity|]. split; [nra|].
        apply He0. reflexivity.
    + apply leb_fin_false in Eup.
      destruct (Hin Elo Eup) as (Hs0 & Hs1 & Hs2).
      assert (Hd : ~ sqrt p * su == 0) by nra.
      rewrite (pydiv_fin _ _ Hd). cbn [bind].
      assert (Hq : L * (su + - sqrt p) / (sqrt p * su) * (sqrt p * su)
                   == L * (su + - sqrt p))
        by (field; split; lra).
      set (t0 := L * (su + - sqrt p) / (sqrt p * su)) in *.
      assert (Ht0 : 0 <= t0) by nra.
      destruct (exposure_of_amounts t0 (L * (sqrt p + - sl)) p)
        as (e & He & Hebounds & _ & _); [exact Ht0|nra|exact Hp|].
      rewrite He. cbn [bind].
      eexists. exists t0, (L * (sqrt p + - sl)), e. split; [reflexivity|].
      cbn [token0 token1 inventory_exposure].
      repeat (split; [reflexivity|]).
      split; [exact Ht0|]. split; [nra|]. split; [exact Hebounds|]. split.
      * intros Hle. lra.
      * split; [intros _ Hge; lra|]. intros _ _. split.
        -- intros Hlt. nra.
        -- intros Hlt. nra.
Qed.

(** X9.  At a negative price the position cannot be computed:
    [ValueError].  At a finite price that is not negative, above the lower
    price and at or above the upper price, it is computed, whatever the
    finite liquidity and square-root bounds: it holds no token0, its
    amount of token1 is [liquidity * (sqrt_upper - sqrt_lower)] and its
    inventory exposure is 0. *)
Theorem no_token0_at_or_above_the_upper_price
        sqrt (pp : position_params) (L sl su lo up p : Q) :
  liquidity pp = Fin L -> sqrt_lower pp = Fin sl ->
  sqrt_upper pp = Fin su -> lower_price pp = Fin lo ->
  upper_price pp = Fin up ->
  (p < 0 ->
   calculate_token_amounts_at_price sqrt (Fin p) pp = Err ValueError) /\
  (0 <= p -> lo < p -> up <= p ->
   exists ps,
     calculate_token_amounts_at_price sqrt (Fin p) pp = Ok ps /\
     token0 ps = Fin 0 /\
     token1 ps = (liquidity pp * (sqrt_upper pp - sqrt_lower pp))%fl /\
     (inventory_exposure ps =~ Fin 0)%fl).
Proof.
  intros HL Hsl Hsu Hlo Hup. split.
  - intros Hp. unfold calculate_token_amounts_at_price.
    rewrite (math_sqrt_negative _ _ Hp). reflexivity.
  - intros Hp Hlop Hupp. unfold calculate_token_amounts_at_price.
    rewrite HL, Hsl, Hsu, Hlo, Hup.
    rewrite (math_sqrt_fin _ _ Hp). cbn [bind].
    assert (Elo : Float.leb (Fin p) (Fin lo) = false)
      by (apply leb_fin_false; exact Hlop).
    assert (Eup : Float.geb (Fin p) (Fin up) = true)
      by (apply leb_fin; exact Hupp).
    rewrite Elo, Eup. cbn [bind].
    unfold Float.sub. cbn [Float.neg Float.add Float.mul]. unfold Float.gtb.
    destruct (Float.ltb (Fin 0) (Fin (0 * p + L * (su + - sl)))) eqn:E.
    + apply ltb_fin in E.
      assert (Hd : ~ 0 * p + L * (su + - sl) == 0) by lra.
      rewrite (pydiv_fin _ _ Hd). cbn [bind].
      eexists. split; [reflexivity|].
      cbn [token0 token1 inventory_exposure Float.eq].
      split; [reflexivity|]. split; [reflexivity|].
      unfold Qdiv. ring.
    + cbn [bind]. eexists. split; [reflexivity|].
      cbn [token0 token1 inventory_exposure Float.eq].
      split; [reflexivity|]. split; reflexivity.
Qed.

(** X10.  Whatever the order of the rows and of the buckets, the
    toxicity value reported with a row is the value of a bucket of the
    table, and no value only when the table is empty; the position of that
    bucket never decreases from a row to the next, so that a row that
    comes after a later one is priced with the bucket reached by then; and
    the bucket that follows the one used, if there is one, closes after the
    row. *)
Theorem toxicity_cursor_moves_forward_only
        sqrt data table pp vpin_type bf col outs :
  vpin_column vpin_type = Some col ->
  calculate_fees_with_vpin_full_timeseries sqrt data (Some table) pp
                                           vpin_type bf = Ok outs ->
  (exists idxs, cursor_trace col table data outs idxs) /\
  (table = [] -> Forall (fun o => vpin_used o = None) outs) /\
  (table <> [] ->
   Forall (fun o => exists b, In b table /\ vpin_used o = Some (col b))
          outs).
Proof.
  intros Hcol Hok.
  destruct (calculate_fees_ok _ _ _ _ _ _ _ _ Hcol Hok) as (stf & Hloop & <-).
  destruct (loop_trace _ _ _ _ _ _ _ Hloop) as (idxs & Htrace & _).
  split; [eauto|].
  destruct Htrace as (_ & _ & Hin & Hused & _).
  clear Hok Hloop. revert Hin. induction Hused as [|i o idxs outs Hio _ IH]; intros Hin.
  - split; constructor.
  - inversion Hin as [|? ? Hi Hrest]; subst.
    destruct (IH Hrest) as (IH1 & IH2). split.
    + intros ->. constructor; [|apply IH1; reflexivity].
      rewrite Hio. destruct i; reflexivity.
    + intros Hne. constructor; [|apply IH2; exact Hne].
      assert (Hlt : (i < length table)%nat).
      { destruct Hi as [->|Hi]; [|exact Hi].
        destruct table; [congruence|cbn [length]; lia]. }
      destruct (nth_error table i) as [b|] eqn:Eb.
      * exists b. split; [eapply nth_error_In; exact Eb|exact Hio].
      * apply nth_error_None in Eb. lia.
Qed.

(** *** The position along the range *)

(** The position at a price strictly inside the range. *)
Lemma amounts_inside
      sqrt (pp : position_params) (L sl su lo up p : Q) :
  liquidity pp = Fin L -> sqrt_lower pp = Fin sl ->
  sqrt_upper pp = Fin su -> lower_price pp = Fin lo ->
  upper_price pp = Fin up ->
  0 < L -> 0 < sl -> sl < su ->
  lo < p -> p < up -> 0 < p ->
  0 < sqrt p -> sl <= sqrt p -> sqrt p <= su ->
  exists ps t0 e,
    calculate_token_amounts_at_price sqrt (Fin p) pp = Ok ps /\
    token0 ps = Fin t0 /\
    t0 * (sqrt p * su) == L * (su - sqrt p) /\
    token1 ps = Fin (L * (sqrt p + - sl)) /\
    inventory_exposure ps = Fin e /\
    0 < t0 * p + L * (sqrt p + - sl) /\
    e * (t0 * p + L * (sqrt p + - sl)) == t0 * p.
Proof.
  intros HL Hsl Hsu Hlo Hup HL0 Hsl0 Hslu Hlop Hpup Hp Hs0 Hsls Hssu.
  unfold calculate_token_amounts_at_price.
  rewrite HL, Hsl, Hsu, Hlo, Hup.
  rewrite (math_sqrt_fin _ _ (Qlt_le_weak _ _ Hp)). cbn [bind].
  rewrite (proj2 (leb_fin_false p lo) Hlop). unfold Float.geb.
  rewrite (proj2 (leb_fin_false up p) Hpup).
  unfold Float.sub. cbn [Float.neg Float.add Float.mul].
  assert (Hd : ~ sqrt p * su == 0) by nra.
  rewrite (pydiv_fin _ _ Hd). cbn [bind Float.mul Float.add].
  assert (Hq : L * (su + - sqrt p) / (sqrt p * su) * (sqrt p * su)
               == L * (su + - sqrt p))
    by (field; split; lra).
  set (t0 := L * (su + - sqrt p) / (sqrt p * su)) in *.
  assert (Ht0 : 0 <= t0) by nra.
  assert (Hcase : 0 < t0 \/ 0 < L * (sqrt p + - sl)).
  { destruct (Qlt_le_dec sl (sqrt p)) as [H|H]; [right; nra|left].
    assert (E : sqrt p == sl) by lra. nra. }
  assert (Htv : 0 < t0 * p + L * (sqrt p + - sl)).
  { assert (0 <= L * (sqrt p + - sl)) by nra.
    destruct Hcase; nra. }
  unfold Float.gtb. rewrite (proj2 (ltb_fin _ _) Htv).
  assert (Hd3 : ~ t0 * p + L * (sqrt p + - sl) == 0) by lra.
  rewrite (pydiv_fin _ _ Hd3). cbn [bind].
  eexists. exists t0. eexists. split; [reflexivity|].
  cbn [token0 token1 inventory_exposure].
  split; [reflexivity|]. split; [lra|]. split; [reflexivity|].
  split; [reflexivity|]. split; [exact Htv|].
  field. exact Hd3.
Qed.

(** A share [x / (x + y)] falls when [x] falls relative to [y]. *)
Lemma share_falls (x1 y1 x2 y2 e1 e2 : Q) :
  0 < x1 + y1 -> 0 < x2 + y2 ->
  e1 * (x1 + y1) == x1 -> e2 * (x2 + y2) == x2 ->
  x2 * y1 <= x1 * y2 -> e2 <= e1.
Proof.
  intros H1 H2 E1 E2 Hxy.
  assert (Hd : 0 < (x1 + y1) * (x2 + y2)) by nra.
  apply (Qmult_le_r _ _ _ Hd).
  assert (Ea : e2 * ((x1 + y1) * (x2 + y2)) == x2 * (x1 + y1)).
  { rewrite <- E2 at 2. ring. }
  assert (Eb : e1 * ((x1 + y1) * (x2 + y2)) == x1 * (x2 + y2)).
  { rewrite <- E1 at 2. ring. }
  rewrite Ea, Eb. nra.
Qed.

(** X11.  Inside the range of a position of positive liquidity, at
    prices whose square roots are exact, a higher price means less token0,
    more token1 and a lower (or equal) inventory exposure: the exposure
    falls from 1 towards 0 as the price rises from the lower to the upper
    bound. *)
Theorem exposure_falls_as_the_price_rises
        sqrt (pp : position_params) (L sl su lo up p1 p2 : Q) :
  liquidity pp = Fin L -> sqrt_lower pp = Fin sl ->
  sqrt_upper pp = Fin su -> lower_price pp = Fin lo ->
  upper_price pp = Fin up ->
  0 < L -> 0 < sl -> sl < su ->
  lo < p1 -> p1 <= p2 -> p2 < up -> 0 < p1 ->
  0 < sqrt p1 -> sqrt p1 * sqrt p1 == p1 ->
  0 < sqrt p2 -> sqrt p2 * sqrt p2 == p2 ->
  sl <= sqrt p1 -> sqrt p2 <= su ->
  exists ps1 ps2 a1 a2 b1 b2 e1 e2,
    calculate_token_amounts_at_price sqrt (Fin p1) pp = Ok ps1 /\
    calculate_token_amounts_at_price sqrt (Fin p2) pp = Ok ps2 /\
    token0 ps1 = Fin a1 /\ token0 ps2 = Fin a2 /\ a2 <= a1 /\
    token1 ps1 = Fin b1 /\ token1 ps2 = Fin b2 /\ b1 <= b2 /\
    inventory_exposure ps1 = Fin e1 /\ inventory_exposure ps2 = Fin e2 /\
    e2 <= e1.
Proof.
  intros HL Hsl Hsu Hlo Hup HL0 Hsl0 Hslu Hlop Hp12 Hpup Hp1
         Hs1 Hsq1 Hs2 Hsq2 Hsl1 Hsu2.
  set (s1 := sqrt p1) in *. set (s2 := sqrt p2) in *.
  assert (Hs12 : s1 <= s2).
  { destruct (Qlt_le_dec s2 s1) as [H|H]; [|exact H]. exfalso. nra. }
  destruct (amounts_inside sqrt pp L sl su lo up p1 HL Hsl Hsu Hlo Hup HL0
                           Hsl0 Hslu)
    as (ps1 & a1 & e1 & Hps1 & Ha1 & Hq1 & Hb1 & He1 & Htv1 & Hx1);
    try assumption; try lra; [fold s1; lra|fold s1 in Hq1, Hb1, Htv1, Hx1].
  destruct (amounts_inside sqrt pp L sl su lo up p2 HL Hsl Hsu Hlo Hup HL0
                           Hsl0 Hslu)
    as (ps2 & a2 & e2 & Hps2 & Ha2 & Hq2 & Hb2 & He2 & Htv2 & Hx2);
    try assumption; try lra; [fold s2; lra|fold s2 in Hq2, Hb2, Htv2, Hx2].
  exists ps1, ps2, a1, a2, (L * (s1 + - sl)), (L * (s2 + - sl)), e1, e2.
  split; [exact Hps1|]. split; [exact Hps2|].
  split; [exact Ha1|]. split; [exact Ha2|].
  assert (Hsu0 : 0 < su) by lra.
  (* token0, times the square root of the upper bound *)
  assert (Ha1' : a1 * s1 * su == L * (su - s1)) by (rewrite <- Hq1; ring).
  assert (Ha2' : a2 * s2 * su == L * (su - s2)) by (rewrite <- Hq2; ring).
  assert (Ha12 : a2 <= a1).
  { assert (Hd : 0 < s1 * s2 * su) by (assert (0 < s1 * s2) by nra; nra).
    apply (Qmult_le_r _ _ _ Hd).
    assert (E2 : a2 * (s1 * s2 * su) == L * (su - s2) * s1)
      by (rewrite <- Ha2'; ring).
    assert (E1 : a1 * (s1 * s2 * su) == L * (su - s1) * s2)
      by (rewrite <- Ha1'; ring).
    rewrite E1, E2.
    assert (Hdiff : L * (su - s1) * s2 - L * (su - s2) * s1
                    == L * su * (s2 - s1)) by ring.
    assert (0 <= L * su * (s2 - s1)) by (assert (0 < L * su) by nra; nra).
    lra. }
  split; [exact Ha12|].
  split; [exact Hb1|]. split; [exact Hb2|].
  split; [nra|].
  split; [exact He1|]. split; [exact He2|].
  apply (share_falls (a1 * p1) (L * (s1 + - sl)) (a2 * p2) (L * (s2 + - sl)));
    try assumption.
  (* the value of token0, times the square root of the upper bound *)
  assert (Hv1 : a1 * p1 * su == L * (su - s1) * s1)
    by (rewrite <- Hsq1, <- Ha1'; ring).
  assert (Hv2 : a2 * p2 * su == L * (su - s2) * s2)
    by (rewrite <- Hsq2, <- Ha2'; ring).
  apply (Qmult_le_r _ _ _ Hsu0).
  assert (E2 : a2 * p2 * (L * (s1 + - sl)) * su
               == L * L * ((su - s2) * s2 * (s1 - sl)))
    by (transitivity (a2 * p2 * su * (L * (s1 + - sl)));
        [ring|rewrite Hv2; ring]).
  assert (E1 : a1 * p1 * (L * (s2 + - sl)) * su
               == L * L * ((su - s1) * s1 * (s2 - sl)))
    by (transitivity (a1 * p1 * su * (L * (s2 + - sl)));
        [ring|rewrite Hv1; ring]).
  rewrite E1, E2.
  assert (Hpoly : (su - s1) * s1 * (s2 - sl) - (su - s2) * s2 * (s1 - sl)
                  == (s2 - s1) * (sl * (su - s2) + s1 * (s2 - sl))) by ring.
  assert (Hnn : 0 <= (s2 - s1) * (sl * (su - s2) + s1 * (s2 - sl))).
  { apply Qmult_le_0_compat; [lra|]. nra. }
  assert (HLL : 0 < L * L) by nra.
  nra.
Qed.

(** The position between the prices 1/4 and 16, at the prices 1 and 4. *)
Lemma exposure_falls_as_the_price_rises_witness :
  sqrt_exact 1 * sqrt_exact 1 == 1 /\ sqrt_exact 4 * sqrt_exact 4 == 4 /\
  exists ps1 ps2 e1 e2,
    calculate_token_amounts_at_price sqrt_exact (Fin 1) position_example
    = Ok ps1 /\
    calculate_token_amounts_at_price sqrt_exact (Fin 4) position_example
    = Ok ps2 /\
    inventory_exposure ps1 = Fin e1 /\ inventory_exposure ps2 = Fin e2 /\
    e2 <= e1.
Proof.
  assert (H1 : sqrt_exact 1 * sqrt_exact 1 == 1) by reflexivity.
  assert (H4 : sqrt_exact 4 * sqrt_exact 4 == 4) by reflexivity.
  split; [exact H1|]. split; [exact H4|].
  destruct (exposure_falls_as_the_price_rises
              sqrt_exact position_example 1 (1 # 2) 4 (1 # 4) 16 1 4
              eq_refl eq_refl eq_refl eq_refl eq_refl)
    as (ps1 & ps2 & a1 & a2 & b1 & b2 & e1 & e2 & Hps1 & Hps2 & _ & _ & _
        & _ & _ & _ & He1 & He2 & Hle);
    try assumption; try qcmp.
  exists ps1, ps2, e1, e2. auto.
Defined.

(** *** The properties above on a run of three rows *)

(** A trade, a row without volume and a trade, with the buckets closed at
    0, 5 and 9. *)
Lemma one_row_per_row_of_the_data_witness :
  vpin_column "vpin_daily" = Some vpin_daily /\
  exists outs,
    calculate_fees_with_vpin_full_timeseries
      sqrt_exact (map fst data_impact) (Some table_example)
      position_example "vpin_daily" (Fin (5 # 100)) = Ok outs /\
    length outs = length (map fst data_impact).
Proof.
  assert (Hcol : vpin_column "vpin_daily" = Some vpin_daily) by reflexivity.
  split; [exact Hcol|].
  evaluate (calculate_fees_with_vpin_full_timeseries
              sqrt_exact (map fst data_impact) (Some table_example)
              position_example "vpin_daily" (Fin (5 # 100))) as E.
  eexists. split; [exact E|].
  exact (proj1 (one_row_per_row_of_the_data _ _ _ _ _ _ _ _ Hcol E)).
Defined.

(** The last trade, of volume -10: an impact of 20, an exposure of 0.4
    and a toxicity of 0.6. *)
Lemma fee_fraction_is_base_rate_plus_toxicity_fraction_witness :
  vpin_column "vpin_daily" = Some vpin_daily /\
  ~ -10 == 0 /\
  exists outs o f,
    calculate_fees_with_vpin_full_timeseries
      sqrt_exact (map fst data_impact) (Some table_example)
      position_example "vpin_daily" (Fin (5 # 100)) = Ok outs /\
    nth_error outs 2 = Some o /\
    vpin_fee_pct_of_volume o = Fin f /\ f == 48 # 10 /\
    (fee_pct_of_volume o =~ Fin ((5 # 100) / 100 + f))%fl.
Proof.
  assert (Hcol : vpin_column "vpin_daily" = Some vpin_daily) by reflexivity.
  assert (Hv : ~ -10 == 0) by discriminate.
  split; [exact Hcol|]. split; [exact Hv|].
  evaluate (calculate_fees_with_vpin_full_timeseries
              sqrt_exact (map fst data_impact) (Some table_example)
              position_example "vpin_daily" (Fin (5 # 100))) as E.
  do 3 eexists. split; [exact E|]. split; [reflexivity|].
  split; [reflexivity|]. split; [reflexivity|].
  refine (proj2 (proj2 (proj2
    (fee_fraction_is_base_rate_plus_toxicity_fraction
       sqrt_exact _ _ _ _ _ _ _ 2%nat _ _ (-10) _ Hcol E
       eq_refl eq_refl eq_refl Hv eq_refl)))).
Defined.

(** The position between the prices 1/4 and 16, at the price 25. *)
Lemma no_token0_at_or_above_the_upper_price_witness :
  0 <= 25 /\ (1 # 4) < 25 /\ 16 <= 25 /\
  exists ps,
    calculate_token_amounts_at_price sqrt_exact (Fin 25) position_example
    = Ok ps /\
    token0 ps = Fin 0 /\ (inventory_exposure ps =~ Fin 0)%fl.
Proof.
  assert (H1 : 0 <= 25) by discriminate.
  assert (H2 : (1 # 4) < 25) by reflexivity.
  assert (H3 : 16 <= 25) by discriminate.
  split; [exact H1|]. split; [exact H2|]. split; [exact H3|].
  destruct (proj2 (no_token0_at_or_above_the_upper_price
                     sqrt_exact position_example 1 (1 # 2) 4 (1 # 4) 16 25
                     eq_refl eq_refl eq_refl eq_refl eq_refl) H1 H2 H3)
    as (ps & Hps & H0 & _ & He).
  exists ps. auto.
Defined.

(** The same run: the rows use the buckets 0, 0 and 1. *)
Lemma toxicity_cursor_moves_forward_only_witness :
  vpin_column "vpin_daily" = Some vpin_daily /\
  exists outs,
    calculate_fees_with_vpin_full_timeseries
      sqrt_exact (map fst data_impact) (Some table_example)
      position_example "vpin_daily" (Fin (5 # 100)) = Ok outs /\
    exists idxs,
      cursor_trace vpin_daily table_example (map fst data_impact) outs idxs.
Proof.
  assert (Hcol : vpin_column "vpin_daily" = Some vpin_daily) by reflexivity.
  split; [exact Hcol|].
  evaluate (calculate_fees_with_vpin_full_timeseries
              sqrt_exact (map fst data_impact) (Some table_example)
              position_example "vpin_daily" (Fin (5 # 100))) as E.
  eexists. split; [exact E|].
  exact (proj1 (toxicity_cursor_moves_forward_only _ _ _ _ _ _ _ _ Hcol E)).
Defined.

(** The same run returns: its first row is a trade, and the position is
    computed at the price of both trades. *)
Lemma run_returns_iff_every_trade_is_priced_witness :
  vpin_column "vpin_daily" = Some vpin_daily /\
  (exists outs,
      calculate_fees_with_vpin_full_timeseries
        sqrt_exact (map fst data_impact) (Some table_example)
        position_example "vpin_daily" (Fin (5 # 100)) = Ok outs) /\
  starts_with_a_trade (map fst data_impact) /\
  Forall (priced sqrt_exact position_example) (map fst data_impact).
Proof.
  assert (Hcol : vpin_column "vpin_daily" = Some vpin_daily) by reflexivity.
  split; [exact Hcol|].
  evaluate (calculate_fees_with_vpin_full_timeseries
              sqrt_exact (map fst data_impact) (Some table_example)
              position_example "vpin_daily" (Fin (5 # 100))) as E.
  assert (Hret : exists outs,
             calculate_fees_with_vpin_full_timeseries
               sqrt_exact (map fst data_impact) (Some table_example)
               position_example "vpin_daily" (Fin (5 # 100)) = Ok outs)
    by (eexists; exact E).
  split; [exact Hret|].
  exact (proj1 (proj1 (run_returns_iff_every_trade_is_priced
                         sqrt_exact (map fst data_impact) table_example
                         position_example "vpin_daily" vpin_daily
                         (Fin (5 # 100)) Hcol)) Hret).
Defined.

End FeeExtra.

(** ** The position and the position time series *)

Module SetupProofs.
Import FeeSim FeeSpec FeeMore FeeSetup SetupSpec FloatFacts FeeProofs FeeExtra.

(** *** The price range *)

Lemma leb_refl (x : pyfloat) : x <> NaN -> Float.leb x x = true.
Proof.
  destruct x as [q| | |]; intros H; try reflexivity; [|congruence].
  apply leb_fin. lra.
Qed.

Lemma leb_trans (x y z : pyfloat) :
  Float.leb x y = true -> Float.leb y z = true -> Float.leb x z = true.
Proof.
  destruct x as [a| | |], y as [b| | |], z as [c| | |];
    try reflexivity; try discriminate.
  rewrite !leb_fin. lra.
Qed.

Lemma ltb_leb (x y : pyfloat) :
  Float.ltb x y = true -> Float.leb x y = true.
Proof.
  unfold Float.ltb, Float.leb. destruct (Float.cmp x y) as [[| |]|];
    congruence.
Qed.

Lemma not_ltb_leb (x y : pyfloat) :
  x <> NaN -> y <> NaN -> Float.ltb x y = false -> Float.leb y x = true.
Proof.
  destruct x as [a| | |], y as [b| | |]; intros Hx Hy;
    try reflexivity; try discriminate; try congruence.
  rewrite ltb_fin_false, leb_fin. auto.
Qed.

Lemma filter_notna_spec (l : list pyfloat) (x : pyfloat) :
  In x (filter Float.notna l) <-> In x l /\ x <> NaN.
Proof.
  rewrite filter_In. split; intros (Hin & H); (split; [exact Hin|]).
  - intros ->. discriminate H.
  - destruct x; try reflexivity. congruence.
Qed.

(** The fold that [series_min] runs keeps a lower bound that is one of
    the values seen. *)
Lemma fold_min_spec (xs : list pyfloat) :
  forall m,
    m <> NaN -> Forall (fun y => y <> NaN) xs ->
    let r := fold_left (fun m y => if (y <? m)%fl then y else m) xs m in
    In r (m :: xs) /\ Float.leb r m = true /\
    Forall (fun y => Float.leb r y = true) xs.
Proof.
  induction xs as [|y xs IH]; intros m Hm Hall; cbn [fold_left].
  - split; [left; reflexivity|]. split; [apply leb_refl; exact Hm|constructor].
  - inversion Hall as [|? ? Hy Hxs]; subst.
    destruct (Float.ltb y m) eqn:E.
    + destruct (IH y Hy Hxs) as (Hin & Hle & Hrest).
      split; [right; exact Hin|].
      split; [eapply leb_trans; [exact Hle|apply ltb_leb; exact E]|].
      constructor; assumption.
    + destruct (IH m Hm Hxs) as (Hin & Hle & Hrest).
      split; [destruct Hin as [<-|Hin]; [left; reflexivity|right; right; exact Hin]|].
      split; [exact Hle|].
      constructor; [|exact Hrest].
      eapply leb_trans; [exact Hle|]. apply not_ltb_leb; assumption.
Qed.

Lemma fold_max_spec (xs : list pyfloat) :
  forall m,
    m <> NaN -> Forall (fun y => y <> NaN) xs ->
    let r := fold_left (fun m y => if (m <? y)%fl then y else m) xs m in
    In r (m :: xs) /\ Float.leb m r = true /\
    Forall (fun y => Float.leb y r = true) xs.
Proof.
  induction xs as [|y xs IH]; intros m Hm Hall; cbn [fold_left].
  - split; [left; reflexivity|]. split; [apply leb_refl; exact Hm|constructor].
  - inversion Hall as [|? ? Hy Hxs]; subst.
    destruct (Float.ltb m y) eqn:E.
    + destruct (IH y Hy Hxs) as (Hin & Hle & Hrest).
      split; [right; exact Hin|].
      split; [eapply leb_trans; [apply ltb_leb; exact E|exact Hle]|].
      constructor; assumption.
    + destruct (IH m Hm Hxs) as (Hin & Hle & Hrest).
      split; [destruct Hin as [<-|Hin]; [left; reflexivity|right; right; exact Hin]|].
      split; [exact Hle|].
      constructor; [|exact Hrest].
      eapply leb_trans; [|exact Hle]. apply not_ltb_leb; assumption.
Qed.

Lemma notna_all (l : list pyfloat) :
  Forall (fun y => y <> NaN) (filter Float.notna l).
Proof.
  apply Forall_forall. intros y Hy. apply filter_notna_spec in Hy. tauto.
Qed.

(** [series_min] and [series_max] on a list with an entry that is not
    NaN, and on a list without one. *)
Lemma series_min_spec (l : list pyfloat) :
  (forall x, In x l -> x = NaN) /\ series_min l = NaN
  \/ In (series_min l) l /\ series_min l <> NaN /\
     forall x, In x l -> x <> NaN -> Float.leb (series_min l) x = true.
Proof.
  unfold series_min. pose proof (notna_all l) as Hall.
  pose proof (filter_notna_spec l) as Hspec.
  destruct (filter Float.notna l) as [|m xs].
  - left. split; [|reflexivity]. intros x Hx.
    destruct x as [q| | |]; try reflexivity; exfalso;
      [apply (proj2 (Hspec (Fin q)))|apply (proj2 (Hspec PInf))
       |apply (proj2 (Hspec NInf))];
      split; (exact Hx || discriminate).
  - right. inversion Hall as [|? ? Hm Hxs]; subst.
    destruct (fold_min_spec xs m Hm Hxs) as (Hin & Hle & Hrest).
    cbv zeta in *.
    set (r := fold_left (fun m y => if (y <? m)%fl then y else m) xs m) in *.
    assert (Hr : In r l /\ r <> NaN) by (apply Hspec; exact Hin).
    split; [tauto|]. split; [tauto|].
    intros x Hx Hn.
    assert (Hx' : In x (m :: xs)) by (apply Hspec; auto).
    destruct Hx' as [<-|Hx']; [exact Hle|].
    rewrite Forall_forall in Hrest. auto.
Qed.

Lemma series_max_spec (l : list pyfloat) :
  (forall x, In x l -> x = NaN) /\ series_max l = NaN
  \/ In (series_max l) l /\ series_max l <> NaN /\
     forall x, In x l -> x <> NaN -> Float.leb x (series_max l) = true.
Proof.
  unfold series_max. pose proof (notna_all l) as Hall.
  pose proof (filter_notna_spec l) as Hspec.
  destruct (filter Float.notna l) as [|m xs].
  - left. split; [|reflexivity]. intros x Hx.
    destruct x as [q| | |]; try reflexivity; exfalso;
      [apply (proj2 (Hspec (Fin q)))|apply (proj2 (Hspec PInf))
       |apply (proj2 (Hspec NInf))];
      split; (exact Hx || discriminate).
  - right. inversion Hall as [|? ? Hm Hxs]; subst.
    destruct (fold_max_spec xs m Hm Hxs) as (Hin & Hle & Hrest).
    cbv zeta in *.
    set (r := fold_left (fun m y => if (m <? y)%fl then y else m) xs m) in *.
    assert (Hr : In r l /\ r <> NaN) by (apply Hspec; exact Hin).
    split; [tauto|]. split; [tauto|].
    intros x Hx Hn.
    assert (Hx' : In x (m :: xs)) by (apply Hspec; auto).
    destruct Hx' as [<-|Hx']; [exact Hle|].
    rewrite Forall_forall in Hrest. auto.
Qed.

(** X13.  On a table without rows the price analysis raises
    ([IndexError]); otherwise it returns, the initial price is the price
    of the first row, and the minimum and the maximum are prices of the
    table that bound every price that is not NaN (they are NaN when every
    price is). *)
Theorem price_range_bounds_every_price sqrt (data : list row) :
  (analyze_price_range sqrt data = None <-> data = []) /\
  forall stats,
    analyze_price_range sqrt data = Some stats ->
    (exists first rest,
        data = first :: rest /\ initial_price stats = price first) /\
    (forall r, In r data -> price r <> NaN ->
               Float.leb (min_price stats) (price r) = true /\
               Float.leb (price r) (max_price stats) = true) /\
    ((exists r, In r data /\ price r <> NaN) ->
     (exists r, In r data /\ min_price stats = price r) /\
     (exists r, In r data /\ max_price stats = price r)) /\
    ((forall r, In r data -> price r = NaN) ->
     min_price stats = NaN /\ max_price stats = NaN).
Proof.
  split.
  { destruct data; cbn [analyze_price_range]; split; congruence. }
  intros stats. destruct data as [|first rest] eqn:Ed;
    cbn [analyze_price_range]; [discriminate|].
  rewrite <- Ed. intros [= <-].
  cbn [initial_price min_price max_price].
  split; [exists first, rest; split; [exact Ed|reflexivity]|].
  assert (Hmap : forall r, In r data -> In (price r) (map price data))
    by (intros r; apply in_map).
  destruct (series_min_spec (map price data))
    as [(Hnan & Emin)|(Hmin_in & Hmin_n & Hmin)];
    destruct (series_max_spec (map price data))
      as [(Hnan' & Emax)|(Hmax_in & Hmax_n & Hmax)].
  - split; [intros r Hr Hn; exfalso; apply Hn, Hnan, Hmap, Hr|].
    split; [intros (r & Hr & Hn); exfalso; apply Hn, Hnan, Hmap, Hr|auto].
  - exfalso. apply Hmax_n, Hnan, Hmax_in.
  - exfalso. apply Hmin_n, Hnan', Hmin_in.
  - split; [intros r Hr Hn; split; [apply Hmin|apply Hmax]; auto|].
    split.
    + intros _. apply in_map_iff in Hmin_in, Hmax_in.
      destruct Hmin_in as (r1 & E1 & H1), Hmax_in as (r2 & E2 & H2).
      split; [exists r1|exists r2]; auto.
    + intros Hall. exfalso. apply in_map_iff in Hmin_in.
      destruct Hmin_in as (r1 & E1 & H1). apply Hmin_n. rewrite <- E1.
      apply Hall, H1.
Qed.

(** *** The position *)

Ltac bind_ok H x E :=
  match type of H with
  | bind ?c _ = Ok _ =>
      destruct c as [x|?] eqn:E; cbn [bind] in H; [|discriminate H]
  end.

(** What [calculate_position_parameters] computed when it returns. *)
Lemma position_computed sqrt stats t0 bf pos :
  calculate_position_parameters sqrt stats t0 bf = Ok pos ->
  let lower := (min_price stats * (Fin 1 - bf))%fl in
  let upper := (max_price stats * (Fin 1 + bf))%fl in
  pos_initial_price pos = initial_price stats /\
  pos_lower_price pos = lower /\ pos_upper_price pos = upper /\
  token0_amount pos = t0 /\
  math_sqrt sqrt (upper / lower)%fl = Ok (r_factor pos) /\
  math_sqrt sqrt lower = Ok (pos_sqrt_lower pos) /\
  math_sqrt sqrt upper = Ok (pos_sqrt_upper pos) /\
  math_sqrt sqrt (initial_price stats) = Ok (sqrt_current pos) /\
  pydiv (t0 * (pos_sqrt_upper pos * sqrt_current pos))%fl
        (pos_sqrt_upper pos - sqrt_current pos)%fl
  = Ok (pos_liquidity pos) /\
  token1_amount pos
  = (pos_liquidity pos * (sqrt_current pos - pos_sqrt_lower pos))%fl /\
  pos_total_value pos
  = (t0 * initial_price stats + token1_amount pos)%fl /\
  pos_inventory_exposure pos
  = (t0 * initial_price stats / pos_total_value pos)%fl.
Proof.
  unfold calculate_position_parameters. intros H.
  bind_ok H rf Erf. bind_ok H sl Esl. bind_ok H su Esu.
  bind_ok H sc Esc. bind_ok H L EL.
  injection H as <-. cbv zeta.
  cbn [pos_initial_price pos_lower_price pos_upper_price token0_amount
       r_factor pos_sqrt_lower pos_sqrt_upper sqrt_current pos_liquidity
       token1_amount pos_total_value pos_inventory_exposure].
  repeat split; assumption.
Qed.

Lemma self_difference (x : pyfloat) :
  (Float.abs (x - x) <? tolerance)%fl = Float.is_finite x.
Proof.
  destruct x as [q| | |]; try reflexivity.
  unfold Float.sub, tolerance. cbn [Float.neg Float.add Float.abs
                                     Float.is_finite].
  apply ltb_fin. assert (E : q + - q == 0) by lra.
  rewrite E. reflexivity.
Qed.

(** The verification, once the square roots and the liquidity are
    recomputed. *)
Lemma verification_unfolded sqrt pos sl su sc L :
  math_sqrt sqrt (pos_lower_price pos) = Ok sl ->
  math_sqrt sqrt (pos_upper_price pos) = Ok su ->
  math_sqrt sqrt (pos_initial_price pos) = Ok sc ->
  pydiv (token0_amount pos * (su * sc))%fl (su - sc)%fl = Ok L ->
  let token1 := (L * (sc - sl))%fl in
  let value := (token0_amount pos * pos_initial_price pos + token1)%fl in
  let exposure := (token0_amount pos * pos_initial_price pos / value)%fl in
  verify_position_calculations sqrt pos
  = Ok ((Float.abs (pos_liquidity pos - L) <? tolerance)%fl
        && (Float.abs (token1_amount pos - token1) <? tolerance)%fl
        && (Float.abs (pos_total_value pos - value) <? tolerance)%fl
        && (Float.abs (pos_inventory_exposure pos - exposure)
            <? tolerance)%fl).
Proof.
  intros Hsl Hsu Hsc HL. unfold verify_position_calculations.
  rewrite Hsl, Hsu. cbn [bind]. rewrite Hsc. cbn [bind].
  rewrite HL. reflexivity.
Qed.

(** The verification of a position whose recorded values are what
    [calculate_position_parameters] computes. *)
Lemma verification_of_computed sqrt stats t0 pos :
  pos_initial_price pos = initial_price stats ->
  token0_amount pos = t0 ->
  math_sqrt sqrt (pos_lower_price pos) = Ok (pos_sqrt_lower pos) ->
  math_sqrt sqrt (pos_upper_price pos) = Ok (pos_sqrt_upper pos) ->
  math_sqrt sqrt (initial_price stats) = Ok (sqrt_current pos) ->
  pydiv (t0 * (pos_sqrt_upper pos * sqrt_current pos))%fl
        (pos_sqrt_upper pos - sqrt_current pos)%fl
  = Ok (pos_liquidity pos) ->
  token1_amount pos
  = (pos_liquidity pos * (sqrt_current pos - pos_sqrt_lower pos))%fl ->
  pos_total_value pos
  = (t0 * initial_price stats + token1_amount pos)%fl ->
  pos_inventory_exposure pos
  = (t0 * initial_price stats / pos_total_value pos)%fl ->
  verify_position_calculations sqrt pos
  = Ok (Float.is_finite (pos_liquidity pos)
        && Float.is_finite (token1_amount pos)
        && Float.is_finite (pos_total_value pos)
        && Float.is_finite (pos_inventory_exposure pos)).
Proof.
  intros Hp0 Ht0 Hsl Hsu Hsc HL Ht1 Htv He.
  rewrite <- Hp0 in Hsc, Htv, He. rewrite <- Ht0 in HL, Htv, He.
  rewrite (verification_unfolded sqrt pos _ _ _ _ Hsl Hsu Hsc HL).
  cbv zeta. rewrite <- Ht1, <- Htv, <- He. rewrite !self_difference.
  reflexivity.
Qed.

(** X14.  The verification of a position that
    [calculate_position_parameters] returned raises nothing and recomputes
    the values it is given from the same entries by the same formulas: it
    passes exactly when the liquidity, the token1 amount, the total value
    and the exposure are finite, whatever the square roots were. *)
Theorem verification_passes_iff_values_are_finite
        sqrt stats t0 bf pos :
  calculate_position_parameters sqrt stats t0 bf = Ok pos ->
  verify_position_calculations sqrt pos
  = Ok (Float.is_finite (pos_liquidity pos)
        && Float.is_finite (token1_amount pos)
        && Float.is_finite (pos_total_value pos)
        && Float.is_finite (pos_inventory_exposure pos)).
Proof.
  intros H.
  destruct (position_computed _ _ _ _ _ H)
    as (Hp0 & Hlo & Hup & Ht0 & _ & Hsl & Hsu & Hsc & HL & Ht1 & Htv & He).
  cbv zeta in *. rewrite <- Hlo in Hsl. rewrite <- Hup in Hsu.
  exact (verification_of_computed sqrt stats t0 pos Hp0 Ht0 Hsl Hsu Hsc HL
                                  Ht1 Htv He).
Qed.

(** The position at its initial price, when that price is strictly inside
    the range and the square roots are ordered accordingly. *)
Lemma amounts_at_initial_price
      sqrt stats t0 bf pos (t p0 lo up sl sc su : Q) :
  calculate_position_parameters sqrt stats t0 bf = Ok pos ->
  token0_amount pos = Fin t -> pos_initial_price pos = Fin p0 ->
  pos_lower_price pos = Fin lo -> pos_upper_price pos = Fin up ->
  pos_sqrt_lower pos = Fin sl -> sqrt_current pos = Fin sc ->
  pos_sqrt_upper pos = Fin su ->
  0 < t -> 0 < p0 -> lo < p0 -> p0 < up ->
  sl <= sc -> 0 < sc -> sc < su ->
  exists ps L t0' e,
    calculate_token_amounts_at_price sqrt (pos_initial_price pos)
                                     (params pos) = Ok ps /\
    pos_liquidity pos = Fin L /\ 0 < L /\
    token0 ps = Fin t0' /\ t0' == t /\
    token1 ps = token1_amount pos /\
    token1 ps = Fin (L * (sc + - sl)) /\
    (total_value ps =~ pos_total_value pos)%fl /\
    (inventory_exposure ps =~ pos_inventory_exposure pos)%fl /\
    inventory_exposure ps = Fin e /\ 0 < e <= 1.
Proof.
  intros H Ht Hp0 Hlo Hup Hsl Hsc Hsu Ht0 Hp00 Hlop Hpup Hslc Hsc0 Hscu.
  destruct (position_computed _ _ _ _ _ H)
    as (Ep0 & _ & _ & Et0 & _ & _ & _ & Esc & EL & Et1 & Etv & Ee).
  cbv zeta in *.
  rewrite Hp0 in Ep0. rewrite <- Ep0 in *. rewrite Ht in Et0.
  rewrite <- Et0 in *. rewrite Hsu, Hsc in EL. rewrite Hsc in Esc.
  rewrite Et1 in Etv. rewrite Ee, Etv, Et1, Hsc, Hsl.
  unfold Float.sub in EL. cbn [Float.neg Float.add Float.mul] in EL.
  assert (Hd : ~ su + - sc == 0) by lra.
  rewrite (pydiv_fin _ _ Hd) in EL. injection EL as EL.
  set (L := t * (su * sc) / (su + - sc)) in *.
  assert (HLq : L * (su + - sc) == t * (su * sc))
    by (unfold L; field; exact Hd).
  assert (HL0 : 0 < L).
  { unfold L. apply Qlt_shift_div_l; [lra|].
    assert (0 < su * sc) by nra. nra. }
  unfold calculate_token_amounts_at_price.
  cbn [params liquidity sqrt_lower sqrt_upper lower_price upper_price].
  rewrite Hp0, Esc, Hlo, Hup, Hsl, Hsu, <- EL. cbn [bind].
  assert (E1 : Float.leb (Fin p0) (Fin lo) = false)
    by (apply leb_fin_false; exact Hlop).
  assert (E2 : Float.geb (Fin p0) (Fin up) = false)
    by (unfold Float.geb; apply leb_fin_false; exact Hpup).
  rewrite E1, E2.
  unfold Float.sub. cbn [Float.neg Float.add Float.mul].
  assert (Hd2 : ~ sc * su == 0) by nra.
  rewrite (pydiv_fin _ _ Hd2). cbn [bind].
  assert (Hq : L * (su + - sc) / (sc * su) * (sc * su) == L * (su + - sc))
    by (field; split; lra).
  set (t0' := L * (su + - sc) / (sc * su)) in *.
  assert (Ht0' : t0' == t) by nra.
  cbn [Float.mul Float.add]. unfold Float.gtb.
  assert (Htv : 0 < t0' * p0 + L * (sc + - sl)) by nra.
  assert (Epos : Float.ltb (Fin 0) (Fin (t0' * p0 + L * (sc + - sl))) = true)
    by (apply ltb_fin; exact Htv).
  rewrite Epos.
  assert (Hd3 : ~ t0' * p0 + L * (sc + - sl) == 0) by lra.
  rewrite (pydiv_fin _ _ Hd3). cbn [bind].
  assert (Hd4 : ~ t * p0 + L * (sc + - sl) == 0) by nra.
  rewrite (div_fin _ _ Hd4).
  eexists. exists L, t0', (t0' * p0 / (t0' * p0 + L * (sc + - sl))).
  split; [reflexivity|].
  cbn [token0 token1 total_value inventory_exposure Float.eq].
  split; [reflexivity|]. split; [exact HL0|].
  split; [reflexivity|]. split; [exact Ht0'|].
  split; [reflexivity|]. split; [reflexivity|].
  split; [nra|].
  assert (Hq3 : t0' * p0 / (t0' * p0 + L * (sc + - sl))
                * (t0' * p0 + L * (sc + - sl)) == t0' * p0)
    by (field; exact Hd3).
  assert (Hq4 : t * p0 / (t * p0 + L * (sc + - sl))
                * (t * p0 + L * (sc + - sl)) == t * p0)
    by (field; exact Hd4).
  set (e := t0' * p0 / (t0' * p0 + L * (sc + - sl))) in *.
  set (e' := t * p0 / (t * p0 + L * (sc + - sl))) in *.
  split.
  { assert (Hsame : e * (t * p0 + L * (sc + - sl))
                    == e' * (t * p0 + L * (sc + - sl))).
    { rewrite Hq4. rewrite <- Ht0' at 1. rewrite <- Ht0'. exact Hq3. }
    apply Qmult_inj_r in Hsame; [exact Hsame|exact Hd4]. }
  split; [reflexivity|].
  assert (Hw : 0 < t0' * p0) by nra.
  assert (Hu : 0 <= L * (sc + - sl)) by nra.
  split; nra.
Qed.

(** X15.  When [calculate_position_parameters] returns a position whose
    initial price is positive and strictly inside its range, with a
    positive amount of token0 and square roots in the same order
    (lower at most current, current positive and below upper), the
    position computed back at the initial price holds the amount of token0
    that was deployed and the amount of token1, the value and the exposure
    that the parameters record; the exposure is a share, above 0 and at
    most 1. *)
Theorem position_at_initial_price_is_what_was_deployed
        sqrt stats t0 bf pos (t p0 lo up sl sc su : Q) :
  calculate_position_parameters sqrt stats t0 bf = Ok pos ->
  token0_amount pos = Fin t -> pos_initial_price pos = Fin p0 ->
  pos_lower_price pos = Fin lo -> pos_upper_price pos = Fin up ->
  pos_sqrt_lower pos = Fin sl -> sqrt_current pos = Fin sc ->
  pos_sqrt_upper pos = Fin su ->
  0 < t -> 0 < p0 -> lo < p0 -> p0 < up ->
  sl <= sc -> 0 < sc -> sc < su ->
  exists ps e,
    calculate_token_amounts_at_price sqrt (pos_initial_price pos)
                                     (params pos) = Ok ps /\
    (token0 ps =~ token0_amount pos)%fl /\
    token1 ps = token1_amount pos /\
    (total_value ps =~ pos_total_value pos)%fl /\
    (inventory_exposure ps =~ pos_inventory_exposure pos)%fl /\
    inventory_exposure ps = Fin e /\ 0 < e <= 1.
Proof.
  intros H Ht Hp0 Hlo Hup Hsl Hsc Hsu Ht0 Hp00 Hlop Hpup Hslc Hsc0 Hscu.
  destruct (amounts_at_initial_price sqrt stats t0 bf pos t p0 lo up sl sc su
              H Ht Hp0 Hlo Hup Hsl Hsc Hsu Ht0 Hp00 Hlop Hpup Hslc Hsc0 Hscu)
    as (ps & L & t0' & e & Hps & _ & _ & E0 & Eq0 & E1 & _ & Etv & Ee & Ef & He).
  exists ps, e. split; [exact Hps|].
  split; [rewrite E0, Ht; exact Eq0|].
  split; [exact E1|]. split; [exact Etv|]. split; [exact Ee|].
  split; [exact Ef|exact He].
Qed.

(** *** A position built from the price range *)

Lemma div_pos (a b : Q) : 0 < a -> 0 < b -> 0 < a / b.
Proof. intros Ha Hb. apply Qlt_shift_div_l; [exact Hb|lra]. Qed.

Lemma has_both_tokens_fin (ps : position_state) (t0 t1 : Q) :
  token0 ps = Fin t0 -> token1 ps = Fin t1 -> 0 < t0 -> 0 < t1 ->
  has_both_tokens ps = true.
Proof.
  intros E0 E1 H0 H1. unfold has_both_tokens, Float.gtb. rewrite E0, E1.
  rewrite (proj2 (ltb_fin 0 t0) H0), (proj2 (ltb_fin 0 t1) H1). reflexivity.
Qed.

(** X16.  For a table of finite positive prices, a positive amount of
    token0 and a buffer factor strictly between 0 and 1, with square roots
    that are positive and strictly between those of the two bounds on the
    prices of the table: the price analysis and the position parameters
    are computed without error, the lower bound is the minimum price times
    [1 - buffer] and the upper bound the maximum price times [1 + buffer],
    every price of the table is strictly inside the range, and both the
    verification and the test at the extreme prices return [True]. *)
Theorem position_covers_the_observed_prices
        sqrt (data : list row) (t b mn mx : Q) :
  data <> [] ->
  series_min (map price data) = Fin mn ->
  series_max (map price data) = Fin mx ->
  0 < t -> 0 < b -> b < 1 ->
  0 < sqrt (mn * (1 + - b)) ->
  Forall (fun r => exists p,
              price r = Fin p /\ 0 < p /\
              sqrt (mn * (1 + - b)) < sqrt p /\
              sqrt p < sqrt (mx * (1 + b))) data ->
  exists stats pos,
    analyze_price_range sqrt data = Some stats /\
    calculate_position_parameters sqrt stats (Fin t) (Fin b) = Ok pos /\
    pos_lower_price pos = Fin (mn * (1 + - b)) /\
    pos_upper_price pos = Fin (mx * (1 + b)) /\
    Forall (fun r => exists p,
                price r = Fin p /\ mn * (1 + - b) < p /\
                p < mx * (1 + b)) data /\
    verify_position_calculations sqrt pos = Ok true /\
    test_position_at_extreme_prices sqrt data pos = Ok true.
Proof.
  intros Hne Hmin Hmax Ht Hb0 Hb1 Hsl0 Hall.
  set (lo := mn * (1 + - b)) in *. set (up := mx * (1 + b)) in *.
  rewrite Forall_forall in Hall.
  (* the minimum and the maximum are prices of the table *)
  assert (Hin : forall q, In (Fin q) (map price data) ->
                          0 < q /\ sqrt lo < sqrt q /\ sqrt q < sqrt up).
  { intros q Hq. apply in_map_iff in Hq. destruct Hq as (r & Er & Hr).
    destruct (Hall r Hr) as (p & Ep & Hp). rewrite Ep in Er.
    injection Er as <-. exact Hp. }
  assert (Hbounds : forall r, In r data ->
                      exists p, price r = Fin p /\ mn <= p /\ p <= mx).
  { intros r Hr. destruct (Hall r Hr) as (p & Ep & _). exists p.
    split; [exact Ep|].
    assert (Hp : In (price r) (map price data)) by (apply in_map; exact Hr).
    assert (Hn : price r <> NaN) by (rewrite Ep; discriminate).
    destruct (series_min_spec (map price data))
      as [(_ & E)|(_ & _ & Hle)]; [congruence|].
    destruct (series_max_spec (map price data))
      as [(_ & E)|(_ & _ & Hge)]; [congruence|].
    specialize (Hle _ Hp Hn). specialize (Hge _ Hp Hn).
    rewrite Hmin, Ep in Hle. rewrite Hmax, Ep in Hge.
    apply leb_fin in Hle, Hge. auto. }
  assert (Hmn : 0 < mn /\ sqrt lo < sqrt mn /\ sqrt mn < sqrt up).
  { apply Hin. rewrite <- Hmin.
    destruct (series_min_spec (map price data)) as [(_ & E)|(H & _)];
      [congruence|exact H]. }
  assert (Hmx : 0 < mx /\ sqrt lo < sqrt mx /\ sqrt mx < sqrt up).
  { apply Hin. rewrite <- Hmax.
    destruct (series_max_spec (map price data)) as [(_ & E)|(H & _)];
      [congruence|exact H]. }
  destruct Hmn as (Hmn0 & Hmn1 & Hmn2), Hmx as (Hmx0 & Hmx1 & Hmx2).
  assert (Hlo0 : 0 < lo) by (unfold lo; nra).
  assert (Hlomn : lo < mn) by (unfold lo; nra).
  assert (Hmxup : mx < up) by (unfold up; nra).
  destruct data as [|first rest] eqn:Ed; [congruence|]. rewrite <- Ed in *.
  assert (Hfirst : In first data) by (rewrite Ed; left; reflexivity).
  destruct (Hall first Hfirst) as (p0 & Ep0 & Hp0 & Hp1 & Hp2).
  destruct (Hbounds first Hfirst) as (p0' & Ep0' & Hp3 & Hp4).
  rewrite Ep0 in Ep0'. injection Ep0' as <-.
  (* the statistics and the position *)
  assert (Estats : exists stats,
             analyze_price_range sqrt data = Some stats /\
             min_price stats = Fin mn /\ max_price stats = Fin mx /\
             initial_price stats = Fin p0).
  { rewrite Ed. cbn [analyze_price_range]. rewrite <- Ed.
    eexists. split; [reflexivity|].
    cbn [min_price max_price initial_price]. auto. }
  destruct Estats as (stats & Estats & Smin & Smax & Sinit).
  assert (Hup0 : 0 < up) by lra.
  assert (Hd : ~ lo == 0) by lra.
  assert (Hsu : sqrt p0 < sqrt up) by exact Hp2.
  assert (Hdl : ~ sqrt up + - sqrt p0 == 0) by lra.
  assert (Hsc0 : 0 < sqrt p0) by lra.
  assert (Epos : exists pos,
             calculate_position_parameters sqrt stats (Fin t) (Fin b)
             = Ok pos /\
             pos_initial_price pos = Fin p0 /\
             pos_lower_price pos = Fin lo /\ pos_upper_price pos = Fin up /\
             token0_amount pos = Fin t /\
             pos_sqrt_lower pos = Fin (sqrt lo) /\
             pos_sqrt_upper pos = Fin (sqrt up) /\
             sqrt_current pos = Fin (sqrt p0) /\
             pos_liquidity pos
             = Fin (t * (sqrt up * sqrt p0) / (sqrt up + - sqrt p0))).
  { unfold calculate_position_parameters.
    rewrite Smin, Smax, Sinit. unfold Float.sub.
    cbn [Float.neg Float.add Float.mul]. fold lo. fold up.
    rewrite (div_fin _ _ Hd).
    rewrite (math_sqrt_fin sqrt (up / lo))
      by (apply Qlt_le_weak, div_pos; assumption).
    rewrite (math_sqrt_fin sqrt lo) by lra.
    rewrite (math_sqrt_fin sqrt up) by lra.
    rewrite (math_sqrt_fin sqrt p0) by lra.
    cbn [bind Float.neg Float.add Float.mul].
    rewrite (pydiv_fin _ _ Hdl). cbn [bind].
    eexists. split; [reflexivity|].
    cbn [pos_initial_price pos_lower_price pos_upper_price token0_amount
         pos_sqrt_lower pos_sqrt_upper sqrt_current pos_liquidity].
    repeat split; reflexivity. }
  destruct Epos as (pos & Epos & Pp0 & Plo & Pup & Pt & Psl & Psu & Psc & PL).
  exists stats, pos. split; [exact Estats|]. split; [exact Epos|].
  split; [exact Plo|]. split; [exact Pup|].
  split.
  { apply Forall_forall. intros r Hr.
    destruct (Hbounds r Hr) as (p & Ep & H1 & H2). exists p.
    split; [exact Ep|]. lra. }
  set (L := t * (sqrt up * sqrt p0) / (sqrt up + - sqrt p0)) in *.
  assert (HL0 : 0 < L).
  { unfold L. apply div_pos; [|lra].
    assert (0 < sqrt up * sqrt p0) by nra. nra. }
  (* the position at any price *)
  assert (Hamounts : forall p,
             0 <= p ->
             (lo < p -> p < up ->
              0 < sqrt p /\ sqrt lo <= sqrt p <= sqrt up) ->
             exists ps t0 t1 e,
               calculate_token_amounts_at_price sqrt (Fin p) (params pos)
               = Ok ps /\
               token0 ps = Fin t0 /\ token1 ps = Fin t1 /\
               inventory_exposure ps = Fin e /\
               0 <= t0 /\ 0 <= t1 /\ 0 <= e <= 1 /\
               (p <= lo -> t1 == 0 /\ 0 < t0 /\ (0 < p -> e == 1)) /\
               (lo < p -> up <= p -> t0 == 0 /\ 0 < t1 /\ e == 0) /\
               (lo < p -> p < up ->
                (sqrt p < sqrt up -> 0 < t0) /\
                (sqrt lo < sqrt p -> 0 < t1))).
  { intros p Hp Hcond.
    apply (amounts_spec sqrt (params pos) L (sqrt lo) (sqrt up) lo up p);
      cbn [params liquidity sqrt_lower sqrt_upper lower_price upper_price];
      try assumption; lra. }
  assert (Hinside : forall p,
             0 < p -> lo < p -> p < up ->
             sqrt lo < sqrt p -> sqrt p < sqrt up ->
             exists ps,
               calculate_token_amounts_at_price sqrt (Fin p) (params pos)
               = Ok ps /\ has_both_tokens ps = true).
  { intros p Hp H1 H2 H3 H4.
    destruct (Hamounts p) as (ps & t0 & t1 & e & Hps & E0 & E1 & _ & _ & _
                              & _ & _ & _ & Hboth);
      [lra|intros _ _; lra|].
    destruct (Hboth H1 H2) as (Hb0' & Hb1').
    exists ps. split; [exact Hps|].
    apply (has_both_tokens_fin ps t0 t1); auto. }
  split.
  - (* the verification *)
    destruct (position_computed _ _ _ _ _ Epos)
      as (Vp0 & Vlo & Vup & Vt0 & _ & Vsl & Vsu & Vsc & VL & Et1 & Etv & Ee).
    cbv zeta in *. rewrite <- Vlo in Vsl. rewrite <- Vup in Vsu.
    rewrite (verification_of_computed sqrt stats (Fin t) pos Vp0 Vt0 Vsl Vsu
                                      Vsc VL Et1 Etv Ee).
    clear Vp0 Vlo Vup Vt0 Vsl Vsu Vsc VL.
    rewrite Sinit in *.
    rewrite PL, Psc, Psl in Et1. unfold Float.sub in Et1.
    cbn [Float.neg Float.add Float.mul] in Et1.
    rewrite Et1 in Etv. cbn [Float.mul Float.add] in Etv.
    rewrite Etv in Ee.
    assert (Hd4 : ~ t * p0 + L * (sqrt p0 + - sqrt lo) == 0) by nra.
    cbn [Float.mul] in Ee. rewrite (div_fin _ _ Hd4) in Ee.
    rewrite PL, Et1, Etv, Ee. reflexivity.
  - (* the tests at the extreme prices *)
    unfold test_position_at_extreme_prices. rewrite Hmin, Hmax, Pp0, Plo, Pup.
    destruct (Hinside mn) as (ps1 & -> & B1); try lra.
    destruct (Hinside mx) as (ps2 & -> & B2); try lra.
    destruct (Hinside p0) as (ps3 & -> & B3); try lra.
    destruct (Hamounts lo) as (ps4 & ? & ? & ? & -> & _); [lra|intros; lra|].
    destruct (Hamounts up) as (ps5 & ? & ? & ? & -> & _); [lra|intros; lra|].
    cbn [bind]. rewrite B1, B2, B3. reflexivity.
Qed.

(** *** The position time series and the fee time series *)

Section Combined.
Variable sqrt : Q -> Q.
Variable pp : position_params.
Variable col : vpin_row -> pyfloat.
Variable base_fee_pct : pyfloat.
Variable table : list vpin_row.

Local Abbreviation loop := (FeeSim.loop sqrt pp col base_fee_pct table)
  (only parsing).
Local Abbreviation step := (FeeSim.step sqrt pp col base_fee_pct table)
  (only parsing).

(** The entry of [results] for a row, and the entry of [pos_records]. *)
Lemma step_agrees (st st' : loop_state) (r : row) lpi (ps : position_state) :
  step st r = Ok st' ->
  calculate_token_amounts_at_price sqrt (price r) pp = Ok ps ->
  exists o,
    results st' = results st ++ [o] /\
    rows_agree sqrt pp (r, lpi)
      {| rec_timestamp := timestamp r;
         rec_price := price r;
         rec_token0 := token0 ps;
         rec_token1 := token1 ps;
         rec_total_value := total_value ps;
         rec_inventory_exposure := inventory_exposure ps;
         real_price_impact :=
           match lpi with
           | Some x => if Float.notna x then x else Fin 0
           | None => Fin 0
           end;
         rec_estimated_price_impact :=
           if (Float.abs (tradevolume r) >? Fin 0)%fl then
             match latest_illiq st with
             | Some l => (l * Float.abs (tradevolume r) / Fin 1000000)%fl
             | None => Fin 0
             end
           else Fin 0 |} o.
Proof.
  intros Hs Hps. rewrite step_estimate in Hs.
  assert (Hreal : match lpi with
                  | Some x => if Float.notna x then x else Fin 0
                  | None => Fin 0
                  end <> NaN).
  { destruct lpi as [[q| | |]|]; cbn [Float.notna]; discriminate. }
  unfold rows_agree. cbn [fst].
  destruct (tradeable r) eqn:Ht.
  - rewrite (estimate_tradeable _ _ _ _ Ht), Hps in Hs.
    unfold tradeable in Ht. rewrite Ht.
    destruct (latest_illiq st); cbv zeta in Hs; injection Hs as <-;
      eexists; (split; [reflexivity|]);
      cbn [rec_timestamp out_timestamp rec_price out_price
           rec_estimated_price_impact estimated_price_impact
           rec_token0 rec_token1 rec_total_value rec_inventory_exposure
           real_price_impact out_inventory_exposure];
      repeat (split; [reflexivity|]);
      (split; [exists ps; repeat split; [exact Hps]|]);
      (split; [exact Hreal|reflexivity]).
  - rewrite (estimate_not_tradeable _ _ _ _ Ht) in Hs.
    unfold tradeable in Ht. rewrite Ht.
    destruct (inventory_exposure_var st); [|discriminate].
    cbv zeta in Hs. injection Hs as <-.
    eexists. split; [reflexivity|].
    cbn [rec_timestamp out_timestamp rec_price out_price
         rec_estimated_price_impact estimated_price_impact
         rec_token0 rec_token1 rec_total_value rec_inventory_exposure
         real_price_impact out_inventory_exposure].
    repeat (split; [reflexivity|]).
    split; [exists ps; repeat split; exact Hps|].
    split; [exact Hreal|discriminate].
Qed.

Lemma pos_records_agree data :
  forall st st' recs,
    pos_records sqrt pp data (latest_illiq st) = Ok recs ->
    loop (map fst data) st = Ok st' ->
    exists outs,
      results st' = results st ++ outs /\
      length recs = length data /\ length outs = length data /\
      forall k x pr o,
        nth_error data k = Some x -> nth_error recs k = Some pr ->
        nth_error outs k = Some o -> rows_agree sqrt pp x pr o.
Proof.
  induction data as [|[r lpi] data IH]; intros st st' recs;
    cbn [pos_records map FeeSim.loop fst].
  - intros [= <-] [= <-]. exists []. rewrite app_nil_r.
    do 3 (split; [reflexivity|]). intros [|k] x pr o H; discriminate H.
  - intros Hp Hl.
    destruct (calculate_token_amounts_at_price sqrt (price r) pp)
      as [ps|e] eqn:Eps; cbn [bind] in Hp; [|discriminate].
    destruct (step st r) as [st1|e] eqn:Es; cbn [bind] in Hl;
      [|discriminate].
    rewrite <- (step_latest_illiq _ _ _ _ _ _ _ _ Es) in Hp.
    destruct (pos_records sqrt pp data (latest_illiq st1)) as [rest|e] eqn:Er;
      cbn [bind] in Hp; [|discriminate].
    injection Hp as <-.
    destruct (IH _ _ _ Er Hl) as (outs & Hres & Hlen1 & Hlen2 & Hnth).
    destruct (step_agrees st st1 r lpi ps Es Eps) as (o & Ho & Hagree).
    exists (o :: outs). rewrite Hres, Ho, <- app_assoc. cbn [app length].
    split; [reflexivity|]. split; [lia|]. split; [lia|].
    intros [|k] x pr o'; cbn [nth_error].
    + intros [= <-] [= <-] [= <-]. exact Hagree.
    + apply Hnth.
Qed.

Lemma pos_records_outcome data :
  forall l,
    (Forall (priceable sqrt pp) data /\
     exists recs, pos_records sqrt pp data l = Ok recs)
    \/ (exists x e, In x data /\
                    calculate_token_amounts_at_price sqrt (price (fst x)) pp
                    = Err e /\
                    pos_records sqrt pp data l = Err e).
Proof.
  induction data as [|[r lpi] data IH]; intros l; cbn [pos_records].
  - left. split; [constructor|eauto].
  - destruct (calculate_token_amounts_at_price sqrt (price r) pp)
      as [ps|e] eqn:Eps; cbn [bind].
    + match goal with
      | |- context [pos_records sqrt pp data ?l'] =>
          destruct (IH l') as [(Hall & recs & ->)|(x & e & Hin & He & ->)]
      end; cbn [bind].
      * left. split; [|eauto]. constructor; [|exact Hall].
        exists ps. exact Eps.
      * right. exists x, e. cbn [In]. auto.
    + right. exists (r, lpi), e. cbn [In fst]. auto.
Qed.

End Combined.

(** X17.  When the two frames of the combined output are built, they
    have one entry per row of the data, and the entries of a row agree on
    the keys of the merge (timestamp and price) and on the estimated
    impact.  The position entry holds the position at the price of its own
    row and an actual impact that is not NaN; the fee entry shows the same
    exposure when the row has a positive volume. *)
Theorem combined_frames_agree_row_by_row
        sqrt data table pp vpin_type bf col pos_df fee_df :
  vpin_column vpin_type = Some col ->
  combine_position_and_fee_timeseries sqrt data (Some table) pp vpin_type bf
  = Ok (pos_df, fee_df) ->
  length pos_df = length data /\ length fee_df = length data /\
  forall k x pr o,
    nth_error data k = Some x -> nth_error pos_df k = Some pr ->
    nth_error fee_df k = Some o -> rows_agree sqrt pp x pr o.
Proof.
  intros Hcol. unfold combine_position_and_fee_timeseries.
  destruct (pos_records sqrt pp data None) as [recs|e] eqn:Er;
    cbn [bind]; [|discriminate].
  rewrite (calculate_fees_loop _ _ _ _ _ _ _ Hcol).
  destruct (loop sqrt pp col bf table (map fst data) (init col table))
    as [st|e] eqn:El; cbn [bind]; [|discriminate].
  intros [= <- <-].
  destruct (pos_records_agree sqrt pp col bf table data (init col table)
                              st recs Er El)
    as (outs & Hres & Hlen1 & Hlen2 & Hnth).
  cbn [init results app] in Hres. rewrite Hres. auto.
Qed.

(** X18.  With a table of buckets and a column it has, the two frames
    of the combined output are built exactly when the first row, if any,
    has a positive volume and the position can be computed at the price of
    every row, the rows without volume included: a row that the fee
    estimator alone never prices can still make the combined output
    fail. *)
Theorem combined_output_prices_every_row
        sqrt data table pp vpin_type bf col :
  vpin_column vpin_type = Some col ->
  ((exists frames,
       combine_position_and_fee_timeseries sqrt data (Some table) pp
                                           vpin_type bf = Ok frames)
   <-> starts_with_a_trade (map fst data) /\
       Forall (priceable sqrt pp) data) /\
  (forall e x,
      In x data ->
      calculate_token_amounts_at_price sqrt (price (fst x)) pp = Err e ->
      exists e',
        combine_position_and_fee_timeseries sqrt data (Some table) pp
                                            vpin_type bf = Err e').
Proof.
  intros Hcol. unfold combine_position_and_fee_timeseries.
  rewrite (calculate_fees_loop _ _ _ _ _ _ _ Hcol).
  destruct (pos_records_outcome sqrt pp data None)
    as [(Hall & recs & Er)|(x & e & Hin & He & Er)]; rewrite Er; cbn [bind].
  - assert (Hpriced : Forall (priced sqrt pp) (map fst data)).
    { apply Forall_forall. intros r Hr. apply in_map_iff in Hr.
      destruct Hr as (x & <- & Hx). rewrite Forall_forall in Hall.
      intros _. exact (Hall x Hx). }
    destruct (loop_outcome sqrt pp col bf table (map fst data))
      as [(Hst & _ & st & Hl)|[(r & rest & Ed & Ht & Hl)
                              |(r & e & Hin & Ht & He & Hl)]];
      rewrite Hl; cbn [bind].
    + split; [split; eauto|].
      intros e x Hx He. rewrite Forall_forall in Hall.
      destruct (Hall x Hx) as (ps & Hps). congruence.
    + split.
      * split; [intros (f & H); discriminate H|].
        intros (Hs & _). rewrite Ed in Hs. cbn [starts_with_a_trade] in Hs.
        congruence.
      * intros; eauto.
    + rewrite Forall_forall in Hpriced.
      destruct (Hpriced r Hin Ht) as (ps & Hps). congruence.
  - split.
    + split; [intros (f & H); discriminate H|].
      intros (_ & Hall). rewrite Forall_forall in Hall.
      destruct (Hall x Hin) as (ps & Hps). congruence.
    + intros; eauto.
Qed.

(** *** Prices and buffers the position is not made for *)

(** X19.  When the lower bound of the range, the minimum price times
    [1 - buffer], is negative (a negative minimum price, or a positive one
    with a buffer factor above 1) and the maximum price is finite, the
    position parameters are not computed: [ValueError] is raised. *)
Theorem negative_lower_bound_raises
        sqrt stats t0 (b mn mx : Q) :
  min_price stats = Fin mn -> max_price stats = Fin mx ->
  mn * (1 + - b) < 0 ->
  calculate_position_parameters sqrt stats t0 (Fin b) = Err ValueError.
Proof.
  intros Hmin Hmax Hlo. unfold calculate_position_parameters.
  rewrite Hmin, Hmax. unfold Float.sub.
  cbn [Float.neg Float.add Float.mul].
  set (lo := mn * (1 + - b)) in *. set (up := mx * (1 + b)).
  assert (Hd : ~ lo == 0) by lra.
  rewrite (div_fin _ _ Hd).
  destruct (math_sqrt sqrt (Fin (up / lo))) as [rf|e] eqn:E; cbn [bind].
  - rewrite (math_sqrt_negative sqrt lo Hlo). reflexivity.
  - cbn [math_sqrt] in E. destruct (Qle_bool 0 (up / lo)); congruence.
Qed.

(** The range of [data_range] with a buffer factor of 1.5. *)
Lemma negative_lower_bound_raises_witness :
  min_price stats_range = Fin 1 /\ max_price stats_range = Fin 25 /\
  1 * (1 + - (3 # 2)) < 0 /\
  calculate_position_parameters sqrt_exact stats_range (Fin 10)
                                (Fin (3 # 2)) = Err ValueError.
Proof.
  split; [reflexivity|]. split; [reflexivity|]. split; [reflexivity|].
  apply (negative_lower_bound_raises sqrt_exact _ (Fin 10) (3 # 2) 1 25);
    reflexivity.
Defined.

(** X20.  When the minimum price of the table is zero, with a positive
    first price, a positive amount of token0, a buffer factor that is at
    least 0 and below 1 (the lower price is then zero times a positive
    factor) and a square root that is zero at zero: the position
    parameters are computed and their range factor is infinite, the
    verification returns [True], and the test at the extreme prices does
    not return: it raises [ZeroDivisionError]. *)
Theorem zero_price_breaks_the_extreme_test
        sqrt (data : list row) first rest (t b mn mx p0 : Q) :
  data = first :: rest -> price first = Fin p0 ->
  series_min (map price data) = Fin mn ->
  series_max (map price data) = Fin mx ->
  mn == 0 -> 0 < p0 -> 0 < t -> 0 <= b -> b < 1 ->
  (forall x, x == 0 -> sqrt x == 0) ->
  0 < sqrt p0 -> sqrt p0 < sqrt (mx * (1 + b)) ->
  exists stats pos,
    analyze_price_range sqrt data = Some stats /\
    calculate_position_parameters sqrt stats (Fin t) (Fin b) = Ok pos /\
    r_factor pos = PInf /\
    verify_position_calculations sqrt pos = Ok true /\
    test_position_at_extreme_prices sqrt data pos = Err ZeroDivisionError.
Proof.
  intros Ed Ep0 Hmin Hmax Hmn Hp0 Ht Hb Hb1 Hzero Hsc0 Hscu.
  set (lo := mn * (1 + - b)) in *. set (up := mx * (1 + b)) in *.
  assert (Hlo : lo == 0) by (unfold lo; rewrite Hmn; ring).
  assert (Hmx : p0 <= mx).
  { assert (Hin : In (price first) (map price data))
      by (apply in_map; rewrite Ed; left; reflexivity).
    destruct (series_max_spec (map price data))
      as [(_ & E)|(_ & _ & Hge)]; [congruence|].
    assert (Hn : price first <> NaN) by (rewrite Ep0; discriminate).
    specialize (Hge _ Hin Hn). rewrite Hmax, Ep0 in Hge.
    apply leb_fin in Hge. exact Hge. }
  assert (Hup : 0 < up) by (unfold up; nra).
  pose proof (Hzero lo Hlo) as Hsl.
  assert (Estats : exists stats,
             analyze_price_range sqrt data = Some stats /\
             min_price stats = Fin mn /\ max_price stats = Fin mx /\
             initial_price stats = Fin p0).
  { rewrite Ed. cbn [analyze_price_range]. rewrite <- Ed.
    eexists. split; [reflexivity|].
    cbn [min_price max_price initial_price]. auto. }
  destruct Estats as (stats & Estats & Smin & Smax & Sinit).
  assert (Hdl : ~ sqrt up + - sqrt p0 == 0) by lra.
  assert (Ediv : (Fin up / Fin lo)%fl = PInf).
  { cbn [Float.div]. rewrite (proj2 (Qeq_bool_iff lo 0) Hlo).
    apply Qgt_alt in Hup. rewrite Hup. reflexivity. }
  assert (Epos : exists pos,
             calculate_position_parameters sqrt stats (Fin t) (Fin b)
             = Ok pos /\
             r_factor pos = PInf /\
             pos_initial_price pos = Fin p0 /\
             pos_lower_price pos = Fin lo /\ pos_upper_price pos = Fin up /\
             pos_sqrt_lower pos = Fin (sqrt lo) /\
             pos_sqrt_upper pos = Fin (sqrt up) /\
             sqrt_current pos = Fin (sqrt p0) /\
             pos_liquidity pos
             = Fin (t * (sqrt up * sqrt p0) / (sqrt up + - sqrt p0))).
  { unfold calculate_position_parameters.
    rewrite Smin, Smax, Sinit. unfold Float.sub.
    cbn [Float.neg Float.add Float.mul]. fold lo. fold up.
    rewrite Ediv. change (math_sqrt sqrt PInf) with (@Ok pyfloat PInf).
    cbn [bind].
    rewrite (math_sqrt_fin sqrt lo) by lra.
    rewrite (math_sqrt_fin sqrt up) by lra.
    rewrite (math_sqrt_fin sqrt p0) by lra.
    cbn [bind Float.neg Float.add Float.mul].
    rewrite (pydiv_fin _ _ Hdl). cbn [bind].
    eexists. split; [reflexivity|].
    cbn [r_factor pos_initial_price pos_lower_price pos_upper_price
         pos_sqrt_lower pos_sqrt_upper sqrt_current pos_liquidity].
    repeat split; reflexivity. }
  destruct Epos as (pos & Epos & Prf & Pp0 & Plo & Pup & Psl & Psu & Psc & PL).
  exists stats, pos. split; [exact Estats|]. split; [exact Epos|].
  split; [exact Prf|].
  set (L := t * (sqrt up * sqrt p0) / (sqrt up + - sqrt p0)) in *.
  assert (HL0 : 0 < L).
  { unfold L. apply div_pos; [|lra].
    assert (0 < sqrt up * sqrt p0) by nra. nra. }
  split.
  - destruct (position_computed _ _ _ _ _ Epos)
      as (Vp0 & Vlo & Vup & Vt0 & _ & Vsl & Vsu & Vsc & VL & Et1 & Etv & Ee).
    cbv zeta in *. rewrite <- Vlo in Vsl. rewrite <- Vup in Vsu.
    rewrite (verification_of_computed sqrt stats (Fin t) pos Vp0 Vt0 Vsl Vsu
                                      Vsc VL Et1 Etv Ee).
    clear Vp0 Vlo Vup Vt0 Vsl Vsu Vsc VL.
    rewrite Sinit in *.
    rewrite PL, Psc, Psl in Et1. unfold Float.sub in Et1.
    cbn [Float.neg Float.add Float.mul] in Et1.
    rewrite Et1 in Etv. cbn [Float.mul Float.add] in Etv.
    rewrite Etv in Ee.
    assert (Hd4 : ~ t * p0 + L * (sqrt p0 + - sqrt lo) == 0) by nra.
    cbn [Float.mul] in Ee. rewrite (div_fin _ _ Hd4) in Ee.
    rewrite PL, Et1, Etv, Ee. reflexivity.
  - unfold test_position_at_extreme_prices. rewrite Hmin.
    unfold calculate_token_amounts_at_price at 1.
    cbn [params liquidity sqrt_lower sqrt_upper lower_price upper_price].
    rewrite Plo, Psl, Psu, PL.
    rewrite (math_sqrt_fin sqrt mn) by lra. cbn [bind].
    assert (Ele : Float.leb (Fin mn) (Fin lo) = true)
      by (apply leb_fin; lra).
    rewrite Ele. unfold Float.sub. cbn [Float.neg Float.add Float.mul].
    assert (Ez : Float.eqb (Fin (sqrt lo * sqrt up)) (Fin 0) = true).
    { unfold Float.eqb. cbn [Float.cmp].
      assert (E : sqrt lo * sqrt up == 0) by (rewrite Hsl; ring).
      apply Qeq_alt in E. rewrite E. reflexivity. }
    unfold pydiv at 1. rewrite Ez. reflexivity.
Qed.

(** *** The properties above on concrete tables *)

(** The position built from [stats_range] with 10 of token0 and a buffer
    factor of 0.96: the range goes from 1/25 to 49. *)
Lemma verification_passes_iff_values_are_finite_witness :
  exists pos,
    calculate_position_parameters sqrt_exact stats_range (Fin 10)
                                  (Fin (24 # 25)) = Ok pos /\
    verify_position_calculations sqrt_exact pos = Ok true.
Proof.
  evaluate (calculate_position_parameters sqrt_exact stats_range (Fin 10)
                                          (Fin (24 # 25))) as E.
  eexists. split; [exact E|].
  rewrite (verification_passes_iff_values_are_finite _ _ _ _ _ E).
  reflexivity.
Defined.

Lemma position_at_initial_price_is_what_was_deployed_witness :
  exists pos ps e,
    calculate_position_parameters sqrt_exact stats_range (Fin 10)
                                  (Fin (24 # 25)) = Ok pos /\
    calculate_token_amounts_at_price sqrt_exact (pos_initial_price pos)
                                     (params pos) = Ok ps /\
    (token0 ps =~ Fin 10)%fl /\
    inventory_exposure ps = Fin e /\ 0 < e <= 1.
Proof.
  evaluate (calculate_position_parameters sqrt_exact stats_range (Fin 10)
                                          (Fin (24 # 25))) as E.
  destruct (position_at_initial_price_is_what_was_deployed
              sqrt_exact stats_range (Fin 10) (Fin (24 # 25)) _
              10 4 (1 # 25) (1225 # 25) (1 # 5) 2 (35 # 5)
              E eq_refl eq_refl eq_refl eq_refl eq_refl eq_refl eq_refl)
    as (ps & e & Hps & H0 & _ & _ & _ & He & Hbounds); try qcmp.
  eexists. exists ps, e. split; [exact E|]. split; [exact Hps|].
  split; [exact H0|]. split; [exact He|exact Hbounds].
Defined.

(** The prices 4, 1 and 25 with a buffer factor of 0.96. *)
Lemma position_covers_the_observed_prices_witness :
  data_range <> [] /\
  series_min (map price data_range) = Fin 1 /\
  series_max (map price data_range) = Fin 25 /\
  0 < sqrt_exact (1 * (1 + - (24 # 25))) /\
  exists stats pos,
    analyze_price_range sqrt_exact data_range = Some stats /\
    calculate_position_parameters sqrt_exact stats (Fin 10) (Fin (24 # 25))
    = Ok pos /\
    verify_position_calculations sqrt_exact pos = Ok true /\
    test_position_at_extreme_prices sqrt_exact data_range pos = Ok true.
Proof.
  assert (Hne : data_range <> []) by discriminate.
  assert (Hmin : series_min (map price data_range) = Fin 1) by reflexivity.
  assert (Hmax : series_max (map price data_range) = Fin 25) by reflexivity.
  assert (Hsl : 0 < sqrt_exact (1 * (1 + - (24 # 25)))) by qcmp.
  split; [exact Hne|]. split; [exact Hmin|]. split; [exact Hmax|].
  split; [exact Hsl|].
  destruct (position_covers_the_observed_prices
              sqrt_exact data_range 10 (24 # 25) 1 25 Hne Hmin Hmax)
    as (stats & pos & H1 & H2 & _ & _ & _ & H3 & H4); try qcmp.
  { unfold data_range.
    apply Forall_cons; [|apply Forall_cons; [|apply Forall_cons;
                                               [|apply Forall_nil]]];
      eexists; (split; [reflexivity|]); (split; [|split]); qcmp. }
  exists stats, pos. auto.
Defined.

(** Three rows, the second without volume, with the buckets closed at 0,
    5 and 9. *)
Lemma combined_frames_agree_row_by_row_witness :
  vpin_column "vpin_daily" = Some vpin_daily /\
  exists pos_df fee_df,
    combine_position_and_fee_timeseries
      sqrt_exact data_impact (Some table_example) position_example
      "vpin_daily" (Fin (5 # 100)) = Ok (pos_df, fee_df) /\
    length pos_df = length data_impact /\
    length fee_df = length data_impact.
Proof.
  assert (Hcol : vpin_column "vpin_daily" = Some vpin_daily) by reflexivity.
  split; [exact Hcol|].
  evaluate (combine_position_and_fee_timeseries
              sqrt_exact data_impact (Some table_example) position_example
              "vpin_daily" (Fin (5 # 100))) as E.
  do 2 eexists. split; [exact E|].
  destruct (combined_frames_agree_row_by_row _ _ _ _ _ _ _ _ _ Hcol E)
    as (H1 & H2 & _).
  split; [exact H1|exact H2].
Defined.

Lemma combined_output_prices_every_row_witness :
  vpin_column "vpin_daily" = Some vpin_daily /\
  ((exists frames,
       combine_position_and_fee_timeseries
         sqrt_exact data_impact (Some table_example) position_example
         "vpin_daily" (Fin (5 # 100)) = Ok frames)
   <-> starts_with_a_trade (map fst data_impact) /\
       Forall (priceable sqrt_exact position_example) data_impact).
Proof.
  assert (Hcol : vpin_column "vpin_daily" = Some vpin_daily) by reflexivity.
  split; [exact Hcol|].
  exact (proj1 (combined_output_prices_every_row
                  sqrt_exact data_impact table_example position_example
                  "vpin_daily" (Fin (5 # 100)) vpin_daily Hcol)).
Defined.

Lemma sqrt_exact_zero (x : Q) : x == 0 -> sqrt_exact x == 0.
Proof.
  intros Hx. unfold Qeq in Hx. cbn [Qnum Qden] in Hx.
  assert (E : Qnum x = 0%Z) by lia.
  unfold sqrt_exact. rewrite E. reflexivity.
Qed.

(** The prices 4 and 0 with the buffer factor 0.15. *)
Lemma zero_price_breaks_the_extreme_test_witness :
  0 <= 3 # 20 /\ (3 # 20) < 1 /\
  series_min (map price data_zero_price) = Fin 0 /\
  series_max (map price data_zero_price) = Fin 4 /\
  (forall x, x == 0 -> sqrt_exact x == 0) /\
  0 < sqrt_exact 4 /\ sqrt_exact 4 < sqrt_exact (4 * (1 + (3 # 20))) /\
  exists stats pos,
    analyze_price_range sqrt_exact data_zero_price = Some stats /\
    calculate_position_parameters sqrt_exact stats (Fin 10) (Fin (3 # 20))
    = Ok pos /\
    verify_position_calculations sqrt_exact pos = Ok true /\
    test_position_at_extreme_prices sqrt_exact data_zero_price pos
    = Err ZeroDivisionError.
Proof.
  assert (Hmin : series_min (map price data_zero_price) = Fin 0)
    by reflexivity.
  assert (Hmax : series_max (map price data_zero_price) = Fin 4)
    by reflexivity.
  assert (H0 : 0 < sqrt_exact 4) by qcmp.
  assert (H1 : sqrt_exact 4 < sqrt_exact (4 * (1 + (3 # 20)))) by qcmp.
  split; [discriminate|]. split; [reflexivity|].
  split; [exact Hmin|]. split; [exact Hmax|].
  split; [exact sqrt_exact_zero|]. split; [exact H0|]. split; [exact H1|].
  destruct (zero_price_breaks_the_extreme_test
              sqrt_exact data_zero_price _ _ 10 (3 # 20) 0 4 4
              eq_refl eq_refl Hmin Hmax)
    as (stats & pos & Hs & Hp & _ & Hv & Ht);
    try qcmp; try assumption; try exact sqrt_exact_zero.
  exists stats, pos. auto.
Defined.

End SetupProofs.

(** ** The impact columns, and the programs that read them *)

Module MinuteProofs.
Import MinuteData MinuteSpec FloatFacts.

Lemma neb_fin (v : Q) : Float.neb (Fin v) (Fin 0) = true <-> ~ v == 0.
Proof.
  unfold Float.neb, Float.eqb. cbn [Float.cmp].
  destruct (v ?= 0) eqn:E; cbn [negb].
  - apply Qeq_alt in E. split; [discriminate|]. intros H. contradiction.
  - split; [|reflexivity]. intros _ H. apply Qeq_alt in H. congruence.
  - split; [|reflexivity]. intros _ H. apply Qeq_alt in H. congruence.
Qed.

(** The [k]-th row of the result is computed from the [k]-th row of the
    frame and the price of the row before it. *)
Lemma impact_columns_nth (rows : list minute_row) :
  forall previous_price k c,
    nth_error (impact_columns previous_price rows) k = Some c ->
    exists r,
      nth_error rows k = Some r /\
      impact_columns
        (match k with
         | O => previous_price
         | S k' =>
             match nth_error rows k' with
             | Some r' => price r'
             | None => NaN
             end
         end) [r] = [c].
Proof.
  induction rows as [|r0 rows IH]; intros prev k c; cbn [impact_columns].
  - destruct k; discriminate.
  - destruct k as [|k]; cbn [nth_error].
    + intros [= <-]. exists r0. split; reflexivity.
    + intros H. destruct (IH _ _ _ H) as (r & Hr & Hc).
      exists r. split; [exact Hr|]. rewrite <- Hc.
      destruct k; reflexivity.
Qed.

Lemma impact_columns_length (rows : list minute_row) :
  forall previous_price,
    length (impact_columns previous_price rows) = length rows.
Proof.
  induction rows as [|r rows IH]; intros prev; cbn [impact_columns length];
    [reflexivity|]. rewrite IH. reflexivity.
Qed.

(** The columns of one row. *)
Lemma columns_without_volume previous_price r c :
  impact_columns previous_price [r] = [c] ->
  Float.neb (tradevolume r) (Fin 0) = false ->
  last_price_impact c = NaN /\ abs_tradevolume c = NaN /\ ILLIQ c = NaN.
Proof.
  cbn [impact_columns]. intros [= <-] E. rewrite E.
  cbn [last_price_impact abs_tradevolume ILLIQ andb]. auto.
Qed.

Lemma columns_of_first_row r c :
  impact_columns NaN [r] = [c] ->
  last_price_impact c = NaN /\ ILLIQ c = NaN.
Proof.
  cbn [impact_columns]. intros [= <-].
  cbn [last_price_impact ILLIQ].
  assert (E : (Float.abs (price r / NaN - Fin 1))%fl = NaN)
    by (destruct (price r); reflexivity).
  rewrite E. destruct (Float.neb (tradevolume r) (Fin 0)); auto.
Qed.

Lemma columns_of_trade previous_price r c (v p q : Q) :
  impact_columns previous_price [r] = [c] ->
  tradevolume r = Fin v -> ~ v == 0 ->
  price r = Fin p -> previous_price = Fin q -> ~ q == 0 ->
  abs_tradevolume c = Fin (Qabs v) /\
  last_price_impact c = Fin (Qabs (p / q + - 1)) /\
  ILLIQ c = Fin (Qabs (p / q + - 1) / Qabs v * 1000000) /\
  0 <= Qabs (p / q + - 1) / Qabs v * 1000000 /\
  Qabs (p / q + - 1) / Qabs v * 1000000 * Qabs v / 1000000
  == Qabs (p / q + - 1).
Proof.
  cbn [impact_columns]. intros [= <-] Hv Hv0 Hp -> Hq.
  rewrite Hv, Hp, (proj2 (neb_fin v) Hv0).
  rewrite (div_fin _ _ Hq). unfold Float.sub.
  cbn [Float.neg Float.add Float.abs isna Float.notna negb andb
       abs_tradevolume last_price_impact ILLIQ].
  assert (Ha : 0 < Qabs v).
  { pose proof (Qabs_nonneg v). destruct (Qeq_dec (Qabs v) 0) as [E|E].
    - exfalso. apply Hv0. revert E. apply Qabs_case; intros; lra.
    - lra. }
  assert (Ha0 : ~ Qabs v == 0) by lra.
  rewrite (div_fin _ _ Ha0). cbn [Float.mul].
  split; [reflexivity|]. split; [reflexivity|]. split; [reflexivity|].
  pose proof (Qabs_nonneg (p / q + - 1)) as Hi.
  set (i := Qabs (p / q + - 1)) in *.
  split.
  - assert (0 <= i / Qabs v) by (apply Qle_shift_div_l; [exact Ha|lra]).
    nra.
  - field. exact Ha0.
Qed.

(** X21.  The impact columns have one row per row of the frame.  A row
    without volume has NaN in the three columns, and the first row has no
    impact and no impact ratio.  A row of finite, non-zero volume [v] at a
    finite price [p], after a row of finite, non-zero price [q], holds
    [|v|], the impact [|p / q - 1|] and the ratio of the impact to [|v|]
    times 1,000,000, which is not negative; that ratio times [|v|] over
    1,000,000, the estimate the fee simulator makes from it, gives the
    impact back. *)
Theorem impact_ratio_gives_the_impact_back (rows : list minute_row) :
  length (add_impact_columns rows) = length rows /\
  forall k c,
    nth_error (add_impact_columns rows) k = Some c ->
    nth_error rows k = Some (base c) /\
    (Float.neb (tradevolume (base c)) (Fin 0) = false ->
     last_price_impact c = NaN /\ abs_tradevolume c = NaN /\
     ILLIQ c = NaN) /\
    (k = 0%nat -> last_price_impact c = NaN /\ ILLIQ c = NaN) /\
    (forall v p q,
        tradevolume (base c) = Fin v -> ~ v == 0 ->
        price (base c) = Fin p ->
        price_before rows k = Fin q -> ~ q == 0 ->
        abs_tradevolume c = Fin (Qabs v) /\
        last_price_impact c = Fin (Qabs (p / q + - 1)) /\
        exists x,
          ILLIQ c = Fin x /\ 0 <= x /\
          x * Qabs v / 1000000 == Qabs (p / q + - 1)).
Proof.
  split; [apply impact_columns_length|].
  intros k c Hc. unfold add_impact_columns in Hc.
  destruct (impact_columns_nth rows NaN k c Hc) as (r & Hr & Hone).
  assert (Hbase : base c = r).
  { cbn [impact_columns] in Hone. injection Hone as <-. reflexivity. }
  rewrite Hbase. split; [exact Hr|]. split; [|split].
  - apply (columns_without_volume _ _ _ Hone).
  - intros ->. apply (columns_of_first_row _ _ Hone).
  - intros v p q Hv Hv0 Hp Hq Hq0.
    assert (Hprev : match k with
                    | O => NaN
                    | S k' => match nth_error rows k' with
                              | Some r' => price r'
                              | None => NaN
                              end
                    end = Fin q) by exact Hq.
    destruct (columns_of_trade _ r c v p q Hone Hv Hv0 Hp Hprev Hq0)
      as (H1 & H2 & H3 & H4 & H5).
    split; [exact H1|]. split; [exact H2|]. eexists. eauto.
Qed.

(** *** The table that the fee simulator reads *)

Import FeeSim FeeSpec FeeProofs.

Lemma firstn_split_nth {A} (l m1 m2 : list A) (a : A) (k : nat) :
  firstn k l = m1 ++ a :: m2 ->
  (length m1 < k)%nat /\ nth_error l (length m1) = Some a /\
  forall j x, (length m1 < j < k)%nat -> nth_error l j = Some x -> In x m2.
Proof.
  intros E.
  assert (Hlen : (length (m1 ++ a :: m2) <= k)%nat)
    by (rewrite <- E; apply firstn_le_length).
  rewrite length_app in Hlen. cbn [length] in Hlen.
  assert (Hnth : forall j, (j < k)%nat ->
                           nth_error l j = nth_error (m1 ++ a :: m2) j).
  { intros j Hj. rewrite <- E, nth_error_firstn.
    destruct (Nat.ltb_spec j k); [reflexivity|lia]. }
  split; [lia|]. split.
  - rewrite Hnth by lia. rewrite nth_error_app2 by lia.
    rewrite Nat.sub_diag. reflexivity.
  - intros j x Hj Hx. rewrite Hnth in Hx by lia.
    rewrite nth_error_app2 in Hx by lia.
    destruct (j - length m1)%nat as [|i] eqn:Ei; [lia|].
    cbn [nth_error] in Hx. eapply nth_error_In. exact Hx.
Qed.

(** X23.  The fee simulator run on the table with the impact columns:
    for a trade of finite, non-zero volume [v], either no earlier row
    carries an impact ratio that counts, and the estimated impact is zero;
    or the estimate is made from the ratio of the last earlier row that
    carries one, which is a row of non-zero volume [vj]: when its actual
    impact [i] is finite the estimated impact is [i * |v| / |vj|], the
    last impact observed, rescaled by the ratio of the two volumes. *)
Theorem estimated_impact_is_last_impact_rescaled
        sqrt (rows : list minute_row) table pp vpin_type bf col outs
        k c o (v : Q) :
  vpin_column vpin_type = Some col ->
  calculate_fees_with_vpin_full_timeseries
    sqrt (map fee_input (add_impact_columns rows)) (Some table) pp
    vpin_type bf = Ok outs ->
  nth_error (add_impact_columns rows) k = Some c ->
  nth_error outs k = Some o ->
  MinuteData.tradevolume (base c) = Fin v -> ~ v == 0 ->
  (Forall (fun c' => current_illiq (fee_input c') = None)
          (firstn k (add_impact_columns rows)) /\
   estimated_price_impact o = Fin 0)
  \/
  (exists j cj x,
      (j < k)%nat /\ nth_error (add_impact_columns rows) j = Some cj /\
      MinuteData.ILLIQ cj = x /\ current_illiq (fee_input cj) = Some x /\
      (forall j' c',
          (j < j' < k)%nat ->
          nth_error (add_impact_columns rows) j' = Some c' ->
          current_illiq (fee_input c') = None) /\
      estimated_price_impact o = (x * Fin (Qabs v) / Fin 1000000)%fl /\
      (forall vj i,
          MinuteData.tradevolume (base cj) = Fin vj ->
          last_price_impact cj = Fin i ->
          ~ vj == 0 /\
          (estimated_price_impact o =~ Fin (i * Qabs v / Qabs vj))%fl)).
Proof.
  intros Hcol Hok Hc Ho Hv Hv0.
  set (cs := add_impact_columns rows) in *.
  destruct (calculate_fees_ok _ _ _ _ _ _ _ _ Hcol Hok) as (stf & Hloop & <-).
  assert (Hr : nth_error (map fee_input cs) k = Some (fee_input c))
    by (apply map_nth_error; exact Hc).
  destruct (FeeExtra.run_row _ _ _ _ _ _ _ _ _ _ Hloop Hr Ho)
    as (stk & ie & epi & eil & Hpre & Hest & ->).
  cbn [estimated_price_impact].
  assert (Ht : tradeable (fee_input c) = true)
    by (apply (FeeExtra.tradeable_fin (fee_input c) v); assumption).
  rewrite (estimate_tradeable _ _ _ _ Ht) in Hest.
  destruct (calculate_token_amounts_at_price sqrt (FeeSim.price (fee_input c))
                                             pp) as [ps|e];
    [|discriminate].
  pose proof (loop_cache _ _ _ _ _ _ _ Hpre) as Hcache.
  rewrite firstn_map in Hcache.
  destruct (latest_illiq stk) as [x|].
  - right. cbv zeta in Hest. injection Hest as _ <- _.
    cbn [last_some] in Hcache.
    destruct Hcache as (l1 & a & l2 & Hsplit & Ha & Hl2).
    apply map_eq_app in Hsplit. destruct Hsplit as (m1 & m2' & Em & <- & E2).
    apply map_eq_cons in E2. destruct E2 as (cj & m2 & -> & <- & <-).
    destruct (firstn_split_nth _ _ _ _ _ Em) as (Hj & Hcj & Hbetween).
    exists (length m1), cj, x.
    split; [exact Hj|]. split; [exact Hcj|].
    pose proof (proj1 (current_illiq_valid _ _) Ha) as (Hx & Hxn & _).
    cbn [fee_input FeeSim.ILLIQ] in Hx. injection Hx as Hx.
    split; [exact Hx|]. split; [exact Ha|]. split.
    { intros j' c' Hj' Hc'. rewrite Forall_forall in Hl2. apply Hl2.
      apply in_map. apply (Hbetween j' c' Hj' Hc'). }
    cbn [fee_input FeeSim.tradevolume]. rewrite Hv. cbn [Float.abs].
    split; [reflexivity|].
    intros vj i Hvj Hi.
    destruct (impact_columns_nth rows NaN _ cj Hcj) as (rj & _ & Hone).
    cbn [impact_columns] in Hone. injection Hone as Hone.
    assert (Hbase : base cj = rj) by (rewrite <- Hone; reflexivity).
    assert (Hcols : MinuteData.ILLIQ cj =
                    (if Float.neb (MinuteData.tradevolume rj) (Fin 0)
                        && negb (isna (last_price_impact cj))
                     then (last_price_impact cj / abs_tradevolume cj
                           * Fin 1000000)%fl
                     else NaN) /\
                    abs_tradevolume cj =
                    (if Float.neb (MinuteData.tradevolume rj) (Fin 0)
                     then Float.abs (MinuteData.tradevolume rj) else NaN)).
    { rewrite <- Hone. cbn [MinuteData.ILLIQ last_price_impact abs_tradevolume].
      auto. }
    destruct Hcols as (EI & EA). rewrite Hx in EI.
    rewrite <- Hbase, Hvj in EI, EA. rewrite Hi in EI.
    destruct (Float.neb (Fin vj) (Fin 0)) eqn:Enz;
      [|cbn [andb] in EI; congruence].
    apply neb_fin in Enz. split; [exact Enz|].
    cbn [isna Float.notna negb andb Float.abs] in EI, EA.
    rewrite EA in EI.
    assert (Ha0 : ~ Qabs vj == 0).
    { intros E. apply Enz. revert E. apply Qabs_case; intros; lra. }
    rewrite (div_fin _ _ Ha0) in EI. cbn [Float.mul] in EI.
    rewrite EI. cbn [Float.mul].
    assert (Hmil : ~ 1000000 == 0) by discriminate.
    rewrite (div_fin _ _ Hmil). cbn [Float.eq].
    field. exact Ha0.
  - left. cbv zeta in Hest. injection Hest as _ <- _.
    cbn [last_some] in Hcache. rewrite Forall_map in Hcache. auto.
Qed.

(** The frame [minutes_example]: the last trade, of volume 10, is priced
    from the trade of volume -2 that moved the price by a quarter. *)
Lemma estimated_impact_is_last_impact_rescaled_witness :
  vpin_column "vpin_daily" = Some vpin_daily /\
  ~ 10 == 0 /\
  exists outs c o,
    calculate_fees_with_vpin_full_timeseries
      sqrt_exact (map fee_input (add_impact_columns minutes_example))
      (Some SetupSpec.table_example) position_example "vpin_daily"
      (Fin (5 # 100)) = Ok outs /\
    nth_error (add_impact_columns minutes_example) 3 = Some c /\
    nth_error outs 3 = Some o /\
    (estimated_price_impact o =~ Fin ((1 # 4) * Qabs 10 / Qabs (-2)))%fl /\
    ((Forall (fun c' => current_illiq (fee_input c') = None)
             (firstn 3 (add_impact_columns minutes_example)) /\
      estimated_price_impact o = Fin 0)
     \/
     (exists j cj x,
         (j < 3)%nat /\
         nth_error (add_impact_columns minutes_example) j = Some cj /\
         MinuteData.ILLIQ cj = x /\
         current_illiq (fee_input cj) = Some x /\
         (forall j' c',
             (j < j' < 3)%nat ->
             nth_error (add_impact_columns minutes_example) j' = Some c' ->
             current_illiq (fee_input c') = None) /\
         estimated_price_impact o = (x * Fin (Qabs 10) / Fin 1000000)%fl /\
         (forall vj i,
             MinuteData.tradevolume (base cj) = Fin vj ->
             last_price_impact cj = Fin i ->
             ~ vj == 0 /\
             (estimated_price_impact o
              =~ Fin (i * Qabs 10 / Qabs vj))%fl))).
Proof.
  assert (Hcol : vpin_column "vpin_daily" = Some vpin_daily) by reflexivity.
  assert (Hv : ~ 10 == 0) by discriminate.
  split; [exact Hcol|]. split; [exact Hv|].
  evaluate (calculate_fees_with_vpin_full_timeseries
              sqrt_exact (map fee_input (add_impact_columns minutes_example))
              (Some SetupSpec.table_example) position_example "vpin_daily"
              (Fin (5 # 100))) as E.
  evaluate (nth_error (add_impact_columns minutes_example) 3) as Ec.
  do 3 eexists. split; [exact E|]. split; [exact Ec|].
  split; [reflexivity|]. split; [reflexivity|].
  exact (estimated_impact_is_last_impact_rescaled
           sqrt_exact minutes_example _ _ _ _ _ _ 3%nat _ _ 10
           Hcol E Ec eq_refl eq_refl Hv).
Defined.

End MinuteProofs.
